(** * PropRoo growth analytics: a shallow embedding of [backend/app/analytics.py]

    The development follows the source top-down:

    - [Py]        the fragment of the Python runtime the code relies on
                  (exceptions, [float] division and [**]);
    - [Cagr]      [calculate_cagr];
    - [Frame]     the pandas operations used by the rebuild (dropna, the
                  stable multi-key sort, groupby, mean, quantile);
    - [Analytics] [calculate_growth_metrics] as a function on the store.

    Floats are IEEE binary64 ([PrimFloat]); NaN plays the role of pandas'
    null in float columns. *)

From Stdlib Require Import ZArith List String Bool Lia Floats Uint63 Sorted.
Import ListNotations.

Set Warnings "-inexact-float".
Local Open Scope Z_scope.

(* ================================================================== *)
(** ** The Python runtime fragment *)
(* ================================================================== *)

Module Py.

(** The two exceptions [calculate_cagr] names in its handler are the only
    ones the modelled arithmetic can raise; [StatementError] is what
    SQLAlchemy raises for a statement whose parameters cannot be bound. *)
Inductive exn : Type :=
| ZeroDivisionError
| OverflowError
| StatementError.

Inductive result (A : Type) : Type :=
| Ok (a : A)
| Raise (e : exn).
Arguments Ok {A} a.
Arguments Raise {A} e.

Definition bind {A B} (c : result A) (k : A -> result B) : result B :=
  match c with
  | Ok a => k a
  | Raise e => Raise e
  end.

Notation "x <- c ;; k" := (bind c (fun x => k))
  (at level 61, c at next level, right associativity).

(** [try: body except (E1, E2): handler] *)
Definition try_except {A} (body : result A) (caught : exn -> bool)
           (handler : exn -> result A) : result A :=
  match body with
  | Ok a => Ok a
  | Raise e => if caught e then handler e else Raise e
  end.

(** A Python number as [calculate_cagr] can produce it: a [float], or the
    [complex] that [float.__pow__] returns for a negative base and a
    fractional exponent. *)
Inductive num : Type :=
| Flt (f : float)
| Cplx (re im : float).

Definition is_inf (x : float) : bool :=
  (PrimFloat.eqb x infinity || PrimFloat.eqb x neg_infinity)%bool.

(** [a / b] on floats: Python raises where IEEE would give inf or NaN. *)
Definition float_div (a b : float) : result float :=
  if PrimFloat.eqb b 0%float then Raise ZeroDivisionError
  else Ok (a / b)%float.

(** The integer value of a float that is a whole number, [None] otherwise
    (fractional, infinite or NaN). *)
Definition float_as_integer (x : float) : option Z :=
  match Prim2SF x with
  | S754_zero _ => Some 0
  | S754_finite s m e =>
      let mag :=
        if 0 <=? e then Some (Z.pos m * 2 ^ e)
        else if Z.pos m mod 2 ^ (- e) =? 0 then Some (Z.pos m / 2 ^ (- e))
        else None in
      option_map (fun v => if s then - v else v) mag
  | _ => None
  end.

(** [iw != floor(iw)] for finite [iw]. *)
Definition is_fractional (x : float) : bool :=
  match float_as_integer x with Some _ => false | None => true end.

(** [DOUBLE_IS_ODD_INTEGER] *)
Definition is_odd_integer (x : float) : bool :=
  match float_as_integer x with Some v => Z.odd v | None => false end.

Section Pow.

(** The platform's [pow] on a positive finite base other than 1 and a
    finite non-zero exponent (it returns an infinity on overflow), and the
    complex power of a negative real base, as real and imaginary part. *)
Variable libm_pow : float -> float -> float.
Variable libm_cpow : float -> float -> float * float.

(** [complex.__pow__]: a result out of range is an [OverflowError]. *)
Definition complex_pow (iv iw : float) : result num :=
  let '(re, im) := libm_cpow iv iw in
  if (is_inf re || is_inf im)%bool then Raise OverflowError
  else Ok (Cplx re im).

(** [float.__pow__] (CPython's [float_pow]), case by case in its order. *)
Definition float_pow (iv iw : float) : result num :=
  if PrimFloat.eqb iw 0%float then Ok (Flt 1%float)
  else if is_nan iv then Ok (Flt iv)
  else if is_nan iw then
    Ok (Flt (if PrimFloat.eqb iv 1%float then 1%float else iw))
  else if is_inf iw then
    let av := abs iv in
    if PrimFloat.eqb av 1%float then Ok (Flt 1%float)
    else if Bool.eqb (PrimFloat.ltb 0%float iw) (PrimFloat.ltb 1%float av)
         then Ok (Flt (abs iw))
         else Ok (Flt 0%float)
  else if is_inf iv then
    let odd := is_odd_integer iw in
    if PrimFloat.ltb 0%float iw
    then Ok (Flt (if odd then iv else abs iv))
    else Ok (Flt (if odd
                  then (if PrimFloat.ltb iv 0%float then (-0)%float else 0%float)
                  else 0%float))
  else if PrimFloat.eqb iv 0%float then
    if PrimFloat.ltb iw 0%float then Raise ZeroDivisionError
    else Ok (Flt (if is_odd_integer iw then iv else 0%float))
  else if (PrimFloat.ltb iv 0%float && is_fractional iw)%bool then
    complex_pow iv iw
  else
    let negate_result :=
      (PrimFloat.ltb iv 0%float && is_odd_integer iw)%bool in
    let av := abs iv in
    if PrimFloat.eqb av 1%float
    then Ok (Flt (if negate_result then (-1)%float else 1%float))
    else
      let ix := libm_pow av iw in
      if is_inf ix then Raise OverflowError
      else Ok (Flt (if negate_result then (- ix)%float else ix)).

(** [x - 1] *)
Definition num_sub_one (x : num) : num :=
  match x with
  | Flt f => Flt (f - 1)%float
  | Cplx re im => Cplx (re - 1)%float im
  end.

End Pow.

End Py.

(* ================================================================== *)
(** ** [calculate_cagr] *)
(* ================================================================== *)

Module Cagr.
Import Py.

Section WithLibm.

Variable libm_pow : float -> float -> float.
Variable libm_cpow : float -> float -> float * float.

Definition caught_by_cagr_handler (e : exn) : bool :=
  match e with
  | ZeroDivisionError | OverflowError => true
  | StatementError => false
  end.

(** The guarded expression [((last_price / first_price) ** (1 / years)) - 1]. *)
Definition cagr_expression (first_price last_price years : float)
  : result num :=
  ratio <- float_div last_price first_price ;;
  inv <- float_div 1%float years ;;
  p <- float_pow libm_pow libm_cpow ratio inv ;;
  Ok (num_sub_one p).

(** [(last_price - first_price) / first_price] *)
Definition total_growth_expression (first_price last_price : float)
  : result float :=
  float_div (last_price - first_price)%float first_price.

Definition calculate_cagr (first_price last_price years : float)
  : result (num * float) :=
  if PrimFloat.ltb years 0.5%float then
    tg <- total_growth_expression first_price last_price ;;
    Ok (Flt 0%float, tg)
  else
    cagr <- try_except (cagr_expression first_price last_price years)
                       caught_by_cagr_handler
                       (fun _ => Ok (Flt 0%float)) ;;
    total_growth <- total_growth_expression first_price last_price ;;
    Ok (cagr, total_growth).

End WithLibm.

End Cagr.


(* ================================================================== *)
(** ** The pandas fragment *)
(* ================================================================== *)

Module Frame.

(** Grouping keys: decidable equality, and the order groupby lists them in. *)
Class Key (K : Type) : Type := {
  key_eq_dec : forall a b : K, {a = b} + {a <> b};
  key_leb : K -> K -> bool
}.

#[export] Instance string_Key : Key string :=
  {| key_eq_dec := string_dec; key_leb := String.leb |}.

#[export] Instance Z_Key : Key Z :=
  {| key_eq_dec := Z.eq_dec; key_leb := Z.leb |}.

Definition prod_eq_dec {A B} `{Key A} `{Key B} (x y : A * B)
  : {x = y} + {x <> y}.
Proof. decide equality; apply key_eq_dec. Defined.

(** Tuples of keys compare lexicographically. *)
Definition prod_leb {A B} `{Key A} `{Key B} (x y : A * B) : bool :=
  if key_eq_dec (fst x) (fst y) then key_leb (snd x) (snd y)
  else key_leb (fst x) (fst y).

#[export] Instance prod_Key {A B} `{Key A} `{Key B} : Key (A * B) :=
  {| key_eq_dec := prod_eq_dec; key_leb := prod_leb |}.

(** Nulls sort last ([na_position='last']). *)
Definition option_leb {K} (leb : K -> K -> bool) (a b : option K) : bool :=
  match a, b with
  | Some x, Some y => leb x y
  | Some _, None => true
  | None, Some _ => false
  | None, None => true
  end.

(** A stable sort: an element goes in front of the first one that is not
    smaller, so equal keys keep the order they arrived in. *)
Fixpoint insert_by {A} (leb : A -> A -> bool) (x : A) (l : list A) : list A :=
  match l with
  | [] => [x]
  | y :: l' => if leb x y then x :: l else y :: insert_by leb x l'
  end.

Definition stable_sort {A} (leb : A -> A -> bool) (l : list A) : list A :=
  fold_right (insert_by leb) [] l.

(** [f] is the first of the rows of [l] that carry the least key: what a
    stable ascending sort puts in front. *)
Definition first_min {A} (key : A -> Z) (f : A) (l : list A) : Prop :=
  exists pre post,
    l = pre ++ f :: post
    /\ (forall r, In r pre -> key f < key r)
    /\ (forall r, In r post -> key f <= key r).

(** [m] is the last of the rows of [l] that carry the greatest key: what a
    stable ascending sort puts at the end. *)
Definition last_max {A} (key : A -> Z) (m : A) (l : list A) : Prop :=
  exists pre post,
    l = pre ++ m :: post
    /\ (forall r, In r pre -> key r <= key m)
    /\ (forall r, In r post -> key r < key m).

(** [sort_values(by=[k1, k2])]: a lexsort, one stable pass per key, the
    least significant key first. *)
Definition sort_values2 {A} (leb1 leb2 : A -> A -> bool) (l : list A) : list A :=
  stable_sort leb1 (stable_sort leb2 l).

Section GroupBy.

Context {A K : Type} `{Key K}.
Variable key : A -> option K.

Definition has_key (k : K) (r : A) : bool :=
  match key r with
  | Some k' => if key_eq_dec k' k then true else false
  | None => false
  end.

(** The non-null keys, row by row. *)
Definition present_keys (l : list A) : list K :=
  flat_map (fun r => match key r with Some k => [k] | None => [] end) l.

Fixpoint dedup (l : list K) : list K :=
  match l with
  | [] => []
  | k :: l' => if in_dec key_eq_dec k l' then dedup l' else k :: dedup l'
  end.

Definition group_keys (l : list A) : list K :=
  stable_sort key_leb (dedup (present_keys l)).

(** [df.groupby(keys)]: one group per distinct non-null key, keys in sorted
    order, each group holding its rows in the frame's order; rows with a null
    key belong to no group. *)
Definition groupby (l : list A) : list (K * list A) :=
  map (fun k => (k, filter (has_key k) l)) (group_keys l).

(** The rows outside the group of [k], and the keys other than [k]. *)
Definition lacks_key (k : K) (r : A) : bool := negb (has_key k r).

Definition other_key (k k' : K) : bool :=
  if key_eq_dec k' k then false else true.

(** [nunique] of the key column. *)
Definition nunique (l : list A) : Z :=
  Z.of_nat (List.length (dedup (present_keys l))).

End GroupBy.

(** Python's [int -> float]. *)
Definition float_of_Z (z : Z) : float :=
  if z <? 0 then (- of_uint63 (Uint63.of_Z (- z)))%float
  else of_uint63 (Uint63.of_Z z).

(** [floor] of a finite float, as an integer. *)
Definition float_floor (x : float) : Z :=
  match Prim2SF x with
  | S754_finite s m e =>
      let n := if s then Z.neg m else Z.pos m in
      if 0 <=? e then n * 2 ^ e else n / 2 ^ (- e)
  | _ => 0
  end.

Definition dropna (col : list float) : list float :=
  filter (fun v => negb (is_nan v)) col.

(** numpy's linear interpolation between two neighbours. *)
Definition lerp (a b t : float) : float :=
  let diff_b_a := (b - a)%float in
  if PrimFloat.leb 0.5%float t then (b - diff_b_a * (1 - t))%float
  else (a + diff_b_a * t)%float.

(** [Series.quantile(q)] with pandas' default [interpolation='linear']:
    nulls are skipped, the virtual index [(n - 1) * q] is split into its
    floor and its fraction, and the two neighbouring order statistics are
    interpolated. An all-null column gives NaN. *)
Definition quantile (col : list float) (q : float) : float :=
  let vals := stable_sort PrimFloat.leb (dropna col) in
  match vals with
  | [] => nan
  | _ =>
      let n := Z.of_nat (List.length vals) in
      let virtual_index := (float_of_Z (n - 1) * q)%float in
      let lo := float_floor virtual_index in
      let hi := Z.min (lo + 1) (n - 1) in
      let gamma := (virtual_index - float_of_Z lo)%float in
      lerp (nth (Z.to_nat lo) vals nan) (nth (Z.to_nat hi) vals nan) gamma
  end.

(** [df.empty] *)
Definition empty {A} (l : list A) : bool :=
  match l with [] => true | _ => false end.

(** Slices [records[i:i+n]] for [i] in [range(0, len(records), n)]. *)
Fixpoint chunks_fuel {A} (fuel : nat) (n : nat) (l : list A) : list (list A) :=
  match fuel, l with
  | _, [] => []
  | O, _ => []
  | S fuel', _ => firstn n l :: chunks_fuel fuel' n (skipn n l)
  end.

Definition chunks {A} (n : nat) (l : list A) : list (list A) :=
  chunks_fuel (List.length l) n l.

End Frame.


(* ================================================================== *)
(** ** The data model ([models.py]) and the rebuild *)
(* ================================================================== *)

(** Calendar dates, ordered and subtracted through their proleptic
    Gregorian ordinal. *)
Module Date.

Record t : Type := { year : Z; month : Z; day : Z }.

Definition is_leap (y : Z) : bool :=
  ((y mod 4 =? 0) && (negb (y mod 100 =? 0) || (y mod 400 =? 0)))%bool.

Definition days_before_year (y : Z) : Z :=
  let y := y - 1 in y * 365 + y / 4 - y / 100 + y / 400.

Definition days_before_month (y m : Z) : Z :=
  nth (Z.to_nat (m - 1)) [0; 31; 59; 90; 120; 151; 181; 212; 243; 273; 304; 334] 0
  + (if ((2 <? m) && is_leap y)%bool then 1 else 0).

Definition toordinal (d : t) : Z :=
  days_before_year (year d) + days_before_month (year d) (month d) + day d.

Definition leb (a b : t) : bool := toordinal a <=? toordinal b.

(** [(a - b).days] *)
Definition days_between (a b : t) : Z := toordinal a - toordinal b.

End Date.

(** The columns of [Sale] the rebuild reads. A null [purchase_price] is NaN;
    a null or unparseable [contract_date] is [None]. *)
Module Sale.
Record t : Type := {
  id : Z;
  property_id : option string;
  property_street_name : option string;
  property_locality : option string;
  property_post_code : option Z;
  contract_date : option Date.t;
  purchase_price : float
}.
End Sale.

(** A row of [df] once the dates and prices are coerced, the rows with a
    null among them dropped, and [sale_year] added. *)
Module Row.
Record t : Type := {
  id : Z;
  property_id : option string;
  property_street_name : option string;
  property_locality : option string;
  property_post_code : option Z;
  contract_date : Date.t;
  purchase_price : float;
  sale_year : Z
}.
End Row.

(** A value stored under a key of a record dict. *)
Inductive value : Type :=
| VNone
| VStr (s : string)
| VInt (z : Z)
| VFloat (f : float)
| VComplex (re im : float).

Definition value_of_num (n : Py.num) : value :=
  match n with
  | Py.Flt f => VFloat f
  | Py.Cplx re im => VComplex re im
  end.

Definition value_of_opt_string (s : option string) : value :=
  match s with Some s => VStr s | None => VNone end.

(** An entry of [property_stats]. *)
Module Stat.
Record t : Type := {
  property_id : string;
  cagr : Py.num;
  total_growth : float;
  years_held : float;
  last_sale_price : float;
  first_sale_price : float;
  last_sale_year : Z;
  property_street_name : option string;
  property_locality : option string;
  property_post_code : Z
}.

(** [p.items()], in the order the dict literal lists its keys. *)
Definition items (p : t) : list (string * value) :=
  [ ("property_id"%string, VStr (property_id p));
    ("cagr"%string, value_of_num (cagr p));
    ("total_growth"%string, VFloat (total_growth p));
    ("years_held"%string, VFloat (years_held p));
    ("last_sale_price"%string, VFloat (last_sale_price p));
    ("first_sale_price"%string, VFloat (first_sale_price p));
    ("last_sale_year"%string, VInt (last_sale_year p));
    ("property_street_name"%string, value_of_opt_string (property_street_name p));
    ("property_locality"%string, value_of_opt_string (property_locality p));
    ("property_post_code"%string, VInt (property_post_code p)) ].
End Stat.

(** [PropertyGrowth.__table__.columns.keys()] *)
Module PropertyGrowth.
Definition columns : list string :=
  [ "property_id"; "cagr"; "total_growth"; "years_held";
    "last_sale_price"; "first_sale_price" ]%string.
End PropertyGrowth.

Module StreetGrowth.
Record t : Type := {
  street_name : string;
  suburb : string;
  post_code : Z;
  year : Z;
  avg_cagr : float;
  property_count : Z
}.
End StreetGrowth.

Module SuburbGrowth.
Record t : Type := {
  suburb : string;
  year : Z;
  avg_cagr : float;
  property_count : Z
}.
End SuburbGrowth.

Module StreetSummary.
Record t : Type := {
  street_name : string;
  suburb : string;
  post_code : Z;
  unique_properties : Z;
  total_sales : Z;
  avg_cagr : float;
  is_top_performer : Z
}.
End StreetSummary.

Module SuburbSummary.
Record t : Type := {
  suburb : string;
  unique_properties : Z;
  total_sales : Z;
  avg_cagr : float;
  is_top_performer : Z
}.
End SuburbSummary.

(** The store: the raw sales and the five derived tables. *)
Record Store : Type := {
  sales : list Sale.t;
  property_growth : list (list (string * value));
  street_growth : list StreetGrowth.t;
  suburb_growth : list SuburbGrowth.t;
  street_summary : list StreetSummary.t;
  suburb_summary : list SuburbSummary.t
}.

Module Analytics.
Import Py Frame.

(** Lines 53-58: coerce, drop the rows with a null price or date, add
    [sale_year]. *)
Definition prepare_row (s : Sale.t) : option Row.t :=
  match Sale.contract_date s with
  | None => None
  | Some d =>
      if is_nan (Sale.purchase_price s) then None
      else Some {| Row.id := Sale.id s;
                   Row.property_id := Sale.property_id s;
                   Row.property_street_name := Sale.property_street_name s;
                   Row.property_locality := Sale.property_locality s;
                   Row.property_post_code := Sale.property_post_code s;
                   Row.contract_date := d;
                   Row.purchase_price := Sale.purchase_price s;
                   Row.sale_year := Date.year d |}
  end.

Definition prepare (raw : list Sale.t) : list Row.t :=
  flat_map (fun s => match prepare_row s with Some r => [r] | None => [] end) raw.

Definition property_id_leb (a b : Row.t) : bool :=
  option_leb String.leb (Row.property_id a) (Row.property_id b).

Definition contract_date_leb (a b : Row.t) : bool :=
  Date.leb (Row.contract_date a) (Row.contract_date b).

(** [df.sort_values(by=['property_id', 'contract_date'])] *)
Definition sort_df (df : list Row.t) : list Row.t :=
  sort_values2 property_id_leb contract_date_leb df.

Definition row_street_key (r : Row.t) : option (string * string * Z) :=
  match Row.property_street_name r, Row.property_locality r,
        Row.property_post_code r with
  | Some s, Some l, Some p => Some (s, l, p)
  | _, _, _ => None
  end.

Definition stat_street_key (p : Stat.t) : option (string * string * Z) :=
  match Stat.property_street_name p, Stat.property_locality p with
  | Some s, Some l => Some (s, l, Stat.property_post_code p)
  | _, _ => None
  end.

Definition range (lo hi : Z) : list Z :=
  map (fun i => lo + Z.of_nat i) (seq 0 (Z.to_nat (hi - lo))).

(** [range(2001, 2026)] *)
Definition years_range : list Z := range 2001 2026.

(** [growth_df[growth_df['last_sale_year'] >= year]] *)
Definition year_active (growth_df : list Stat.t) (year : Z) : list Stat.t :=
  filter (fun p => year <=? Stat.last_sale_year p) growth_df.

(** The top-performer threshold and flags (lines 191-192 and 223-224). *)
Definition cagr_threshold (avg_cagr : list float) : float :=
  if empty (dropna avg_cagr) then 0%float else quantile avg_cagr 0.9%float.

Definition is_top_performer (avg_cagr : list float) : list Z :=
  let threshold := cagr_threshold avg_cagr in
  map (fun v => if PrimFloat.leb threshold v then 1 else 0) avg_cagr.

(** [left.merge(right, on=keys, how='left')] where the right frame has one
    row per key: a left row without a match gets a null average. *)
Definition merge_left {K V} `{Key K} (left : list (K * V))
           (right : list (K * float)) : list (K * V * float) :=
  map (fun kv =>
         (fst kv, snd kv,
          match find (fun kr => if key_eq_dec (fst kr) (fst kv) then true else false)
                     right with
          | Some kr => snd kr
          | None => nan
          end)) left.

(** [db_property_records]: each dict restricted to the table's columns. *)
Definition db_property_records (property_stats : list Stat.t)
  : list (list (string * value)) :=
  map (fun p =>
         filter (fun kv => if in_dec string_dec (fst kv) PropertyGrowth.columns
                           then true else false)
                (Stat.items p))
      property_stats.

(** A value the database driver can bind to a column: a [complex] is none. *)
Definition bindable (v : value) : bool :=
  match v with
  | VComplex _ _ => false
  | _ => true
  end.

(** [db.bulk_insert_mappings(PropertyGrowth, records)] into the emptied
    table: a record with a value that cannot be bound makes the statement
    fail. *)
Definition bulk_insert_mappings (records : list (list (string * value)))
  : result (list (list (string * value))) :=
  if forallb (fun rec => forallb (fun kv => bindable (snd kv)) rec) records
  then Ok records
  else Raise StatementError.

(** The slice length of the chunked inserts. *)
Definition chunk_size : nat := Z.to_nat 10000.

(** Inserting [records] slice by slice into an emptied table. *)
Definition bulk_insert_chunked {A} (n : nat) (records : list A) : list A :=
  fold_left (fun table chunk => table ++ chunk) (chunks n records) [].

Section Rebuild.

Variable libm_pow : float -> float -> float.
Variable libm_cpow : float -> float -> float * float.

(** The mean pandas computes over a [cagr] column (NaN when null). *)
Variable series_mean : list num -> float.

(** The body of the loop over [df.groupby('property_id')]: [None] is the
    [continue] of a group with fewer than two rows. *)
Definition property_row (pid : string) (group : list Row.t)
  : result (option Stat.t) :=
  match group with
  | [] => Ok None
  | first_sale :: _ =>
      if (List.length group <? 2)%nat then Ok None
      else
        let last_sale := last group first_sale in
        let first_price := Row.purchase_price first_sale in
        let last_price := Row.purchase_price last_sale in
        let first_date := Row.contract_date first_sale in
        let last_date := Row.contract_date last_sale in
        let years :=
          (float_of_Z (Date.days_between last_date first_date) / 365.25)%float in
        ct <- Cagr.calculate_cagr libm_pow libm_cpow first_price last_price years ;;
        Ok (Some {| Stat.property_id := pid;
                    Stat.cagr := fst ct;
                    Stat.total_growth := snd ct;
                    Stat.years_held := years;
                    Stat.last_sale_price := last_price;
                    Stat.first_sale_price := first_price;
                    Stat.last_sale_year := Row.sale_year last_sale;
                    Stat.property_street_name := Row.property_street_name first_sale;
                    Stat.property_locality := Row.property_locality first_sale;
                    Stat.property_post_code :=
                      match Row.property_post_code first_sale with
                      | Some p => p
                      | None => 0
                      end |})
  end.

Fixpoint property_loop (groups : list (string * list Row.t))
  : result (list Stat.t) :=
  match groups with
  | [] => Ok []
  | (pid, group) :: rest =>
      r <- property_row pid group ;;
      rs <- property_loop rest ;;
      Ok (match r with Some p => p :: rs | None => rs end)
  end.

(** [property_stats] from the sorted frame. *)
Definition derive_property_stats (df : list Row.t) : result (list Stat.t) :=
  property_loop (groupby Row.property_id df).

Definition street_stats (year : Z) (year_active_df : list Stat.t)
  : list StreetGrowth.t :=
  map (fun g =>
         {| StreetGrowth.street_name := fst (fst (fst g));
            StreetGrowth.suburb := snd (fst (fst g));
            StreetGrowth.post_code := snd (fst g);
            StreetGrowth.year := year;
            StreetGrowth.avg_cagr := series_mean (map Stat.cagr (snd g));
            StreetGrowth.property_count := Z.of_nat (List.length (snd g)) |})
      (groupby stat_street_key year_active_df).

Definition suburb_stats (year : Z) (year_active_df : list Stat.t)
  : list SuburbGrowth.t :=
  map (fun g =>
         {| SuburbGrowth.suburb := fst g;
            SuburbGrowth.year := year;
            SuburbGrowth.avg_cagr := series_mean (map Stat.cagr (snd g));
            SuburbGrowth.property_count := Z.of_nat (List.length (snd g)) |})
      (groupby Stat.property_locality year_active_df).

(** The loop over [years_range], accumulating both record lists. *)
Definition per_year (years : list Z) (growth_df : list Stat.t)
  : list StreetGrowth.t * list SuburbGrowth.t :=
  fold_left
    (fun acc year =>
       let year_active_df := year_active growth_df year in
       if empty year_active_df then acc
       else (fst acc ++ street_stats year year_active_df,
             snd acc ++ suburb_stats year year_active_df))
    years ([], []).

(** Street summary: counts from [df], the average joined from [growth_df]. *)
Definition street_summary_df (df : list Row.t) (growth_df : list Stat.t)
  : list (string * string * Z * (Z * Z) * float) :=
  merge_left
    (map (fun g => (fst g, (nunique Row.property_id (snd g),
                            Z.of_nat (List.length (snd g)))))
         (groupby row_street_key df))
    (map (fun g => (fst g, series_mean (map Stat.cagr (snd g))))
         (groupby stat_street_key growth_df)).

Definition street_summary_records (df : list Row.t) (growth_df : list Stat.t)
  : list StreetSummary.t :=
  let summary := street_summary_df df growth_df in
  let flags := is_top_performer (map snd summary) in
  map (fun rf =>
         let row := fst rf in
         {| StreetSummary.street_name := fst (fst (fst (fst row)));
            StreetSummary.suburb := snd (fst (fst (fst row)));
            StreetSummary.post_code := snd (fst (fst row));
            StreetSummary.unique_properties := fst (snd (fst row));
            StreetSummary.total_sales := snd (snd (fst row));
            StreetSummary.avg_cagr := snd row;
            StreetSummary.is_top_performer := snd rf |})
      (combine summary flags).

Definition suburb_summary_df (df : list Row.t) (growth_df : list Stat.t)
  : list (string * (Z * Z) * float) :=
  merge_left
    (map (fun g => (fst g, (nunique Row.property_id (snd g),
                            Z.of_nat (List.length (snd g)))))
         (groupby Row.property_locality df))
    (map (fun g => (fst g, series_mean (map Stat.cagr (snd g))))
         (groupby Stat.property_locality growth_df)).

Definition suburb_summary_records (df : list Row.t) (growth_df : list Stat.t)
  : list SuburbSummary.t :=
  let summary := suburb_summary_df df growth_df in
  let flags := is_top_performer (map snd summary) in
  map (fun rf =>
         let row := fst rf in
         {| SuburbSummary.suburb := fst (fst row);
            SuburbSummary.unique_properties := fst (snd (fst row));
            SuburbSummary.total_sales := snd (snd (fst row));
            SuburbSummary.avg_cagr := snd row;
            SuburbSummary.is_top_performer := snd rf |})
      (combine summary flags).

(** [calculate_growth_metrics]. [Ok db'] is the store after the run; an
    exception, of the derivation or of the insert into PropertyGrowth, comes
    before the first commit: it leaves the open transaction uncommitted and
    is handed to the caller. *)
Definition calculate_growth_metrics (db : Store) : result Store :=
  if empty (sales db) then Ok db
  else
    let df := sort_df (prepare (sales db)) in
    property_stats <- derive_property_stats df ;;
    rows <- (if empty property_stats then Ok []
             else bulk_insert_mappings (db_property_records property_stats)) ;;
    let db1 :=
      {| sales := sales db;
         property_growth := rows;
         street_growth := street_growth db;
         suburb_growth := suburb_growth db;
         street_summary := street_summary db;
         suburb_summary := suburb_summary db |} in
    if empty property_stats then Ok db1
    else
      let growth_df := property_stats in
      let records := per_year years_range growth_df in
      Ok {| sales := sales db;
            property_growth := property_growth db1;
            street_growth := bulk_insert_chunked chunk_size (fst records);
            suburb_growth := snd records;
            street_summary :=
              bulk_insert_chunked chunk_size (street_summary_records df growth_df);
            suburb_summary := suburb_summary_records df growth_df |}.

End Rebuild.

End Analytics.


(* ================================================================== *)
(** ** [scripts/init_db.py] *)
(* ================================================================== *)

Module InitDb.
Import Py Analytics.

Section Main.

Variable libm_pow : float -> float -> float.
Variable libm_cpow : float -> float -> float * float.
Variable series_mean : list num -> float.

(** [Base.metadata.drop_all(tables=tables_to_drop)] followed by
    [create_all]: the five derived tables are empty, the sales are kept. *)
Definition drop_derived_tables (db : Store) : Store :=
  {| sales := sales db;
     property_growth := [];
     street_growth := [];
     suburb_growth := [];
     street_summary := [];
     suburb_summary := [] |}.

(** [main]: the store it leaves and the exit status of the process, 1
    when the rebuild raised ([sys.exit(1)]) and 0 otherwise. *)
Definition main (db : Store) : Store * Z :=
  let fresh := drop_derived_tables db in
  match calculate_growth_metrics libm_pow libm_cpow series_mean fresh with
  | Ok db' => (db', 0)
  | Raise _ => (fresh, 1)
  end.

End Main.

End InitDb.


(* ================================================================== *)
(** ** Vocabulary of the properties *)
(* ================================================================== *)

Import Py Frame Analytics.

(** The day number of a row's contract date. *)
Definition contract_ordinal (r : Row.t) : Z :=
  Date.toordinal (Row.contract_date r).

(** The flag of a value, with the null test written out. *)
Definition flag_of (threshold v : float) : Z :=
  if (negb (is_nan v) && PrimFloat.leb threshold v)%bool then 1 else 0.

(** At most a tenth of the rows carry the flag, as the specification words
    the share of top performers. *)
Definition flagged_share_at_most_tenth (flags : list Z) : Prop :=
  10 * Z.of_nat (count_occ Z.eq_dec flags 1) <= Z.of_nat (List.length flags).

(** The six stored fields of a property record. *)
Definition persisted_fields (p : Stat.t) : list (string * value) :=
  [ ("property_id"%string, VStr (Stat.property_id p));
    ("cagr"%string, value_of_num (Stat.cagr p));
    ("total_growth"%string, VFloat (Stat.total_growth p));
    ("years_held"%string, VFloat (Stat.years_held p));
    ("last_sale_price"%string, VFloat (Stat.last_sale_price p));
    ("first_sale_price"%string, VFloat (Stat.first_sale_price p)) ].

(** A derived record whose rate is a [complex]. *)
Definition complex_rate (p : Stat.t) : bool :=
  match Stat.cagr p with
  | Cplx _ _ => true
  | Flt _ => false
  end.

Definition sale_street_key (s : Sale.t) : option (string * string * Z) :=
  match Sale.property_street_name s, Sale.property_locality s,
        Sale.property_post_code s with
  | Some street, Some suburb, Some post_code => Some (street, suburb, post_code)
  | _, _, _ => None
  end.

(** The store without the sales of one property. *)
Definition without_property (pid : string) (db : Store) : Store :=
  {| sales := filter (lacks_key Sale.property_id pid) (sales db);
     property_growth := property_growth db;
     street_growth := street_growth db;
     suburb_growth := suburb_growth db;
     street_summary := street_summary db;
     suburb_summary := suburb_summary db |}.

(** Some property with two or more qualifying sales has its first sale
    priced at zero. *)
Definition zero_priced_first_sale (db : Store) : Prop :=
  exists pid first_sale rest,
    In (pid, first_sale :: rest)
       (groupby Row.property_id (sort_df (prepare (sales db))))
    /\ rest <> []
    /\ PrimFloat.eqb (Row.purchase_price first_sale) 0%float = true.

(** The derivation returns and one of its records has a complex rate. *)
Definition complex_rate_derived (libm_pow : float -> float -> float)
           (libm_cpow : float -> float -> float * float) (db : Store) : Prop :=
  exists property_stats,
    derive_property_stats libm_pow libm_cpow (sort_df (prepare (sales db)))
    = Ok property_stats
    /\ existsb complex_rate property_stats = true.

(** Some property with two or more qualifying sales has a first and a last
    price of opposite signs. *)
Definition opposite_signed_resale (db : Store) : Prop :=
  exists pid first_sale rest,
    In (pid, first_sale :: rest)
       (groupby Row.property_id (sort_df (prepare (sales db))))
    /\ rest <> []
    /\ PrimFloat.ltb (Row.purchase_price (last rest first_sale)
                      / Row.purchase_price first_sale) 0%float = true.

(** What identifies a yearly row, and a summary row. *)
Definition street_year (r : StreetGrowth.t) : string * string * Z * Z :=
  (StreetGrowth.street_name r, StreetGrowth.suburb r,
   StreetGrowth.post_code r, StreetGrowth.year r).

Definition suburb_year (r : SuburbGrowth.t) : string * Z :=
  (SuburbGrowth.suburb r, SuburbGrowth.year r).

Definition street_of (s : StreetSummary.t) : string * string * Z :=
  (StreetSummary.street_name s, StreetSummary.suburb s,
   StreetSummary.post_code s).

(** The derived properties a yearly street row, and a yearly suburb row, is
    computed from. *)
Definition street_members (growth_df : list Stat.t) (r : StreetGrowth.t)
  : list Stat.t :=
  filter (has_key stat_street_key (fst (street_year r)))
         (year_active growth_df (StreetGrowth.year r)).

Definition suburb_members (growth_df : list Stat.t) (r : SuburbGrowth.t)
  : list Stat.t :=
  filter (has_key Stat.property_locality (SuburbGrowth.suburb r))
         (year_active growth_df (SuburbGrowth.year r)).

Definition suburb_of (s : SuburbSummary.t) : string := SuburbSummary.suburb s.

(** Rows that carry a non-null key. *)
Definition with_key {A K} (key : A -> option K) (r : A) : bool :=
  match key r with Some _ => true | None => false end.

Definition total (l : list Z) : Z := fold_right Z.add 0 l.

(** The average the left join of a summary attaches to the key [k]: that of
    the first matching row of the grouped [growth_df], null without one. *)
Definition joined_avg_cagr {K} `{Key K} (key : Stat.t -> option K)
           (series_mean : list num -> float) (growth_df : list Stat.t) (k : K)
  : float :=
  match find (fun kr => if key_eq_dec (fst kr) k then true else false)
             (map (fun g => (fst g, series_mean (map Stat.cagr (snd g))))
                  (groupby key growth_df)) with
  | Some kr => snd kr
  | None => nan
  end.

(** The raw sale rows on a street, qualifying or not. *)
Definition raw_sales_on_street (db : Store) (k : string * string * Z) : Z :=
  Z.of_nat (List.length (filter (has_key sale_street_key k) (sales db))).


(* ================================================================== *)
(** ** Sample data *)
(* ================================================================== *)

Module Examples.
Import Py Frame Analytics.
Local Open Scope string_scope.

(** Stand-ins for the platform's power functions. The sample stores below
    hold their properties for under six months, so no run consults them. *)
Definition libm_pow (_ _ : float) : float := nan.
Definition libm_cpow (_ _ : float) : float * float := (nan, nan).

(** A stand-in for the complex power, of finite parts, for the one sample
    store that reaches it. *)
Definition finite_cpow (_ _ : float) : float * float := (-0.5, 0.875)%float.

(** The plain mean of the real parts, left to right. *)
Definition plain_mean (col : list num) : float :=
  match col with
  | [] => nan
  | _ =>
      (fold_left (fun acc c => match c with
                               | Flt f => acc + f
                               | Cplx re _ => acc + re
                               end) col 0
       / float_of_Z (Z.of_nat (List.length col)))%float
  end.

Definition date (y m d : Z) : Date.t :=
  {| Date.year := y; Date.month := m; Date.day := d |}.

Definition sale (id : Z) (pid street suburb : string) (post_code : Z)
           (contract_date : option Date.t) (price : float) : Sale.t :=
  {| Sale.id := id;
     Sale.property_id := Some pid;
     Sale.property_street_name := Some street;
     Sale.property_locality := Some suburb;
     Sale.property_post_code := Some post_code;
     Sale.contract_date := contract_date;
     Sale.purchase_price := price |}.

Definition row (id : Z) (pid street suburb : string) (post_code : Z)
           (contract_date : Date.t) (price : float) : Row.t :=
  {| Row.id := id;
     Row.property_id := Some pid;
     Row.property_street_name := Some street;
     Row.property_locality := Some suburb;
     Row.property_post_code := Some post_code;
     Row.contract_date := contract_date;
     Row.purchase_price := price;
     Row.sale_year := Date.year contract_date |}.

Definition stat (pid : string) (cagr : float) (last_sale_year : Z)
           (street suburb : string) (post_code : Z) : Stat.t :=
  {| Stat.property_id := pid;
     Stat.cagr := Flt cagr;
     Stat.total_growth := 0.5;
     Stat.years_held := 5;
     Stat.last_sale_price := 150;
     Stat.first_sale_price := 100;
     Stat.last_sale_year := last_sale_year;
     Stat.property_street_name := Some street;
     Stat.property_locality := Some suburb;
     Stat.property_post_code := post_code |}.

(** Four sales of one property among another's: two on the earliest date,
    two on the latest. *)
Definition tied_sales : list Row.t :=
  [ row 1 "P1" "High St" "Ryde" 2112 (date 2021 6 30) 900;
    row 2 "P2" "Low St" "Ryde" 2112 (date 2015 2 1) 400;
    row 3 "P1" "High St" "Ryde" 2112 (date 2010 3 15) 500;
    row 4 "P1" "High St" "Ryde" 2112 (date 2010 3 15) 510;
    row 5 "P1" "High St" "Ryde" 2112 (date 2021 6 30) 910 ].

(** The group of P1 in the sorted frame. *)
Definition tied_group : list Row.t :=
  [ row 3 "P1" "High St" "Ryde" 2112 (date 2010 3 15) 500;
    row 4 "P1" "High St" "Ryde" 2112 (date 2010 3 15) 510;
    row 1 "P1" "High St" "Ryde" 2112 (date 2021 6 30) 900;
    row 5 "P1" "High St" "Ryde" 2112 (date 2021 6 30) 910 ].

(** Three derived properties on two streets of two suburbs. *)
Definition growth_sample : list Stat.t :=
  [ stat "P1" 0.05 2010 "High St" "Ryde" 2112;
    stat "P2" 0.2 2020 "Low St" "Epping" 2121;
    stat "P3" 0.1 2015 "High St" "Ryde" 2112 ].

Definition frame_sample : list Row.t :=
  [ row 1 "P1" "High St" "Ryde" 2112 (date 2005 1 1) 100;
    row 2 "P1" "High St" "Ryde" 2112 (date 2010 1 1) 150;
    row 3 "P2" "Low St" "Epping" 2121 (date 2015 1 1) 100;
    row 4 "P2" "Low St" "Epping" 2121 (date 2020 1 1) 150;
    row 5 "P3" "High St" "Ryde" 2112 (date 2010 1 1) 100;
    row 6 "P3" "High St" "Ryde" 2112 (date 2015 1 1) 150 ].


(** A property whose last sale falls in 2026. *)
Definition growth_2026 : list Stat.t :=
  [ stat "P1" 0.05 2026 "High St" "Ryde" 2112 ].

Definition no_tables (sales : list Sale.t) : Store :=
  {| sales := sales;
     property_growth := [];
     street_growth := [];
     suburb_growth := [];
     street_summary := [];
     suburb_summary := [] |}.

(** One street: property A sold twice within two months, property B sold
    once with a price and once with the price missing. *)
Definition store_mixed : Store :=
  no_tables
    [ sale 1 "A" "High St" "Ryde" 2112 (Some (date 2020 1 1)) 100;
      sale 2 "A" "High St" "Ryde" 2112 (Some (date 2020 3 1)) 110;
      sale 3 "B" "High St" "Ryde" 2112 (Some (date 2019 5 1)) 300;
      sale 4 "B" "High St" "Ryde" 2112 (Some (date 2022 5 1)) nan ].

(** Property A sold at 100 and, 547 days later, at -100. *)
Definition store_opposite_prices : Store :=
  no_tables
    [ sale 1 "A" "High St" "Ryde" 2112 (Some (date 2020 1 1)) 100;
      sale 2 "A" "High St" "Ryde" 2112 (Some (date 2021 7 1)) (-100) ].

(** A store whose only sale is the single sale of one property. *)
Definition store_lone_sale : Store :=
  no_tables
    [ sale 1 "A" "High St" "Ryde" 2112 (Some (date 2020 1 1)) 100 ].

(** Derived tables left by an earlier rebuild. *)
Definition old_street_growth : StreetGrowth.t :=
  {| StreetGrowth.street_name := "High St";
     StreetGrowth.suburb := "Ryde";
     StreetGrowth.post_code := 2112;
     StreetGrowth.year := 2010;
     StreetGrowth.avg_cagr := 0.05;
     StreetGrowth.property_count := 1 |}.

Definition old_suburb_growth : SuburbGrowth.t :=
  {| SuburbGrowth.suburb := "Ryde";
     SuburbGrowth.year := 2010;
     SuburbGrowth.avg_cagr := 0.05;
     SuburbGrowth.property_count := 1 |}.

Definition old_street_summary : StreetSummary.t :=
  {| StreetSummary.street_name := "High St";
     StreetSummary.suburb := "Ryde";
     StreetSummary.post_code := 2112;
     StreetSummary.unique_properties := 1;
     StreetSummary.total_sales := 2;
     StreetSummary.avg_cagr := 0.05;
     StreetSummary.is_top_performer := 1 |}.

Definition old_suburb_summary : SuburbSummary.t :=
  {| SuburbSummary.suburb := "Ryde";
     SuburbSummary.unique_properties := 1;
     SuburbSummary.total_sales := 2;
     SuburbSummary.avg_cagr := 0.05;
     SuburbSummary.is_top_performer := 1 |}.

Definition with_old_tables (sales : list Sale.t) : Store :=
  {| sales := sales;
     property_growth := [[("property_id", VStr "P1"); ("cagr", VFloat 0.05)]];
     street_growth := [old_street_growth];
     suburb_growth := [old_suburb_growth];
     street_summary := [old_street_summary];
     suburb_summary := [old_suburb_summary] |}.

(** No sales at all, and a single sale of a single property. *)
Definition store_without_sales : Store := with_old_tables [].

Definition store_single_sale : Store :=
  with_old_tables
    [ sale 1 "A" "High St" "Ryde" 2112 (Some (date 2020 1 1)) 100 ].

End Examples.


(* ================================================================== *)
(** * Properties *)
(* ================================================================== *)

(** ** The stable sort *)

Section InsertFacts.

Context {A : Type}.
Variable leb : A -> A -> bool.

Lemma in_insert_by (x y : A) (l : list A) :
  In y (insert_by leb x l) <-> y = x \/ In y l.
Proof.
  induction l as [|z l IH]; simpl.
  - intuition.
  - destruct (leb x z); simpl; [intuition | rewrite IH; intuition].
Qed.

Lemma in_stable_sort (y : A) (l : list A) :
  In y (stable_sort leb l) <-> In y l.
Proof.
  induction l as [|x l IH]; simpl; [tauto|].
  rewrite in_insert_by, IH. intuition.
Qed.

Lemma length_filter_insert_by (P : A -> bool) (x : A) (l : list A) :
  List.length (filter P (insert_by leb x l)) = List.length (filter P (x :: l)).
Proof.
  induction l as [|z l IH]; [reflexivity|].
  simpl insert_by. destruct (leb x z); [reflexivity|].
  simpl in *. destruct (P z), (P x); simpl in *; lia.
Qed.

Lemma length_filter_stable_sort (P : A -> bool) (l : list A) :
  List.length (filter P (stable_sort leb l)) = List.length (filter P l).
Proof.
  induction l as [|x l IH]; [reflexivity|].
  simpl stable_sort. rewrite length_filter_insert_by.
  simpl. destruct (P x); simpl; lia.
Qed.

(** Rows of one class that the order does not separate stay where they
    were: a stable pass on another key leaves each class in its order. *)
Lemma filter_insert_by_class (P : A -> bool) (x : A) (l : list A) :
  (forall y, In y l -> P y = true -> leb x y = true) ->
  filter P (insert_by leb x l) = filter P (x :: l).
Proof.
  induction l as [|z l IH]; intros Hcls; [reflexivity|].
  simpl insert_by. destruct (leb x z) eqn:Hxz; [reflexivity|].
  assert (Hz : P z = false).
  { destruct (P z) eqn:Pz; [|reflexivity].
    rewrite (Hcls z (or_introl eq_refl) Pz) in Hxz. discriminate. }
  simpl. rewrite Hz.
  specialize (IH (fun y Hy => Hcls y (or_intror Hy))).
  simpl in IH. exact IH.
Qed.

Lemma filter_stable_sort_class (P : A -> bool) (l : list A) :
  (forall x y, P x = true -> P y = true -> leb x y = true) ->
  filter P (stable_sort leb l) = filter P l.
Proof.
  intros Hcls. induction l as [|x l IH]; [reflexivity|].
  simpl stable_sort.
  destruct (P x) eqn:Px.
  - rewrite filter_insert_by_class by (intros; apply Hcls; assumption).
    simpl. rewrite Px, IH. reflexivity.
  - assert (Hgen : forall s, filter P (insert_by leb x s) = filter P s).
    { induction s as [|z s IHs]; simpl; [rewrite Px; reflexivity|].
      destruct (leb x z); simpl; [rewrite Px; reflexivity|].
      rewrite IHs. reflexivity. }
    rewrite Hgen, IH. simpl. rewrite Px. reflexivity.
Qed.

End InsertFacts.

(** Sorting with a total, transitive comparison. *)
Section OrderedSort.

Context {A : Type}.
Variable leb : A -> A -> bool.
Hypothesis leb_total : forall a b, leb a b = true \/ leb b a = true.
Hypothesis leb_trans :
  forall a b c, leb a b = true -> leb b c = true -> leb a c = true.

Let le (a b : A) : Prop := leb a b = true.

Lemma insert_by_below_all (x : A) (l : list A) :
  (forall z, In z l -> leb x z = true) -> insert_by leb x l = x :: l.
Proof.
  destruct l as [|y l]; intros Hle; [reflexivity|].
  simpl. rewrite (Hle y (or_introl eq_refl)). reflexivity.
Qed.

Lemma insert_by_sorted (x : A) (l : list A) :
  StronglySorted le l -> StronglySorted le (insert_by leb x l).
Proof.
  induction 1 as [|y l Hs IH Hall]; simpl.
  - repeat constructor.
  - destruct (leb x y) eqn:Hxy.
    + constructor; [constructor; assumption|].
      constructor; [exact Hxy|].
      rewrite Forall_forall in *. intros z Hz.
      exact (leb_trans _ _ _ Hxy (Hall z Hz)).
    + constructor; [exact IH|].
      rewrite Forall_forall in *. intros z Hz.
      apply in_insert_by in Hz. destruct Hz as [->|Hz].
      * destruct (leb_total x y) as [Hc|Hc]; [congruence | exact Hc].
      * apply Hall. exact Hz.
Qed.

Lemma stable_sort_sorted (l : list A) : StronglySorted le (stable_sort leb l).
Proof.
  induction l as [|x l IH]; simpl; [constructor|].
  apply insert_by_sorted. exact IH.
Qed.

Lemma filter_insert_by_sorted (P : A -> bool) (x : A) (l : list A) :
  StronglySorted le l ->
  filter P (insert_by leb x l)
  = if P x then insert_by leb x (filter P l) else filter P l.
Proof.
  induction 1 as [|y l Hs IH Hall]; simpl.
  - destruct (P x); reflexivity.
  - rewrite Forall_forall in Hall. destruct (leb x y) eqn:Hxy.
    + simpl. destruct (P x) eqn:Px; [|reflexivity].
      symmetry. apply insert_by_below_all.
      assert (Hrest : forall z, In z (filter P l) -> leb x z = true).
      { intros z Hz. apply filter_In in Hz. destruct Hz as [Hz _].
        exact (leb_trans _ _ _ Hxy (Hall z Hz)). }
      intros z Hz. destruct (P y); [destruct Hz as [<-|Hz]|]; auto.
    + simpl. rewrite IH. destruct (P y) eqn:Py, (P x) eqn:Px; simpl;
        try reflexivity.
      rewrite Hxy. reflexivity.
Qed.

(** Sorting and selecting rows commute. *)
Lemma filter_stable_sort_ordered (P : A -> bool) (l : list A) :
  filter P (stable_sort leb l) = stable_sort leb (filter P l).
Proof.
  induction l as [|x l IH]; [reflexivity|].
  simpl stable_sort. rewrite filter_insert_by_sorted by apply stable_sort_sorted.
  simpl. destruct (P x); simpl; rewrite IH; reflexivity.
Qed.

End OrderedSort.

(** Sorting on an integer key. *)
Section KeyedSort.

Context {A : Type}.
Variable key : A -> Z.
Variable leb : A -> A -> bool.
Hypothesis leb_key : forall a b, leb a b = (key a <=? key b).

Lemma insert_by_back (x : A) (l : list A) :
  (forall z, In z l -> key z < key x) -> insert_by leb x l = l ++ [x].
Proof.
  induction l as [|y l IH]; intros Hlt; [reflexivity|].
  simpl. rewrite leb_key.
  destruct (Z.leb_spec (key x) (key y)).
  - specialize (Hlt y (or_introl eq_refl)). lia.
  - rewrite IH; [reflexivity|]. intros z Hz. apply Hlt. right. exact Hz.
Qed.

(** Sorting and selecting a class of rows commute. *)
Lemma filter_stable_sort (P : A -> bool) (l : list A) :
  filter P (stable_sort leb l) = stable_sort leb (filter P l).
Proof.
  apply filter_stable_sort_ordered.
  - intros a b. rewrite !leb_key. destruct (Z.leb_spec (key a) (key b));
      [left; reflexivity | right; apply Z.leb_le; lia].
  - intros a b c. rewrite !leb_key, !Z.leb_le. lia.
Qed.

Lemma last_cons_nonempty (y d : A) (l : list A) :
  l <> [] -> last (y :: l) d = last l d.
Proof. destruct l; [congruence | reflexivity]. Qed.

Lemma insert_by_nonempty (x : A) (l : list A) : insert_by leb x l <> [].
Proof. destruct l as [|y l]; simpl; [|destruct (leb x y)]; discriminate. Qed.

Lemma last_insert_by_keep (x d : A) (s : list A) :
  s <> [] -> key x <= key (last s d) ->
  last (insert_by leb x s) d = last s d.
Proof.
  induction s as [|y s IH]; intros Hne Hle; [congruence|].
  simpl insert_by. rewrite leb_key.
  destruct (Z.leb_spec (key x) (key y)) as [Hxy|Hxy]; [reflexivity|].
  destruct s as [|z s].
  - simpl in Hle. lia.
  - rewrite last_cons_nonempty by apply insert_by_nonempty.
    rewrite (last_cons_nonempty y d (z :: s)) by discriminate.
    apply IH; [discriminate|].
    rewrite (last_cons_nonempty y d (z :: s)) in Hle by discriminate.
    exact Hle.
Qed.

Lemma hd_stable_sort_first_min (l : list A) (d : A) :
  l <> [] -> first_min key (hd d (stable_sort leb l)) l.
Proof.
  induction l as [|x l IH]; intros Hne; [congruence|].
  destruct l as [|y l].
  - exists [], []. simpl. repeat split; intros r [].
  - specialize (IH ltac:(discriminate)).
    simpl stable_sort in *.
    set (s := insert_by leb y (stable_sort leb l)) in *.
    destruct s as [|m s'] eqn:Hs.
    { subst s. destruct (stable_sort leb l); simpl in Hs;
        [discriminate | destruct (leb y a); discriminate]. }
    simpl in IH. destruct IH as (pre & post & Heq & Hpre & Hpost).
    simpl insert_by. rewrite leb_key.
    destruct (Z.leb_spec (key x) (key m)) as [Hxm|Hxm]; simpl.
    + exists [], (y :: l). repeat split; [intros r []|].
      intros r Hr. rewrite Heq in Hr. apply in_app_or in Hr.
      destruct Hr as [Hr|[<-|Hr]].
      * specialize (Hpre r Hr). lia.
      * exact Hxm.
      * specialize (Hpost r Hr). lia.
    + exists (x :: pre), post. repeat split.
      * simpl. rewrite Heq. reflexivity.
      * intros r [<-|Hr]; [exact Hxm | apply Hpre; exact Hr].
      * exact Hpost.
Qed.

Lemma last_stable_sort_last_max (l : list A) (d : A) :
  l <> [] -> last_max key (last (stable_sort leb l) d) l.
Proof.
  induction l as [|x l IH]; intros Hne; [congruence|].
  destruct l as [|y l].
  - exists [], []. simpl. repeat split; intros r [].
  - specialize (IH ltac:(discriminate)).
    destruct IH as (pre & post & Heq & Hpre & Hpost).
    set (l' := y :: l) in *.
    change (stable_sort leb (x :: l'))
      with (insert_by leb x (stable_sort leb l')).
    assert (Hsne : stable_sort leb l' <> []).
    { intro Hnil. assert (Hin : In y (stable_sort leb l'))
        by (apply in_stable_sort; left; reflexivity).
      rewrite Hnil in Hin. destruct Hin. }
    set (m := last (stable_sort leb l') d) in *.
    assert (Hmax : forall r, In r l' -> key r <= key m).
    { intros r Hr. rewrite Heq in Hr. apply in_app_or in Hr.
      destruct Hr as [Hr|[<-|Hr]];
        [apply Hpre; exact Hr | lia | specialize (Hpost r Hr); lia]. }
    destruct (Z.le_gt_cases (key x) (key m)) as [Hxm|Hxm].
    + rewrite last_insert_by_keep by assumption.
      fold m. exists (x :: pre), post. repeat split.
      * simpl. rewrite Heq. reflexivity.
      * intros r [<-|Hr]; [exact Hxm | apply Hpre; exact Hr].
      * exact Hpost.
    + rewrite insert_by_back.
      * rewrite last_last. exists [], l'. repeat split; [intros r []|].
        intros r Hr. specialize (Hmax r Hr). lia.
      * intros z Hz. apply in_stable_sort in Hz. specialize (Hmax z Hz). lia.
Qed.

End KeyedSort.

(** ** groupby *)

Section GroupByFacts.

Context {A K : Type} `{Key K}.
Variable key : A -> option K.

Lemma has_key_true (k : K) (r : A) :
  has_key key k r = true <-> key r = Some k.
Proof.
  unfold has_key. destruct (key r) as [k'|]; [|split; discriminate].
  destruct (key_eq_dec k' k) as [->|Hne]; split; intros Heq;
    try reflexivity; try discriminate.
  injection Heq as ->. contradiction.
Qed.

Lemma in_dedup (k : K) (l : list K) : In k (dedup l) <-> In k l.
Proof.
  induction l as [|x l IH]; simpl; [tauto|].
  destruct (in_dec key_eq_dec x l) as [Hin|Hnin]; simpl; rewrite IH.
  - split; [auto | intros [<-|Hk]; assumption].
  - tauto.
Qed.

Lemma in_present_keys (k : K) (l : list A) :
  In k (present_keys key l) <-> exists r, In r l /\ key r = Some k.
Proof.
  unfold present_keys. rewrite in_flat_map. split.
  - intros (r & Hr & Hk). exists r. split; [exact Hr|].
    destruct (key r) as [k'|]; simpl in Hk; [|contradiction].
    destruct Hk as [->|[]]. reflexivity.
  - intros (r & Hr & Hk). exists r. split; [exact Hr|].
    rewrite Hk. left. reflexivity.
Qed.

Lemma in_group_keys (k : K) (l : list A) :
  In k (group_keys key l) <-> exists r, In r l /\ key r = Some k.
Proof.
  unfold group_keys. rewrite in_stable_sort, in_dedup. apply in_present_keys.
Qed.

(** A group is the rows that carry its key, in the frame's order. *)
Lemma in_groupby (k : K) (rows : list A) (l : list A) :
  In (k, rows) (groupby key l) <->
  rows = filter (has_key key k) l /\ exists r, In r l /\ key r = Some k.
Proof.
  unfold groupby. rewrite in_map_iff. split.
  - intros (k' & Heq & Hk'). injection Heq as -> <-.
    split; [reflexivity | apply in_group_keys; exact Hk'].
  - intros (-> & Hex). exists k. split; [reflexivity|].
    apply in_group_keys. exact Hex.
Qed.

Lemma groupby_group_nonempty (k : K) (rows : list A) (l : list A) :
  In (k, rows) (groupby key l) -> rows <> [].
Proof.
  intros Hin. apply in_groupby in Hin. destruct Hin as (-> & r & Hr & Hk).
  intros Hnil.
  assert (Hf : In r (filter (has_key key k) l)).
  { apply filter_In. split; [exact Hr | apply has_key_true; exact Hk]. }
  rewrite Hnil in Hf. destruct Hf.
Qed.

End GroupByFacts.

(** ** The property groups of the sorted frame *)

Lemma string_leb_refl (s : string) : String.leb s s = true.
Proof. destruct (String.leb_total s s); assumption. Qed.

Lemma property_id_leb_same (pid : string) (x y : Row.t) :
  has_key Row.property_id pid x = true ->
  has_key Row.property_id pid y = true ->
  property_id_leb x y = true.
Proof.
  intros Hx Hy. apply has_key_true in Hx. apply has_key_true in Hy.
  unfold property_id_leb. rewrite Hx, Hy. simpl. apply string_leb_refl.
Qed.

(** The group of a property in the sorted frame is its rows of the unsorted
    frame, stably sorted by date. *)
Lemma property_group_of_sorted (df : list Row.t) (pid : string) :
  filter (has_key Row.property_id pid) (sort_df df)
  = stable_sort contract_date_leb (filter (has_key Row.property_id pid) df).
Proof.
  unfold sort_df, sort_values2.
  rewrite filter_stable_sort_class by apply property_id_leb_same.
  apply (filter_stable_sort contract_ordinal). reflexivity.
Qed.

Lemma in_sort_df (df : list Row.t) (r : Row.t) : In r (sort_df df) <-> In r df.
Proof. unfold sort_df, sort_values2. rewrite !in_stable_sort. reflexivity. Qed.

Lemma length_filter_sort_df (P : Row.t -> bool) (df : list Row.t) :
  List.length (filter P (sort_df df)) = List.length (filter P df).
Proof.
  unfold sort_df, sort_values2. rewrite !length_filter_stable_sort.
  reflexivity.
Qed.

(** ** Float comparisons *)

Lemma SFcompare_refl (x : spec_float) :
  x <> S754_nan -> SFcompare x x = Some Eq.
Proof.
  destruct x as [s|s| |s m e]; intros Hx; simpl; try congruence.
  - destruct s; reflexivity.
  - rewrite Z.compare_refl.
    change (PosDef.Pos.compare_cont Eq m m) with (Pos.compare m m).
    rewrite Pos.compare_refl. destruct s; reflexivity.
Qed.

Ltac sf_cases :=
  repeat match goal with s : bool |- _ => destruct s end;
  simpl; try discriminate; try reflexivity;
  change (PosDef.Pos.compare_cont Eq) with Pos.compare;
  repeat match goal with
         | |- context [Z.compare ?a ?b] => destruct (Z.compare_spec a b)
         | |- context [Pos.compare ?a ?b] => destruct (Pos.compare_spec a b)
         end;
  simpl; intros; try discriminate; try reflexivity; try lia.

Lemma SF_below_flagged (t u v : spec_float) :
  SFleb t v = true -> SFleb t u = false -> SFeqb u u = true ->
  SFltb u v = true.
Proof.
  unfold SFleb, SFltb, SFeqb.
  destruct t as [st|st| |st mt et], u as [su|su| |su mu eu],
           v as [sv|sv| |sv mv ev];
    simpl; try discriminate; try reflexivity; sf_cases.
Qed.

Lemma SF_below_threshold (t u : spec_float) :
  SFeqb t t = true -> SFleb t u = false -> SFeqb u u = true ->
  SFltb u t = true.
Proof.
  unfold SFleb, SFltb, SFeqb.
  destruct t as [st|st| |st mt et], u as [su|su| |su mu eu];
    simpl; try discriminate; try reflexivity; sf_cases.
Qed.

Lemma SF_ltb_leb (u v : spec_float) : SFltb u v = true -> SFleb u v = true.
Proof.
  unfold SFltb, SFleb. destruct (SFcompare u v) as [[]|];
    intros; try discriminate; reflexivity.
Qed.

Lemma is_nan_false_iff (v : float) :
  is_nan v = false <-> SFeqb (Prim2SF v) (Prim2SF v) = true.
Proof.
  unfold is_nan. rewrite FloatAxioms.eqb_spec.
  destruct (SFeqb (Prim2SF v) (Prim2SF v)); simpl; intuition congruence.
Qed.

Lemma SF_leb_true_not_nan (t v : spec_float) :
  SFleb t v = true -> SFeqb t t = true /\ SFeqb v v = true.
Proof.
  intros Hle. unfold SFeqb.
  rewrite !SFcompare_refl; [split; reflexivity | |].
  - intros ->. unfold SFleb in Hle. destruct t; discriminate.
  - intros ->. discriminate.
Qed.

(** Nothing compares with a null: [t <= v] forces both sides non-null. *)
Lemma leb_true_not_nan (t v : float) :
  PrimFloat.leb t v = true -> is_nan t = false /\ is_nan v = false.
Proof.
  rewrite FloatAxioms.leb_spec, !is_nan_false_iff. apply SF_leb_true_not_nan.
Qed.

(** ** The classifier *)

Lemma empty_dropna (col : list float) :
  empty (dropna col) = forallb is_nan col.
Proof.
  induction col as [|v col IH]; [reflexivity|].
  simpl. destruct (is_nan v); simpl; [exact IH | reflexivity].
Qed.

Lemma dropna_idempotent (col : list float) : dropna (dropna col) = dropna col.
Proof.
  unfold dropna. induction col as [|v col IH]; [reflexivity|].
  simpl. destruct (is_nan v) eqn:Hv; simpl; [exact IH|].
  rewrite Hv. simpl. rewrite IH. reflexivity.
Qed.

(** Nulls do not enter the quantile. *)
Lemma quantile_ignores_nulls (col : list float) (q : float) :
  quantile col q = quantile (dropna col) q.
Proof. unfold quantile. rewrite dropna_idempotent. reflexivity. Qed.

Lemma cagr_threshold_spec (col : list float) :
  cagr_threshold col
  = if forallb is_nan col then 0%float else quantile (dropna col) 0.9%float.
Proof.
  unfold cagr_threshold. rewrite empty_dropna, <- quantile_ignores_nulls.
  reflexivity.
Qed.

Lemma flag_of_leb (t v : float) :
  (if PrimFloat.leb t v then 1 else 0) = flag_of t v.
Proof.
  unfold flag_of. destruct (PrimFloat.leb t v) eqn:Hle.
  - destruct (leb_true_not_nan _ _ Hle) as [_ ->]. reflexivity.
  - rewrite andb_false_r. reflexivity.
Qed.

Lemma map_fst_combine_map {X Y} (h : X -> Y) (l : list X) :
  map fst (combine l (map h l)) = l.
Proof. induction l; simpl; congruence. Qed.

Lemma in_combine_map {X Y} (h : X -> Y) (l : list X) (x : X) (y : Y) :
  In (x, y) (combine l (map h l)) -> In x l /\ y = h x.
Proof.
  induction l as [|a l IH]; simpl; [tauto|].
  intros [Heq|Hin]; [injection Heq as -> ->; auto|].
  destruct (IH Hin). auto.
Qed.

Section SummaryFlags.

Variable series_mean : list num -> float.
Variable df : list Row.t.
Variable growth_df : list Stat.t.

Lemma street_summary_column :
  map StreetSummary.avg_cagr (street_summary_records series_mean df growth_df)
  = map snd (street_summary_df series_mean df growth_df).
Proof.
  unfold street_summary_records, is_top_performer.
  set (summary := street_summary_df series_mean df growth_df).
  rewrite map_map. simpl. rewrite (map_map snd).
  rewrite <- (map_map fst snd). rewrite map_fst_combine_map. reflexivity.
Qed.

Lemma suburb_summary_column :
  map SuburbSummary.avg_cagr (suburb_summary_records series_mean df growth_df)
  = map snd (suburb_summary_df series_mean df growth_df).
Proof.
  unfold suburb_summary_records, is_top_performer.
  set (summary := suburb_summary_df series_mean df growth_df).
  rewrite map_map. simpl. rewrite (map_map snd).
  rewrite <- (map_map fst snd). rewrite map_fst_combine_map. reflexivity.
Qed.

Lemma street_summary_flag (s : StreetSummary.t) :
  In s (street_summary_records series_mean df growth_df) ->
  StreetSummary.is_top_performer s
  = flag_of (cagr_threshold
               (map StreetSummary.avg_cagr
                    (street_summary_records series_mean df growth_df)))
            (StreetSummary.avg_cagr s).
Proof.
  rewrite street_summary_column.
  unfold street_summary_records, is_top_performer.
  set (summary := street_summary_df series_mean df growth_df).
  rewrite (map_map snd). intros Hin. apply in_map_iff in Hin.
  destruct Hin as ([row flag] & <- & Hin).
  apply in_combine_map in Hin. destruct Hin as [_ ->].
  simpl. apply flag_of_leb.
Qed.

Lemma suburb_summary_flag (s : SuburbSummary.t) :
  In s (suburb_summary_records series_mean df growth_df) ->
  SuburbSummary.is_top_performer s
  = flag_of (cagr_threshold
               (map SuburbSummary.avg_cagr
                    (suburb_summary_records series_mean df growth_df)))
            (SuburbSummary.avg_cagr s).
Proof.
  rewrite suburb_summary_column.
  unfold suburb_summary_records, is_top_performer.
  set (summary := suburb_summary_df series_mean df growth_df).
  rewrite (map_map snd). intros Hin. apply in_map_iff in Hin.
  destruct Hin as ([row flag] & <- & Hin).
  apply in_combine_map in Hin. destruct Hin as [_ ->].
  simpl. apply flag_of_leb.
Qed.

End SummaryFlags.

(** A flagged value is at or above the threshold, an unflagged non-null
    value strictly below it. *)
Lemma flag_of_separates (t vi vj : float) :
  flag_of t vi = 1 -> flag_of t vj = 0 -> is_nan vj = false ->
  PrimFloat.leb t vi = true
  /\ PrimFloat.ltb vj t = true
  /\ PrimFloat.ltb vj vi = true
  /\ PrimFloat.leb vj vi = true.
Proof.
  unfold flag_of. intros Hi Hj Hnan. rewrite Hnan in Hj. simpl in Hj.
  destruct (PrimFloat.leb t vj) eqn:Htj; [discriminate|].
  destruct (PrimFloat.leb t vi) eqn:Hti;
    [|rewrite andb_false_r in Hi; discriminate].
  destruct (leb_true_not_nan _ _ Hti) as [Ht _].
  rewrite FloatAxioms.leb_spec in Hti, Htj.
  rewrite is_nan_false_iff in Hnan, Ht.
  assert (Hlt : SFltb (Prim2SF vj) (Prim2SF vi) = true)
    by (eapply SF_below_flagged; eassumption).
  rewrite !FloatAxioms.ltb_spec, FloatAxioms.leb_spec.
  repeat split; try assumption.
  - apply SF_below_threshold; assumption.
  - apply SF_ltb_leb. exact Hlt.
Qed.

(** C3. In the street summary and, independently, in the suburb summary,
    the threshold is the 0.9-quantile of the non-null averages of that
    table, 0 when every average is null, and a row's flag is 1 exactly when
    its average is non-null and at or above the threshold, 0 otherwise. *)
Theorem top_performer_threshold_and_flag :
  forall (series_mean : list num -> float) (df : list Row.t)
         (growth_df : list Stat.t),
    let streets := street_summary_records series_mean df growth_df in
    let suburbs := suburb_summary_records series_mean df growth_df in
    let street_col := map StreetSummary.avg_cagr streets in
    let suburb_col := map SuburbSummary.avg_cagr suburbs in
    cagr_threshold street_col
    = (if forallb is_nan street_col then 0%float
       else quantile (dropna street_col) 0.9%float)
    /\ cagr_threshold suburb_col
       = (if forallb is_nan suburb_col then 0%float
          else quantile (dropna suburb_col) 0.9%float)
    /\ (forall s, In s streets ->
          StreetSummary.is_top_performer s
          = (if (negb (is_nan (StreetSummary.avg_cagr s))
                 && PrimFloat.leb (cagr_threshold street_col)
                                  (StreetSummary.avg_cagr s))%bool
             then 1 else 0))
    /\ (forall s, In s suburbs ->
          SuburbSummary.is_top_performer s
          = (if (negb (is_nan (SuburbSummary.avg_cagr s))
                 && PrimFloat.leb (cagr_threshold suburb_col)
                                  (SuburbSummary.avg_cagr s))%bool
             then 1 else 0)).
Proof.
  intros series_mean df growth_df streets suburbs street_col suburb_col.
  split; [apply cagr_threshold_spec|].
  split; [apply cagr_threshold_spec|].
  split; intros s Hs.
  - apply (street_summary_flag series_mean df growth_df s Hs).
  - apply (suburb_summary_flag series_mean df growth_df s Hs).
Qed.

(** Witness for C3: in the sample street summary the row averaging 0.2 is
    non-null and at or above the threshold, and carries the flag. *)
Lemma top_performer_flag_on_sample :
  let streets :=
    street_summary_records Examples.plain_mean Examples.frame_sample
                           Examples.growth_sample in
  exists s,
    In s streets
    /\ StreetSummary.street_name s = "Low St"%string
    /\ StreetSummary.is_top_performer s = 1
    /\ StreetSummary.is_top_performer s
       = (if (negb (is_nan (StreetSummary.avg_cagr s))
              && PrimFloat.leb
                   (cagr_threshold (map StreetSummary.avg_cagr streets))
                   (StreetSummary.avg_cagr s))%bool
          then 1 else 0).
Proof.
  intros streets.
  destruct (nth_error streets 1) as [s|] eqn:E; [|vm_compute in E; discriminate].
  exists s.
  assert (Hin : In s streets) by exact (nth_error_In _ _ E).
  split; [exact Hin|].
  split; [vm_compute in E; injection E as <-; reflexivity|].
  split; [vm_compute in E; injection E as <-; reflexivity|].
  exact (proj1 (proj2 (proj2 (top_performer_threshold_and_flag
                                Examples.plain_mean Examples.frame_sample
                                Examples.growth_sample)))
               s Hin).
Defined.

(** Counterexample to C4: a summary with a single non-null average has
    that average as its 0.9-quantile, so its only row is flagged. *)
Lemma single_row_summary_fully_flagged :
  is_top_performer [0.05%float] = [1]
  /\ ~ flagged_share_at_most_tenth (is_top_performer [0.05%float]).
Proof.
  split; [reflexivity|].
  intros Hshare. vm_compute in Hshare. apply Hshare. reflexivity.
Qed.

(** C4, amended. In the street summary and in the suburb summary, a flagged
    row's average is strictly above (so at or above) the non-null average of
    every unflagged row: the threshold separates them, with no tolerance. *)
Theorem flagged_rows_above_unflagged_rows :
  forall (series_mean : list num -> float) (df : list Row.t)
         (growth_df : list Stat.t),
    (forall s1 s2,
        In s1 (street_summary_records series_mean df growth_df) ->
        In s2 (street_summary_records series_mean df growth_df) ->
        StreetSummary.is_top_performer s1 = 1 ->
        StreetSummary.is_top_performer s2 = 0 ->
        is_nan (StreetSummary.avg_cagr s2) = false ->
        PrimFloat.ltb (StreetSummary.avg_cagr s2) (StreetSummary.avg_cagr s1)
        = true
        /\ PrimFloat.leb (StreetSummary.avg_cagr s2) (StreetSummary.avg_cagr s1)
           = true)
    /\ (forall s1 s2,
          In s1 (suburb_summary_records series_mean df growth_df) ->
          In s2 (suburb_summary_records series_mean df growth_df) ->
          SuburbSummary.is_top_performer s1 = 1 ->
          SuburbSummary.is_top_performer s2 = 0 ->
          is_nan (SuburbSummary.avg_cagr s2) = false ->
          PrimFloat.ltb (SuburbSummary.avg_cagr s2) (SuburbSummary.avg_cagr s1)
          = true
          /\ PrimFloat.leb (SuburbSummary.avg_cagr s2)
                           (SuburbSummary.avg_cagr s1) = true).
Proof.
  intros series_mean df growth_df. split; intros s1 s2 H1 H2 F1 F2 Hnan.
  - rewrite (street_summary_flag _ _ _ _ H1) in F1.
    rewrite (street_summary_flag _ _ _ _ H2) in F2.
    destruct (flag_of_separates _ _ _ F1 F2 Hnan) as (_ & _ & Hlt & Hle).
    split; assumption.
  - rewrite (suburb_summary_flag _ _ _ _ H1) in F1.
    rewrite (suburb_summary_flag _ _ _ _ H2) in F2.
    destruct (flag_of_separates _ _ _ F1 F2 Hnan) as (_ & _ & Hlt & Hle).
    split; assumption.
Qed.

(** Witness for C4: of two streets, the one averaging 0.2 is flagged and
    the one averaging 0.075 is not. *)
Lemma flagged_street_above_unflagged_street :
  let streets :=
    street_summary_records Examples.plain_mean Examples.frame_sample
                           Examples.growth_sample in
  exists s1 s2,
    nth_error streets 1 = Some s1 /\ nth_error streets 0 = Some s2
    /\ StreetSummary.is_top_performer s1 = 1
    /\ StreetSummary.is_top_performer s2 = 0
    /\ PrimFloat.ltb (StreetSummary.avg_cagr s2) (StreetSummary.avg_cagr s1)
       = true
    /\ PrimFloat.leb (StreetSummary.avg_cagr s2) (StreetSummary.avg_cagr s1)
       = true.
Proof.
  intros streets.
  destruct (nth_error streets 1) as [s1|] eqn:E1; [|vm_compute in E1; discriminate].
  destruct (nth_error streets 0) as [s2|] eqn:E2; [|vm_compute in E2; discriminate].
  exists s1, s2.
  assert (F1 : StreetSummary.is_top_performer s1 = 1)
    by (vm_compute in E1; injection E1 as <-; reflexivity).
  assert (F2 : StreetSummary.is_top_performer s2 = 0)
    by (vm_compute in E2; injection E2 as <-; reflexivity).
  assert (Hnan : is_nan (StreetSummary.avg_cagr s2) = false)
    by (vm_compute in E2; injection E2 as <-; reflexivity).
  repeat (split; [first [reflexivity | assumption]|]).
  exact (proj1 (flagged_rows_above_unflagged_rows
                  Examples.plain_mean Examples.frame_sample
                  Examples.growth_sample)
               s1 s2 (nth_error_In _ _ E1) (nth_error_In _ _ E2) F1 F2 Hnan).
Defined.

(** ** [calculate_cagr] on a zero first price *)

(** C10. With a first price of zero, [calculate_cagr] raises
    [ZeroDivisionError] whatever the other arguments: the total-growth
    division raises in either branch, and in the long-holding branch it does
    so after the handler has already replaced the failed rate by 0.0. *)
Theorem zero_first_price_raises_zero_division :
  forall (libm_pow : float -> float -> float)
         (libm_cpow : float -> float -> float * float)
         (first_price last_price years : float),
    PrimFloat.eqb first_price 0%float = true ->
    Cagr.total_growth_expression first_price last_price
    = Raise ZeroDivisionError
    /\ try_except
         (Cagr.cagr_expression libm_pow libm_cpow first_price last_price years)
         Cagr.caught_by_cagr_handler (fun _ => Ok (Flt 0%float))
       = Ok (Flt 0%float)
    /\ Cagr.calculate_cagr libm_pow libm_cpow first_price last_price years
       = Raise ZeroDivisionError.
Proof.
  intros libm_pow libm_cpow first_price last_price years Hzero.
  assert (Htg : Cagr.total_growth_expression first_price last_price
                = Raise ZeroDivisionError).
  { unfold Cagr.total_growth_expression, float_div. rewrite Hzero. reflexivity. }
  assert (Hguard :
            try_except
              (Cagr.cagr_expression libm_pow libm_cpow first_price last_price years)
              Cagr.caught_by_cagr_handler (fun _ => Ok (Flt 0%float))
            = Ok (Flt 0%float)).
  { unfold Cagr.cagr_expression, float_div. rewrite Hzero. reflexivity. }
  repeat split; try assumption.
  unfold Cagr.calculate_cagr.
  destruct (PrimFloat.ltb years 0.5%float).
  - rewrite Htg. reflexivity.
  - rewrite Hguard, Htg. reflexivity.
Qed.

(** Witness for C10: a first price of 0 held for one year, and for a
    tenth of a year. *)
Lemma zero_first_price_raises_on_samples :
  PrimFloat.eqb 0%float 0%float = true
  /\ Cagr.calculate_cagr Examples.libm_pow Examples.libm_cpow
                         0%float 200%float 1%float
     = Raise ZeroDivisionError
  /\ Cagr.calculate_cagr Examples.libm_pow Examples.libm_cpow
                         0%float 200%float 0.1%float
     = Raise ZeroDivisionError.
Proof.
  split; [reflexivity|]. split.
  - exact (proj2 (proj2 (zero_first_price_raises_zero_division
                           Examples.libm_pow Examples.libm_cpow
                           0%float 200%float 1%float eq_refl))).
  - exact (proj2 (proj2 (zero_first_price_raises_zero_division
                           Examples.libm_pow Examples.libm_cpow
                           0%float 200%float 0.1%float eq_refl))).
Defined.

(** The cases of [tests/test_analytics.py], on the embedding. The two that
    reach the platform's [pow] state what it returns there. *)
Lemma test_calculate_cagr_less_than_six_months :
  forall libm_pow libm_cpow,
    Cagr.calculate_cagr libm_pow libm_cpow 100%float 200%float 0.4%float
    = Ok (Flt 0%float, 1%float).
Proof. intros. reflexivity. Qed.

Lemma test_calculate_cagr_zero_years :
  forall libm_pow libm_cpow,
    Cagr.calculate_cagr libm_pow libm_cpow 100%float 200%float 0%float
    = Ok (Flt 0%float, 1%float).
Proof. intros. reflexivity. Qed.

Lemma test_calculate_cagr_holding_one_year :
  forall libm_pow libm_cpow,
    libm_pow 2%float 1%float = 2%float ->
    Cagr.calculate_cagr libm_pow libm_cpow 100%float 200%float 1%float
    = Ok (Flt 1%float, 1%float).
Proof.
  intros libm_pow libm_cpow Hpow.
  unfold Cagr.calculate_cagr, Cagr.cagr_expression.
  change (PrimFloat.ltb 1%float 0.5%float) with false. cbv iota.
  change (float_div 200%float 100%float) with (Ok 2%float).
  change (float_div 1%float 1%float) with (Ok 1%float).
  unfold bind at 2 3.
  change (float_pow libm_pow libm_cpow 2%float 1%float)
    with (let ix := libm_pow 2%float 1%float in
          if is_inf ix then @Raise num OverflowError else Ok (Flt ix)).
  rewrite Hpow. reflexivity.
Qed.

Lemma test_calculate_cagr_loss :
  forall libm_pow libm_cpow,
    libm_pow 0.5%float 1%float = 0.5%float ->
    Cagr.calculate_cagr libm_pow libm_cpow 100%float 50%float 1%float
    = Ok (Flt (-0.5)%float, (-0.5)%float).
Proof.
  intros libm_pow libm_cpow Hpow.
  unfold Cagr.calculate_cagr, Cagr.cagr_expression.
  change (PrimFloat.ltb 1%float 0.5%float) with false. cbv iota.
  change (float_div 50%float 100%float) with (Ok 0.5%float).
  change (float_div 1%float 1%float) with (Ok 1%float).
  unfold bind at 2 3.
  change (float_pow libm_pow libm_cpow 0.5%float 1%float)
    with (let ix := libm_pow 0.5%float 1%float in
          if is_inf ix then @Raise num OverflowError else Ok (Flt ix)).
  rewrite Hpow. reflexivity.
Qed.

(** The guarded expression raises nothing but the two exceptions the
    handler names. *)
Lemma float_pow_exn :
  forall libm_pow libm_cpow iv iw e,
    float_pow libm_pow libm_cpow iv iw = Raise e ->
    Cagr.caught_by_cagr_handler e = true.
Proof.
  intros libm_pow libm_cpow iv iw e. unfold float_pow, complex_pow.
  destruct (libm_cpow iv iw) as [re im].
  repeat match goal with
         | |- context [if ?b then _ else _] => destruct b
         end;
    intros Heq; try discriminate; injection Heq as <-; reflexivity.
Qed.

Lemma cagr_expression_exn :
  forall libm_pow libm_cpow first_price last_price years e,
    Cagr.cagr_expression libm_pow libm_cpow first_price last_price years
    = Raise e ->
    Cagr.caught_by_cagr_handler e = true.
Proof.
  intros libm_pow libm_cpow first_price last_price years e.
  unfold Cagr.cagr_expression, float_div.
  destruct (PrimFloat.eqb first_price 0%float);
    [intros Heq; injection Heq as <-; reflexivity|].
  destruct (PrimFloat.eqb years 0%float);
    [intros Heq; injection Heq as <-; reflexivity|].
  cbv beta iota delta [bind].
  destruct (float_pow libm_pow libm_cpow (last_price / first_price)
                      (1 / years)) as [p|e'] eqn:Hpow;
    [discriminate|].
  intros Heq. injection Heq as <-. exact (float_pow_exn _ _ _ _ _ Hpow).
Qed.

(** Where the fallback does work: with a non-zero first price, any
    exception of the guarded expression is replaced by a rate of 0.0 and
    the total growth is returned. *)
Lemma raised_rate_is_replaced :
  forall libm_pow libm_cpow first_price last_price years e,
    PrimFloat.eqb first_price 0%float = false ->
    PrimFloat.ltb years 0.5%float = false ->
    Cagr.cagr_expression libm_pow libm_cpow first_price last_price years
    = Raise e ->
    Cagr.calculate_cagr libm_pow libm_cpow first_price last_price years
    = Ok (Flt 0%float, ((last_price - first_price) / first_price)%float).
Proof.
  intros libm_pow libm_cpow first_price last_price years e Hfirst Hyears Hraise.
  unfold Cagr.calculate_cagr, Cagr.total_growth_expression, float_div.
  rewrite Hyears, Hfirst. unfold try_except.
  rewrite Hraise, (cagr_expression_exn _ _ _ _ _ _ Hraise). reflexivity.
Qed.

(** C5, at the failing inputs. Held for one year from a first price of 0,
    the guarded rate expression raises [ZeroDivisionError] and the call
    raises it too instead of returning a rate of 0.0. Held for a year and a
    half with prices 100 and -100, the base is negative and the exponent
    fractional: no exception is raised, the handler does not run, and unless
    the complex power overflows the rate returned is complex, not 0.0. *)
Theorem cagr_fallback_misses_domain_errors :
  forall (libm_pow : float -> float -> float)
         (libm_cpow : float -> float -> float * float),
    Cagr.cagr_expression libm_pow libm_cpow 0%float 200%float 1%float
    = Raise ZeroDivisionError
    /\ Cagr.calculate_cagr libm_pow libm_cpow 0%float 200%float 1%float
       = Raise ZeroDivisionError
    /\ Cagr.calculate_cagr libm_pow libm_cpow 100%float (-100)%float 1.5%float
       = (let '(re, im) := libm_cpow (-1)%float (1 / 1.5)%float in
          if (is_inf re || is_inf im)%bool
          then Ok (Flt 0%float, (-2)%float)
          else Ok (Cplx (re - 1)%float im, (-2)%float)).
Proof.
  intros libm_pow libm_cpow.
  split; [reflexivity|]. split; [reflexivity|].
  unfold Cagr.calculate_cagr, Cagr.cagr_expression,
    Cagr.total_growth_expression.
  change (PrimFloat.ltb 1.5%float 0.5%float) with false. cbv iota.
  change (float_div (-100)%float 100%float) with (Ok (-1)%float).
  change (float_div 1%float 1.5%float) with (Ok (1 / 1.5)%float).
  change (float_div (-100 - 100)%float 100%float) with (Ok (-2)%float).
  unfold bind at 1 2 3.
  change (float_pow libm_pow libm_cpow (-1)%float (1 / 1.5)%float)
    with (complex_pow libm_cpow (-1)%float (1 / 1.5)%float).
  unfold complex_pow.
  destruct (libm_cpow (-1)%float (1 / 1.5)%float) as [re im].
  destruct (is_inf re || is_inf im)%bool; reflexivity.
Qed.

(** ** The yearly window *)

Lemma in_range (lo hi y : Z) : In y (range lo hi) <-> lo <= y < hi.
Proof.
  unfold range. rewrite in_map_iff. split.
  - intros (i & <- & Hi). apply in_seq in Hi. lia.
  - intros Hy. exists (Z.to_nat (y - lo)). split; [lia|].
    apply in_seq. lia.
Qed.

Section PerYear.

Variable series_mean : list num -> float.

Lemma street_stats_year (year : Z) (l : list Stat.t) (r : StreetGrowth.t) :
  In r (street_stats series_mean year l) -> StreetGrowth.year r = year.
Proof.
  unfold street_stats. rewrite in_map_iff. intros (g & <- & _). reflexivity.
Qed.

Lemma suburb_stats_year (year : Z) (l : list Stat.t) (r : SuburbGrowth.t) :
  In r (suburb_stats series_mean year l) -> SuburbGrowth.year r = year.
Proof.
  unfold suburb_stats. rewrite in_map_iff. intros (g & <- & _). reflexivity.
Qed.

(** Every record the loop emits is dated with a year the loop visited. *)
Lemma per_year_years (years : list Z) (growth_df : list Stat.t) :
  (forall r, In r (fst (per_year series_mean years growth_df)) ->
             In (StreetGrowth.year r) years)
  /\ (forall r, In r (snd (per_year series_mean years growth_df)) ->
                In (SuburbGrowth.year r) years).
Proof.
  unfold per_year.
  set (step := fun (acc : list StreetGrowth.t * list SuburbGrowth.t) year =>
                 let year_active_df := year_active growth_df year in
                 if empty year_active_df then acc
                 else (fst acc ++ street_stats series_mean year year_active_df,
                       snd acc ++ suburb_stats series_mean year year_active_df)).
  assert (Hgen : forall ys acc,
             (forall r, In r (fst (fold_left step ys acc)) ->
                        In r (fst acc) \/ In (StreetGrowth.year r) ys)
             /\ (forall r, In r (snd (fold_left step ys acc)) ->
                           In r (snd acc) \/ In (SuburbGrowth.year r) ys)).
  { induction ys as [|y ys IH]; intros acc; simpl; [tauto|].
    destruct (IH (step acc y)) as [IHs IHb]. split; intros r Hr.
    - destruct (IHs r Hr) as [Hacc|Hys]; [|tauto].
      unfold step in Hacc.
      destruct (empty (year_active growth_df y)); [tauto|].
      simpl in Hacc. apply in_app_or in Hacc. destruct Hacc as [Hacc|Hnew];
        [tauto|]. apply street_stats_year in Hnew. auto.
    - destruct (IHb r Hr) as [Hacc|Hys]; [|tauto].
      unfold step in Hacc.
      destruct (empty (year_active growth_df y)); [tauto|].
      simpl in Hacc. apply in_app_or in Hacc. destruct Hacc as [Hacc|Hnew];
        [tauto|]. apply suburb_stats_year in Hnew. auto. }
  destruct (Hgen years ([], [])) as [Hs Hb].
  split; intros r Hr; [destruct (Hs r Hr) | destruct (Hb r Hr)];
    simpl in *; tauto.
Qed.

End PerYear.

(** C2, at the failing input. The years visited are exactly 2001..2025,
    whatever the date of the run. A property last sold in 2026 is eligible
    for the year 2026, yet neither the street nor the suburb records hold a
    row of that year. *)
Theorem yearly_aggregates_stop_at_2025 :
  forall (series_mean : list num -> float),
    (forall y, In y years_range <-> 2001 <= y <= 2025)
    /\ year_active Examples.growth_2026 2026 = Examples.growth_2026
    /\ ~ In 2026 (map StreetGrowth.year
                      (fst (per_year series_mean years_range
                                     Examples.growth_2026)))
    /\ ~ In 2026 (map SuburbGrowth.year
                      (snd (per_year series_mean years_range
                                     Examples.growth_2026))).
Proof.
  intros series_mean.
  assert (Hrange : forall y, In y years_range <-> 2001 <= y <= 2025).
  { intros y. unfold years_range. rewrite in_range. lia. }
  destruct (per_year_years series_mean years_range Examples.growth_2026)
    as [Hs Hb].
  split; [exact Hrange|]. split; [reflexivity|].
  split; intros Hin; apply in_map_iff in Hin; destruct Hin as (r & Hy & Hr).
  - specialize (Hs r Hr). rewrite Hy in Hs. apply Hrange in Hs. lia.
  - specialize (Hb r Hr). rewrite Hy in Hb. apply Hrange in Hb. lia.
Qed.

Lemma groupby_incl {A K} `{Key K} (key : A -> option K) (l' l : list A)
      (k : K) (rows' : list A) :
  incl l' l ->
  In (k, rows') (groupby key l') ->
  exists rows, In (k, rows) (groupby key l) /\ incl rows' rows.
Proof.
  intros Hincl Hin. apply in_groupby in Hin.
  destruct Hin as (-> & r & Hr & Hk).
  exists (filter (has_key key k) l). split.
  - apply in_groupby. split; [reflexivity|].
    exists r. split; [apply Hincl; exact Hr | exact Hk].
  - intros x Hx. apply filter_In in Hx. destruct Hx as [Hx Hkx].
    apply filter_In. split; [apply Hincl; exact Hx | exact Hkx].
Qed.

Lemma in_year_active (growth_df : list Stat.t) (Y : Z) (p : Stat.t) :
  In p (year_active growth_df Y) <->
  In p growth_df /\ Y <= Stat.last_sale_year p.
Proof.
  unfold year_active. rewrite filter_In, Z.leb_le. reflexivity.
Qed.

Lemma year_active_shrinks (growth_df : list Stat.t) (Y : Z) :
  incl (year_active growth_df (Y + 1)) (year_active growth_df Y).
Proof.
  intros p Hp. apply in_year_active in Hp. apply in_year_active.
  destruct Hp as [Hin Hle]. split; [exact Hin | lia].
Qed.

(** ** The rebuild, stage by stage *)

Lemma chunk_size_pos : (0 < chunk_size)%nat.
Proof. unfold chunk_size. lia. Qed.

Lemma concat_chunks_fuel {A} (n fuel : nat) (l : list A) :
  (0 < n)%nat -> (List.length l <= fuel)%nat ->
  List.concat (chunks_fuel fuel n l) = l.
Proof.
  intros Hn. revert l. induction fuel as [|fuel IH]; intros l Hlen.
  - destruct l; [reflexivity | simpl in Hlen; lia].
  - destruct l as [|x l]; [reflexivity|].
    change (chunks_fuel (S fuel) n (x :: l))
      with (firstn n (x :: l) :: chunks_fuel fuel n (skipn n (x :: l))).
    simpl List.concat. rewrite IH.
    + apply firstn_skipn.
    + rewrite length_skipn.
      change (List.length (x :: l)) with (S (List.length l)) in *. lia.
Qed.

Lemma fold_left_app_concat {A} (cs : list (list A)) (acc : list A) :
  fold_left (fun table chunk => table ++ chunk) cs acc = acc ++ List.concat cs.
Proof.
  revert acc. induction cs as [|c cs IH]; intros acc; simpl.
  - rewrite app_nil_r. reflexivity.
  - rewrite IH, app_assoc. reflexivity.
Qed.

(** Chunked insertion stores the records, all of them, in order. *)
Lemma bulk_insert_chunked_all {A} (n : nat) (records : list A) :
  (0 < n)%nat -> bulk_insert_chunked n records = records.
Proof.
  intros Hn. unfold bulk_insert_chunked, chunks.
  rewrite fold_left_app_concat. simpl.
  apply concat_chunks_fuel; [exact Hn | lia].
Qed.

Lemma Ok_inj {A} (a b : A) : Ok a = Ok b -> a = b.
Proof. intros Heq. injection Heq as ->. reflexivity. Qed.

Lemma empty_true {A} (l : list A) : empty l = true <-> l = [].
Proof. destruct l; simpl; split; congruence. Qed.

(** The insert stores what it is given, or fails. *)
Lemma bulk_insert_mappings_ok (records rows : list (list (string * value))) :
  bulk_insert_mappings records = Ok rows -> rows = records.
Proof.
  unfold bulk_insert_mappings.
  destruct (forallb _ records); [|discriminate].
  intros Heq. apply Ok_inj in Heq. congruence.
Qed.

(** It fails exactly on a complex rate, the only value of a record that
    cannot be bound. *)
Lemma bulk_insert_mappings_stats (property_stats : list Stat.t) :
  bulk_insert_mappings (db_property_records property_stats)
  = if existsb complex_rate property_stats then Raise StatementError
    else Ok (db_property_records property_stats).
Proof.
  unfold bulk_insert_mappings.
  assert (Hall : forallb (fun rec => forallb (fun kv => bindable (snd kv)) rec)
                         (db_property_records property_stats)
                 = negb (existsb complex_rate property_stats)).
  { change (db_property_records property_stats)
      with (map persisted_fields property_stats).
    induction property_stats as [|p stats IH]; [reflexivity|].
    cbn [map forallb existsb]. rewrite IH, negb_orb. f_equal.
    unfold persisted_fields, complex_rate.
    destruct (Stat.cagr p); reflexivity. }
  rewrite Hall. destruct (existsb complex_rate property_stats); reflexivity.
Qed.

Section RebuildFacts.

Variable libm_pow : float -> float -> float.
Variable libm_cpow : float -> float -> float * float.
Variable series_mean : list num -> float.

Let derive := derive_property_stats libm_pow libm_cpow.
Let rebuild := calculate_growth_metrics libm_pow libm_cpow series_mean.

(** What a completed run over a non-empty sale table leaves behind. *)
Lemma rebuild_completed (db db' : Store) :
  sales db <> [] ->
  rebuild db = Ok db' ->
  exists property_stats,
    derive (sort_df (prepare (sales db))) = Ok property_stats
    /\ sales db' = sales db
    /\ property_growth db' = db_property_records property_stats
    /\ (property_stats = [] ->
        street_growth db' = street_growth db
        /\ suburb_growth db' = suburb_growth db
        /\ street_summary db' = street_summary db
        /\ suburb_summary db' = suburb_summary db)
    /\ (property_stats <> [] ->
        street_growth db'
        = fst (per_year series_mean years_range property_stats)
        /\ suburb_growth db'
           = snd (per_year series_mean years_range property_stats)
        /\ street_summary db'
           = street_summary_records series_mean
               (sort_df (prepare (sales db))) property_stats
        /\ suburb_summary db'
           = suburb_summary_records series_mean
               (sort_df (prepare (sales db))) property_stats).
Proof.
  intros Hsales. unfold rebuild, calculate_growth_metrics.
  destruct (empty (sales db)) eqn:Hempty;
    [apply empty_true in Hempty; contradiction|].
  fold derive.
  destruct (derive (sort_df (prepare (sales db)))) as [stats|e] eqn:Hderive;
    cbv beta iota delta [bind]; [|discriminate].
  destruct (empty stats) eqn:Hstats;
    [|destruct (bulk_insert_mappings (db_property_records stats))
        as [rows|e] eqn:Hinsert; [|discriminate];
      apply bulk_insert_mappings_ok in Hinsert; subst rows];
    intros Hrun; apply Ok_inj in Hrun;
    subst db'; exists stats;
    cbn [sales property_growth street_growth suburb_growth
         street_summary suburb_summary].
  - apply empty_true in Hstats. subst stats.
    split; [reflexivity|]. split; [reflexivity|]. split; [reflexivity|].
    split; [intros _; repeat split | intros Hne; contradiction].
  - assert (Hne : stats <> []) by (intros ->; discriminate).
    rewrite !bulk_insert_chunked_all by apply chunk_size_pos.
    split; [reflexivity|]. split; [reflexivity|]. split; [reflexivity|].
    split; [intros Hnil; contradiction | intros _; repeat split].
Qed.

(** The four ways a run can go. *)
Lemma rebuild_cases (db : Store) :
  (sales db = [] /\ rebuild db = Ok db)
  \/ (sales db <> []
      /\ exists e, derive (sort_df (prepare (sales db))) = Raise e
                   /\ rebuild db = Raise e)
  \/ (sales db <> []
      /\ exists property_stats,
          derive (sort_df (prepare (sales db))) = Ok property_stats
          /\ existsb complex_rate property_stats = true
          /\ rebuild db = Raise StatementError)
  \/ (sales db <> []
      /\ exists property_stats db',
          derive (sort_df (prepare (sales db))) = Ok property_stats
          /\ existsb complex_rate property_stats = false
          /\ rebuild db = Ok db').
Proof.
  unfold rebuild, calculate_growth_metrics.
  destruct (empty (sales db)) eqn:Hempty;
    [left; apply empty_true in Hempty; split; [exact Hempty | reflexivity]|].
  assert (Hsales : sales db <> [])
    by (intros Hnil; rewrite Hnil in Hempty; discriminate).
  right. fold derive.
  destruct (derive (sort_df (prepare (sales db)))) as [stats|e] eqn:Hderive;
    cbv beta iota delta [bind];
    [|left; split; [exact Hsales | exists e; split; reflexivity]].
  right. destruct (empty stats) eqn:Hstats.
  - right. split; [exact Hsales|]. apply empty_true in Hstats. subst stats.
    eexists. eexists. split; [reflexivity|]. split; reflexivity.
  - rewrite bulk_insert_mappings_stats.
    destruct (existsb complex_rate stats) eqn:Hcomplex.
    + left. split; [exact Hsales|]. exists stats.
      split; [reflexivity|]. split; [exact Hcomplex | reflexivity].
    + right. split; [exact Hsales|]. eexists. eexists.
      split; [reflexivity|]. split; [exact Hcomplex | reflexivity].
Qed.

(** A run that returns has bound every rate: none is complex. *)
Lemma rebuild_bindable (db db' : Store) (property_stats : list Stat.t) :
  sales db <> [] ->
  rebuild db = Ok db' ->
  derive (sort_df (prepare (sales db))) = Ok property_stats ->
  existsb complex_rate property_stats = false.
Proof.
  intros Hsales Hrun Hderive.
  destruct (rebuild_cases db)
    as [[Hnil _]|[(_ & e & He & _)|[(_ & stats & _ & _ & Hr)
                                   |(_ & stats & db'' & Hd & Hc & _)]]].
  - contradiction.
  - rewrite Hderive in He. discriminate.
  - rewrite Hrun in Hr. discriminate.
  - rewrite Hderive in Hd. apply Ok_inj in Hd. subst stats. exact Hc.
Qed.

(** What [property_row] puts into the record of a group it keeps. *)
Lemma property_row_some (pid : string) (group : list Row.t) (p : Stat.t) :
  property_row libm_pow libm_cpow pid group = Ok (Some p) ->
  Stat.property_id p = pid
  /\ (2 <= List.length group)%nat
  /\ exists first_sale rest,
      group = first_sale :: rest
      /\ Stat.first_sale_price p = Row.purchase_price first_sale
      /\ Stat.last_sale_price p = Row.purchase_price (last group first_sale)
      /\ Stat.last_sale_year p = Row.sale_year (last group first_sale)
      /\ Stat.property_street_name p = Row.property_street_name first_sale
      /\ Stat.property_locality p = Row.property_locality first_sale
      /\ Stat.property_post_code p
         = match Row.property_post_code first_sale with
           | Some c => c
           | None => 0
           end.
Proof.
  unfold property_row. destruct group as [|first_sale rest]; [discriminate|].
  destruct (List.length (first_sale :: rest) <? 2)%nat eqn:Hlen;
    [discriminate|].
  apply Nat.ltb_ge in Hlen.
  destruct (Cagr.calculate_cagr _ _ _ _ _) as [ct|e]; simpl; [|discriminate].
  intros Heq. injection Heq as <-. simpl.
  split; [reflexivity|]. split; [exact Hlen|].
  exists first_sale, rest. repeat split; reflexivity.
Qed.

Lemma property_loop_in (groups : list (string * list Row.t))
      (property_stats : list Stat.t) (p : Stat.t) :
  property_loop libm_pow libm_cpow groups = Ok property_stats ->
  In p property_stats ->
  exists pid group,
    In (pid, group) groups
    /\ property_row libm_pow libm_cpow pid group = Ok (Some p).
Proof.
  revert property_stats. induction groups as [|[pid group] groups IH];
    intros stats Hloop Hin; simpl in Hloop.
  - injection Hloop as <-. destruct Hin.
  - destruct (property_row libm_pow libm_cpow pid group) as [r|e] eqn:Hrow;
      simpl in Hloop; [|discriminate].
    destruct (property_loop libm_pow libm_cpow groups) as [rs|e] eqn:Hrest;
      simpl in Hloop; [|discriminate].
    injection Hloop as <-.
    assert (Hcase : (exists q, r = Some q /\ p = q) \/ In p rs).
    { destruct r as [q|]; [destruct Hin as [<-|Hin]|]; eauto. }
    destruct Hcase as [(q & -> & ->)|Hrs].
    + exists pid, group. split; [left; reflexivity | exact Hrow].
    + destruct (IH rs eq_refl Hrs) as (pid' & group' & Hg & Hr).
      exists pid', group'. split; [right; exact Hg | exact Hr].
Qed.

(** A derived property has at least two rows in the prepared frame. *)
Lemma derived_property_has_two_rows (df : list Row.t)
      (property_stats : list Stat.t) (p : Stat.t) :
  derive (sort_df df) = Ok property_stats ->
  In p property_stats ->
  (2 <= List.length
          (filter (has_key Row.property_id (Stat.property_id p)) df))%nat.
Proof.
  intros Hderive Hin.
  destruct (property_loop_in _ _ _ Hderive Hin) as (pid & group & Hg & Hrow).
  apply property_row_some in Hrow. destruct Hrow as (-> & Hlen & _).
  apply in_groupby in Hg. destruct Hg as [-> _].
  unfold sort_df, sort_values2 in Hlen.
  rewrite !length_filter_stable_sort in Hlen. exact Hlen.
Qed.

End RebuildFacts.

(** ** The first and the last sale of a property *)

(** C7. Within each property group of the sorted frame, the first row is
    the earliest sale and, among sales of that earliest date, the one that
    came first in the input; the last row is the latest sale and, among
    sales of that latest date, the one that came last in the input. Both are
    fixed by the dates and the input order alone, and they are the rows the
    derived record takes its first and last price and its last sale year
    from. *)
Theorem first_and_last_sale_by_date_then_input_order :
  forall (df : list Row.t) (pid : string) (group : list Row.t),
    In (pid, group) (groupby Row.property_id (sort_df df)) ->
    exists first_sale rest,
      group = first_sale :: rest
      /\ first_min contract_ordinal first_sale
                   (filter (has_key Row.property_id pid) df)
      /\ last_max contract_ordinal (last group first_sale)
                  (filter (has_key Row.property_id pid) df)
      /\ forall libm_pow libm_cpow p,
          property_row libm_pow libm_cpow pid group = Ok (Some p) ->
          Stat.first_sale_price p = Row.purchase_price first_sale
          /\ Stat.last_sale_price p
             = Row.purchase_price (last group first_sale)
          /\ Stat.last_sale_year p = Row.sale_year (last group first_sale).
Proof.
  intros df pid group Hin.
  pose proof (groupby_group_nonempty _ _ _ _ Hin) as Hne.
  apply in_groupby in Hin. destruct Hin as [Hgroup _].
  rewrite property_group_of_sorted in Hgroup.
  set (rows := filter (has_key Row.property_id pid) df) in *.
  assert (Hrows : rows <> []).
  { intros Hnil. apply Hne. rewrite Hgroup, Hnil. reflexivity. }
  destruct group as [|first_sale rest]; [congruence|].
  exists first_sale, rest. split; [reflexivity|]. split; [|split].
  - change first_sale with (hd first_sale (first_sale :: rest)).
    rewrite Hgroup.
    apply (hd_stable_sort_first_min contract_ordinal); [reflexivity|exact Hrows].
  - rewrite Hgroup.
    apply (last_stable_sort_last_max contract_ordinal); [reflexivity|exact Hrows].
  - intros libm_pow libm_cpow p Hrow.
    destruct (property_row_some _ _ _ _ _ Hrow)
      as (_ & _ & f & r & Heq & Hfirst & Hlast & Hyear & _).
    injection Heq as <- <-. auto.
Qed.

(** Witness for C7: two sales tie on the earliest date and two on the
    latest; the group starts with the earlier-listed of the first pair and
    ends with the later-listed of the second. *)
Lemma first_and_last_sale_tied_dates :
  In ("P1"%string, Examples.tied_group)
     (groupby Row.property_id (sort_df Examples.tied_sales))
  /\ exists first_sale rest,
      Examples.tied_group = first_sale :: rest
      /\ Row.id first_sale = 3
      /\ Row.id (last Examples.tied_group first_sale) = 5
      /\ first_min contract_ordinal first_sale
                   (filter (has_key Row.property_id "P1"%string)
                           Examples.tied_sales)
      /\ last_max contract_ordinal (last Examples.tied_group first_sale)
                  (filter (has_key Row.property_id "P1"%string)
                          Examples.tied_sales).
Proof.
  assert (Hin : In ("P1"%string, Examples.tied_group)
                   (groupby Row.property_id (sort_df Examples.tied_sales)))
    by (vm_compute; left; reflexivity).
  split; [exact Hin|].
  destruct (first_and_last_sale_by_date_then_input_order _ _ _ Hin)
    as (first_sale & rest & Heq & Hfirst & Hlast & _).
  exists first_sale, rest. split; [exact Heq|].
  assert (Hid : first_sale
                = Examples.row 3 "P1" "High St" "Ryde" 2112
                               (Examples.date 2010 3 15) 500)
    by (injection Heq as <- _; reflexivity).
  split; [rewrite Hid; reflexivity|].
  split; [rewrite Hid; reflexivity|].
  split; assumption.
Defined.

(** ** Leaving out a property that is not derived *)

Lemma string_compare_trans_le (a b c : string) :
  String.compare a b <> Gt -> String.compare b c <> Gt ->
  String.compare a c <> Gt.
Proof.
  revert b c. induction a as [|x a IH]; intros [|y b] [|z c]; simpl;
    try congruence.
  unfold Ascii.compare.
  destruct (N.compare_spec (Ascii.N_of_ascii x) (Ascii.N_of_ascii y));
    destruct (N.compare_spec (Ascii.N_of_ascii y) (Ascii.N_of_ascii z));
    destruct (N.compare_spec (Ascii.N_of_ascii x) (Ascii.N_of_ascii z));
    try congruence; try lia.
  apply IH.
Qed.

Lemma string_leb_trans (a b c : string) :
  String.leb a b = true -> String.leb b c = true -> String.leb a c = true.
Proof.
  unfold String.leb. intros Hab Hbc.
  pose proof (string_compare_trans_le a b c) as Ht.
  destruct (String.compare a b), (String.compare b c), (String.compare a c);
    try reflexivity; try discriminate; exfalso; apply Ht; congruence.
Qed.

Lemma property_id_leb_total (a b : Row.t) :
  property_id_leb a b = true \/ property_id_leb b a = true.
Proof.
  unfold property_id_leb.
  destruct (Row.property_id a) as [x|], (Row.property_id b) as [y|]; simpl;
    auto using String.leb_total.
Qed.

Lemma property_id_leb_trans (a b c : Row.t) :
  property_id_leb a b = true -> property_id_leb b c = true ->
  property_id_leb a c = true.
Proof.
  unfold property_id_leb.
  destruct (Row.property_id a) as [x|], (Row.property_id b) as [y|],
           (Row.property_id c) as [z|]; simpl;
    try discriminate; try reflexivity.
  apply string_leb_trans.
Qed.

(** Sorting the frame and leaving rows out of it commute. *)
Lemma filter_sort_df (P : Row.t -> bool) (df : list Row.t) :
  filter P (sort_df df) = sort_df (filter P df).
Proof.
  unfold sort_df, sort_values2.
  rewrite (filter_stable_sort_ordered property_id_leb
             property_id_leb_total property_id_leb_trans).
  rewrite (filter_stable_sort contract_ordinal); reflexivity.
Qed.

Section GroupByWithout.

Context {A K : Type} `{Key K}.
Variable key : A -> option K.
Hypothesis key_leb_total :
  forall a b : K, key_leb a b = true \/ key_leb b a = true.
Hypothesis key_leb_trans :
  forall a b c : K, key_leb a b = true -> key_leb b c = true ->
                    key_leb a c = true.
Variable k : K.

Lemma other_key_true (k' : K) : other_key k k' = true <-> k' <> k.
Proof.
  unfold other_key. destruct (key_eq_dec k' k); split; intros;
    try discriminate; try contradiction; auto.
Qed.

Lemma present_keys_without (l : list A) :
  present_keys key (filter (lacks_key key k) l)
  = filter (other_key k) (present_keys key l).
Proof.
  unfold present_keys, lacks_key, has_key, other_key.
  induction l as [|r l IH]; [reflexivity|].
  simpl. destruct (key r) as [k'|] eqn:Hk; simpl.
  - destruct (key_eq_dec k' k); simpl; [exact IH|].
    rewrite Hk. simpl. rewrite IH. reflexivity.
  - rewrite Hk. simpl. exact IH.
Qed.

Lemma dedup_filter (f : K -> bool) (l : list K) :
  dedup (filter f l) = filter f (dedup l).
Proof.
  induction l as [|x l IH]; [reflexivity|].
  simpl. destruct (f x) eqn:Hf.
  - simpl. destruct (in_dec key_eq_dec x (filter f l)) as [Hin|Hnin],
                    (in_dec key_eq_dec x l) as [Hin'|Hnin']; simpl;
      rewrite ?Hf, IH; try reflexivity.
    + apply filter_In in Hin. tauto.
    + exfalso. apply Hnin. apply filter_In. auto.
  - destruct (in_dec key_eq_dec x l); simpl; rewrite ?Hf; exact IH.
Qed.

Lemma group_keys_without (l : list A) :
  group_keys key (filter (lacks_key key k) l)
  = filter (other_key k) (group_keys key l).
Proof.
  unfold group_keys.
  rewrite present_keys_without, dedup_filter.
  symmetry. apply filter_stable_sort_ordered; assumption.
Qed.

Lemma filter_has_key_without (k' : K) (l : list A) :
  k' <> k ->
  filter (has_key key k') (filter (lacks_key key k) l)
  = filter (has_key key k') l.
Proof.
  intros Hne. induction l as [|r l IH]; [reflexivity|].
  simpl. destruct (lacks_key key k r) eqn:Hl; simpl.
  - rewrite IH. reflexivity.
  - rewrite IH. destruct (has_key key k' r) eqn:Hk'; [|reflexivity].
    exfalso. unfold lacks_key in Hl. apply negb_false_iff in Hl.
    apply has_key_true in Hl. apply has_key_true in Hk'. congruence.
Qed.

(** Leaving out the rows of one key removes its group and changes no
    other. *)
Lemma groupby_without (l : list A) :
  groupby key (filter (lacks_key key k) l)
  = filter (fun g => other_key k (fst g)) (groupby key l).
Proof.
  unfold groupby. rewrite group_keys_without.
  induction (group_keys key l) as [|k' ks IH]; [reflexivity|].
  simpl. destruct (other_key k k') eqn:Ho; simpl; [|exact IH].
  apply other_key_true in Ho.
  rewrite IH, (filter_has_key_without k' l Ho). reflexivity.
Qed.

End GroupByWithout.

Lemma bind_ret {X} (c : result X) : (x <- c ;; Ok x) = c.
Proof. destruct c; reflexivity. Qed.

Section DeriveWithout.

Variable libm_pow : float -> float -> float.
Variable libm_cpow : float -> float -> float * float.

Lemma property_row_short (pid : string) (group : list Row.t) :
  (List.length group < 2)%nat ->
  property_row libm_pow libm_cpow pid group = Ok None.
Proof.
  intros Hlen. unfold property_row. destruct group as [|first_sale rest];
    [reflexivity|].
  apply Nat.ltb_lt in Hlen. rewrite Hlen. reflexivity.
Qed.

Lemma property_loop_without (pid : string)
      (groups : list (string * list Row.t)) :
  (forall group, In (pid, group) groups ->
                 property_row libm_pow libm_cpow pid group = Ok None) ->
  property_loop libm_pow libm_cpow
                (filter (fun g => other_key pid (fst g)) groups)
  = property_loop libm_pow libm_cpow groups.
Proof.
  induction groups as [|[k group] groups IH]; intros Hskip; [reflexivity|].
  specialize (IH (fun g Hg => Hskip g (or_intror Hg))).
  simpl. destruct (other_key pid k) eqn:Ho; simpl.
  - rewrite IH. reflexivity.
  - assert (Heq : k = pid).
    { destruct (key_eq_dec k pid) as [Heq|Hne]; [exact Heq|].
      apply (other_key_true pid k) in Hne. congruence. }
    subst k. rewrite (Hskip group (or_introl eq_refl)). simpl.
    rewrite bind_ret. exact IH.
Qed.

(** The derived set does not depend on the rows of a property that has
    fewer than two of them. *)
Lemma derive_without_short_property (pid : string) (df : list Row.t) :
  (List.length (filter (has_key Row.property_id pid) df) < 2)%nat ->
  derive_property_stats libm_pow libm_cpow
    (sort_df (filter (lacks_key Row.property_id pid) df))
  = derive_property_stats libm_pow libm_cpow (sort_df df).
Proof.
  intros Hfew. unfold derive_property_stats.
  rewrite <- filter_sort_df.
  rewrite (@groupby_without _ _ string_Key Row.property_id
             String.leb_total string_leb_trans).
  apply property_loop_without. intros group Hin.
  apply property_row_short. apply in_groupby in Hin. destruct Hin as [-> _].
  rewrite length_filter_sort_df. exact Hfew.
Qed.

End DeriveWithout.

Lemma prepare_row_lacks_key (pid : string) (s : Sale.t) (r : Row.t) :
  prepare_row s = Some r ->
  lacks_key Row.property_id pid r = lacks_key Sale.property_id pid s.
Proof.
  unfold prepare_row. destruct (Sale.contract_date s); [|discriminate].
  destruct (is_nan (Sale.purchase_price s)); [discriminate|].
  intros Heq. injection Heq as <-. reflexivity.
Qed.

Lemma prepare_without (pid : string) (raw : list Sale.t) :
  prepare (filter (lacks_key Sale.property_id pid) raw)
  = filter (lacks_key Row.property_id pid) (prepare raw).
Proof.
  unfold prepare. induction raw as [|s raw IH]; [reflexivity|].
  cbn [filter flat_map]. rewrite filter_app, <- IH.
  destruct (prepare_row s) as [r|] eqn:Hrow.
  - rewrite <- (prepare_row_lacks_key pid s r Hrow).
    destruct (lacks_key Row.property_id pid r) eqn:Hl;
      cbn [filter flat_map]; rewrite ?Hrow, ?Hl; reflexivity.
  - destruct (lacks_key Sale.property_id pid s);
      cbn [filter flat_map]; rewrite ?Hrow; reflexivity.
Qed.

Section RebuildWithout.

Variable libm_pow : float -> float -> float.
Variable libm_cpow : float -> float -> float * float.
Variable series_mean : list num -> float.

(** The rebuild returns whenever the derivation does and yields no complex
    rate. *)
Lemma rebuild_runs (db : Store) (property_stats : list Stat.t) :
  derive_property_stats libm_pow libm_cpow (sort_df (prepare (sales db)))
  = Ok property_stats ->
  existsb complex_rate property_stats = false ->
  exists db',
    calculate_growth_metrics libm_pow libm_cpow series_mean db = Ok db'.
Proof.
  intros Hderive Hreal.
  destruct (rebuild_cases libm_pow libm_cpow series_mean db)
    as [[_ Hr]|[(_ & e & He & _)|[(_ & stats & Hd & Hc & _)
                                 |(_ & stats & db' & _ & _ & Hr)]]].
  - exists db. exact Hr.
  - rewrite Hderive in He. discriminate.
  - rewrite Hderive in Hd. apply Ok_inj in Hd. subst stats. congruence.
  - exists db'. exact Hr.
Qed.

(** Rebuilding without the sales of a property that has fewer than two
    qualifying sales leaves the same yearly street and suburb rows. *)
Lemma yearly_tables_without_short_property (db db' : Store) (pid : string) :
  sales db <> [] ->
  calculate_growth_metrics libm_pow libm_cpow series_mean db = Ok db' ->
  (List.length (filter (has_key Row.property_id pid) (prepare (sales db)))
   < 2)%nat ->
  exists db'',
    calculate_growth_metrics libm_pow libm_cpow series_mean
                             (without_property pid db) = Ok db''
    /\ street_growth db'' = street_growth db'
    /\ suburb_growth db'' = suburb_growth db'.
Proof.
  intros Hsales Hrun Hfew.
  destruct (rebuild_completed _ _ _ _ _ Hsales Hrun)
    as (stats & Hderive & _ & _ & Hnone & Hsome).
  assert (Hderive' :
            derive_property_stats libm_pow libm_cpow
              (sort_df (prepare (sales (without_property pid db))))
            = Ok stats).
  { cbn [without_property sales].
    rewrite prepare_without, derive_without_short_property; assumption. }
  destruct (rebuild_runs _ _ Hderive'
              (rebuild_bindable _ _ _ _ _ _ Hsales Hrun Hderive))
    as [db'' Hrun''].
  exists db''. split; [exact Hrun''|].
  assert (Hcase : sales (without_property pid db) = []
                  \/ sales (without_property pid db) <> [])
    by (destruct (sales (without_property pid db));
        [left; reflexivity | right; discriminate]).
  destruct Hcase as [Hw|Hsales''].
  - assert (Hstats : stats = []).
    { rewrite Hw in Hderive'. apply Ok_inj. rewrite <- Hderive'. reflexivity. }
    destruct (Hnone Hstats) as (Hsg & Hbg & _).
    unfold calculate_growth_metrics in Hrun''. rewrite Hw in Hrun''.
    apply Ok_inj in Hrun''. subst db''.
    rewrite Hsg, Hbg. split; reflexivity.
  - destruct (rebuild_completed _ _ _ _ _ Hsales'' Hrun'')
      as (stats' & Hd' & _ & _ & Hnone' & Hsome').
    rewrite Hderive' in Hd'. apply Ok_inj in Hd'. subst stats'.
    destruct stats as [|p stats].
    + destruct (Hnone eq_refl) as (Hsg & Hbg & _).
      destruct (Hnone' eq_refl) as (Hsg' & Hbg' & _).
      rewrite Hsg, Hbg, Hsg', Hbg'. split; reflexivity.
    + destruct (Hsome ltac:(discriminate)) as (Hsg & Hbg & _).
      destruct (Hsome' ltac:(discriminate)) as (Hsg' & Hbg' & _).
      rewrite Hsg, Hbg, Hsg', Hbg'. split; reflexivity.
Qed.

End RebuildWithout.

(** ** The guards of the rebuild *)

(** Counterexample to C9: a store whose only property has a single sale,
    holding the tables of an earlier rebuild. The derivation yields no
    record, and the run leaves PropertyGrowth, which held a row, empty: the
    table is deleted before the guard on the derived records is reached. *)
Lemma single_sale_rebuild_empties_property_growth :
  derive_property_stats Examples.libm_pow Examples.libm_cpow
    (sort_df (prepare (sales Examples.store_single_sale))) = Ok []
  /\ exists db',
      calculate_growth_metrics Examples.libm_pow Examples.libm_cpow
                               Examples.plain_mean Examples.store_single_sale
      = Ok db'
      /\ List.length (property_growth Examples.store_single_sale) = 1%nat
      /\ property_growth db' = []
      /\ property_growth db' <> property_growth Examples.store_single_sale.
Proof.
  split; [reflexivity|].
  eexists. split; [vm_compute; reflexivity|].
  cbn [property_growth]. split; [reflexivity|]. split; [reflexivity|].
  discriminate.
Qed.

(** C9, as amended. With no sale in the store the rebuild returns the store
    as it was. When the derivation yields no property record, the rebuild
    returns with the street and suburb tables, yearly and summary, as they
    were; PropertyGrowth, emptied before the guard, is left empty. *)
Theorem rebuild_guards_leave_tables_untouched :
  forall (libm_pow : float -> float -> float)
         (libm_cpow : float -> float -> float * float)
         (series_mean : list num -> float) (db : Store),
    sales db = []
    \/ derive_property_stats libm_pow libm_cpow (sort_df (prepare (sales db)))
       = Ok [] ->
    exists db',
      calculate_growth_metrics libm_pow libm_cpow series_mean db = Ok db'
      /\ (sales db = [] -> db' = db)
      /\ (sales db <> [] -> property_growth db' = [])
      /\ street_growth db' = street_growth db
      /\ suburb_growth db' = suburb_growth db
      /\ street_summary db' = street_summary db
      /\ suburb_summary db' = suburb_summary db.
Proof.
  intros libm_pow libm_cpow series_mean db Hguard.
  unfold calculate_growth_metrics.
  destruct (empty (sales db)) eqn:Hempty.
  - exists db. apply empty_true in Hempty.
    repeat split; try reflexivity. intros Hne. contradiction.
  - destruct Hguard as [Hnil|Hderive].
    + rewrite Hnil in Hempty. discriminate.
    + rewrite Hderive. cbv beta iota delta [bind empty].
      eexists. split; [reflexivity|].
      cbn [sales property_growth street_growth suburb_growth
           street_summary suburb_summary].
      split; [|repeat split].
      intros Hnil. rewrite Hnil in Hempty. discriminate.
Qed.

(** Witness for C9: a store without sales, and a store whose only property
    has a single sale, both holding tables of an earlier rebuild. *)
Lemma rebuild_guards_on_samples :
  (sales Examples.store_without_sales = []
   /\ exists db',
       calculate_growth_metrics Examples.libm_pow Examples.libm_cpow
                                Examples.plain_mean Examples.store_without_sales
       = Ok db'
       /\ (sales Examples.store_without_sales = [] ->
           db' = Examples.store_without_sales)
       /\ (sales Examples.store_without_sales <> [] ->
           property_growth db' = [])
       /\ street_growth db' = [Examples.old_street_growth]
       /\ suburb_growth db' = [Examples.old_suburb_growth]
       /\ street_summary db' = [Examples.old_street_summary]
       /\ suburb_summary db' = [Examples.old_suburb_summary])
  /\ (derive_property_stats Examples.libm_pow Examples.libm_cpow
        (sort_df (prepare (sales Examples.store_single_sale))) = Ok []
      /\ exists db',
          calculate_growth_metrics Examples.libm_pow Examples.libm_cpow
                                   Examples.plain_mean Examples.store_single_sale
          = Ok db'
          /\ (sales Examples.store_single_sale = [] ->
              db' = Examples.store_single_sale)
          /\ (sales Examples.store_single_sale <> [] ->
              property_growth db' = [])
          /\ street_growth db' = [Examples.old_street_growth]
          /\ suburb_growth db' = [Examples.old_suburb_growth]
          /\ street_summary db' = [Examples.old_street_summary]
          /\ suburb_summary db' = [Examples.old_suburb_summary]).
Proof.
  split; (split; [reflexivity|]).
  - exact (rebuild_guards_leave_tables_untouched
             Examples.libm_pow Examples.libm_cpow Examples.plain_mean
             Examples.store_without_sales (or_introl eq_refl)).
  - exact (rebuild_guards_leave_tables_untouched
             Examples.libm_pow Examples.libm_cpow Examples.plain_mean
             Examples.store_single_sale (or_intror eq_refl)).
Defined.

(** ** What is persisted of a property *)

Lemma db_property_records_fields (property_stats : list Stat.t) :
  db_property_records property_stats = map persisted_fields property_stats.
Proof.
  unfold db_property_records. apply map_ext. intros p. reflexivity.
Qed.

(** Counterexample to C6: the one row persisted for the sample store has
    neither the last sale year nor the street, suburb or postcode. *)
Lemma persisted_row_lacks_year_and_location :
  exists db' rec,
    calculate_growth_metrics Examples.libm_pow Examples.libm_cpow
                             Examples.plain_mean Examples.store_mixed
    = Ok db'
    /\ property_growth db' = [rec]
    /\ map fst rec = PropertyGrowth.columns
    /\ ~ In "last_sale_year"%string (map fst rec)
    /\ ~ In "property_street_name"%string (map fst rec)
    /\ ~ In "property_locality"%string (map fst rec)
    /\ ~ In "property_post_code"%string (map fst rec).
Proof.
  eexists. eexists.
  split; [vm_compute; reflexivity|].
  split; [vm_compute; reflexivity|].
  split; [reflexivity|].
  repeat split; intros Hin; vm_compute in Hin;
    repeat (destruct Hin as [Hin|Hin]; [discriminate|]); exact Hin.
Qed.

(** C6, amended. After a rebuild over a non-empty sale table, the
    PropertyGrowth table holds one row per derived property, made of that
    property's id, rate, total growth, years held, last and first sale
    price, and of nothing else: exactly the six columns of the table. *)
Theorem persisted_property_growth_has_six_columns :
  forall (libm_pow : float -> float -> float)
         (libm_cpow : float -> float -> float * float)
         (series_mean : list num -> float) (db db' : Store),
    sales db <> [] ->
    calculate_growth_metrics libm_pow libm_cpow series_mean db = Ok db' ->
    exists property_stats,
      derive_property_stats libm_pow libm_cpow (sort_df (prepare (sales db)))
      = Ok property_stats
      /\ property_growth db' = map persisted_fields property_stats
      /\ forall rec, In rec (property_growth db') ->
                     map fst rec = PropertyGrowth.columns.
Proof.
  intros libm_pow libm_cpow series_mean db db' Hsales Hrun.
  destruct (rebuild_completed _ _ _ _ _ Hsales Hrun)
    as (stats & Hderive & _ & Hpg & _).
  exists stats. rewrite Hpg, db_property_records_fields.
  split; [exact Hderive|]. split; [reflexivity|].
  intros rec Hin. apply in_map_iff in Hin. destruct Hin as (p & <- & _).
  reflexivity.
Qed.

(** Witness for C6: the rebuild of the sample store. *)
Lemma persisted_columns_of_sample_store :
  sales Examples.store_mixed <> []
  /\ exists db',
      calculate_growth_metrics Examples.libm_pow Examples.libm_cpow
                               Examples.plain_mean Examples.store_mixed
      = Ok db'
      /\ exists property_stats,
          derive_property_stats Examples.libm_pow Examples.libm_cpow
            (sort_df (prepare (sales Examples.store_mixed)))
          = Ok property_stats
          /\ property_growth db' = map persisted_fields property_stats
          /\ forall rec, In rec (property_growth db') ->
                         map fst rec = PropertyGrowth.columns.
Proof.
  split; [discriminate|].
  eexists. split; [vm_compute; reflexivity|].
  apply (persisted_property_growth_has_six_columns
           Examples.libm_pow Examples.libm_cpow Examples.plain_mean
           Examples.store_mixed); [discriminate | vm_compute; reflexivity].
Defined.

(** ** Properties with fewer than two qualifying sales *)

Lemma in_combine_map_intro {X Y} (h : X -> Y) (l : list X) (x : X) :
  In x l -> In (x, h x) (combine l (map h l)).
Proof.
  induction l as [|a l IH]; simpl; [tauto|].
  intros [->|Hin]; [left; reflexivity | right; apply IH; exact Hin].
Qed.

(** A left join keeps every left row. *)
Lemma merge_left_in {K V} `{Key K} (left : list (K * V))
      (right : list (K * float)) (k : K) (v : V) :
  In (k, v) left -> exists avg, In (k, v, avg) (merge_left left right).
Proof.
  intros Hin. unfold merge_left. eexists.
  apply in_map_iff. exists (k, v). split; [reflexivity | exact Hin].
Qed.

Section SummaryCounts.

Variable series_mean : list num -> float.
Variable df : list Row.t.
Variable growth_df : list Stat.t.

(** Every street that has a row in the frame has a summary row, whose
    [total_sales] is the number of the frame's rows on that street. *)
Lemma street_summary_total_sales (r : Row.t) (k : string * string * Z) :
  In r df -> row_street_key r = Some k ->
  exists s,
    In s (street_summary_records series_mean df growth_df)
    /\ (StreetSummary.street_name s, StreetSummary.suburb s,
        StreetSummary.post_code s) = k
    /\ StreetSummary.total_sales s
       = Z.of_nat (List.length (filter (has_key row_street_key k) df)).
Proof.
  intros Hr Hk.
  assert (Hg : In (k, filter (has_key row_street_key k) df)
                  (groupby row_street_key df)).
  { apply in_groupby. split; [reflexivity|]. exists r. auto. }
  unfold street_summary_records, is_top_performer.
  set (summary := street_summary_df series_mean df growth_df).
  rewrite (map_map snd).
  set (flag := fun row : string * string * Z * (Z * Z) * float =>
                 if PrimFloat.leb (cagr_threshold (map snd summary)) (snd row)
                 then 1 else 0).
  assert (Hs : exists avg,
             In (k, (nunique Row.property_id (filter (has_key row_street_key k) df),
                     Z.of_nat (List.length (filter (has_key row_street_key k) df))),
                 avg) summary).
  { unfold summary, street_summary_df. apply merge_left_in.
    apply in_map_iff. exists (k, filter (has_key row_street_key k) df).
    split; [reflexivity | exact Hg]. }
  destruct Hs as [avg Hs].
  apply (in_combine_map_intro flag) in Hs.
  eexists. split; [apply in_map_iff; eexists; split; [reflexivity | exact Hs]|].
  destruct k as [[street suburb] post_code]. split; reflexivity.
Qed.

Lemma suburb_summary_total_sales (r : Row.t) (k : string) :
  In r df -> Row.property_locality r = Some k ->
  exists s,
    In s (suburb_summary_records series_mean df growth_df)
    /\ SuburbSummary.suburb s = k
    /\ SuburbSummary.total_sales s
       = Z.of_nat (List.length (filter (has_key Row.property_locality k) df)).
Proof.
  intros Hr Hk.
  assert (Hg : In (k, filter (has_key Row.property_locality k) df)
                  (groupby Row.property_locality df)).
  { apply in_groupby. split; [reflexivity|]. exists r. auto. }
  unfold suburb_summary_records, is_top_performer.
  set (summary := suburb_summary_df series_mean df growth_df).
  rewrite (map_map snd).
  set (flag := fun row : string * (Z * Z) * float =>
                 if PrimFloat.leb (cagr_threshold (map snd summary)) (snd row)
                 then 1 else 0).
  assert (Hs : exists avg,
             In (k, (nunique Row.property_id
                             (filter (has_key Row.property_locality k) df),
                     Z.of_nat (List.length
                                 (filter (has_key Row.property_locality k) df))),
                 avg) summary).
  { unfold summary, suburb_summary_df. apply merge_left_in.
    apply in_map_iff. exists (k, filter (has_key Row.property_locality k) df).
    split; [reflexivity | exact Hg]. }
  destruct Hs as [avg Hs].
  apply (in_combine_map_intro flag) in Hs.
  eexists. split; [apply in_map_iff; eexists; split; [reflexivity | exact Hs]|].
  split; reflexivity.
Qed.

End SummaryCounts.

(** Counterexample to C8: property B has two raw sale rows, one of them
    without a price, hence a single qualifying sale. Its street has four
    raw sale rows, but the street and the suburb summary count three: the
    row without a price is counted nowhere. And in a store whose only sale
    is the one sale of one property, no summary row is written at all. *)
Lemma unpriced_sale_is_not_counted :
  (exists db',
      calculate_growth_metrics Examples.libm_pow Examples.libm_cpow
                               Examples.plain_mean Examples.store_lone_sale
      = Ok db'
      /\ street_summary db' = []
      /\ suburb_summary db' = [])
  /\
  exists db' street suburb,
    calculate_growth_metrics Examples.libm_pow Examples.libm_cpow
                             Examples.plain_mean Examples.store_mixed
    = Ok db'
    /\ List.length (filter (has_key Sale.property_id "B"%string)
                           (sales Examples.store_mixed)) = 2%nat
    /\ List.length (filter (has_key Row.property_id "B"%string)
                           (prepare (sales Examples.store_mixed))) = 1%nat
    /\ raw_sales_on_street Examples.store_mixed
                           ("High St", "Ryde", 2112)%string = 4
    /\ street_summary db' = [street]
    /\ StreetSummary.total_sales street = 3
    /\ suburb_summary db' = [suburb]
    /\ SuburbSummary.total_sales suburb = 3.
Proof.
  split.
  - eexists. split; [vm_compute; reflexivity|]. split; reflexivity.
  - eexists. eexists. eexists.
    split; [vm_compute; reflexivity|].
    repeat (split; [vm_compute; reflexivity|]).
    reflexivity.
Qed.

(** C8, amended. After a rebuild over a non-empty sale table, a property
    with fewer than two qualifying sales has no PropertyGrowth row and no
    record in the derived set from which alone the yearly street and suburb
    rows are computed: a rebuild of the store without its sales writes the
    same StreetGrowth and SuburbGrowth rows. When the derived set is
    non-empty, so that the summaries are rebuilt, each qualifying sale of
    the property on a street (in a suburb) with non-null keys lies in a
    summary row whose [total_sales] is the number of qualifying sales on
    that street (in that suburb). *)
Theorem under_two_sales_excluded_but_counted :
  forall (libm_pow : float -> float -> float)
         (libm_cpow : float -> float -> float * float)
         (series_mean : list num -> float) (db db' : Store) (pid : string),
    sales db <> [] ->
    calculate_growth_metrics libm_pow libm_cpow series_mean db = Ok db' ->
    (List.length (filter (has_key Row.property_id pid) (prepare (sales db)))
     < 2)%nat ->
    exists property_stats,
      derive_property_stats libm_pow libm_cpow (sort_df (prepare (sales db)))
      = Ok property_stats
      /\ (forall p, In p property_stats -> Stat.property_id p <> pid)
      /\ (forall rec, In rec (property_growth db') ->
                      ~ In ("property_id"%string, VStr pid) rec)
      /\ (property_stats <> [] ->
          street_growth db'
          = fst (per_year series_mean years_range property_stats)
          /\ suburb_growth db'
             = snd (per_year series_mean years_range property_stats))
      /\ (exists db'',
            calculate_growth_metrics libm_pow libm_cpow series_mean
                                     (without_property pid db) = Ok db''
            /\ street_growth db'' = street_growth db'
            /\ suburb_growth db'' = suburb_growth db')
      /\ (property_stats <> [] ->
          forall r,
            In r (prepare (sales db)) -> Row.property_id r = Some pid ->
            (forall k, row_street_key r = Some k ->
               exists s,
                 In s (street_summary db')
                 /\ (StreetSummary.street_name s, StreetSummary.suburb s,
                     StreetSummary.post_code s) = k
                 /\ StreetSummary.total_sales s
                    = Z.of_nat (List.length
                                  (filter (has_key row_street_key k)
                                          (prepare (sales db)))))
            /\ (forall k, Row.property_locality r = Some k ->
                  exists s,
                    In s (suburb_summary db')
                    /\ SuburbSummary.suburb s = k
                    /\ SuburbSummary.total_sales s
                       = Z.of_nat (List.length
                                     (filter (has_key Row.property_locality k)
                                             (prepare (sales db)))))).
Proof.
  intros libm_pow libm_cpow series_mean db db' pid Hsales Hrun Hfew.
  destruct (rebuild_completed _ _ _ _ _ Hsales Hrun)
    as (stats & Hderive & _ & Hpg & _ & Hfull).
  exists stats. split; [exact Hderive|].
  assert (Hnot : forall p, In p stats -> Stat.property_id p <> pid).
  { intros p Hp Heq.
    pose proof (derived_property_has_two_rows _ _ _ _ _ Hderive Hp) as Htwo.
    rewrite Heq in Htwo. lia. }
  split; [exact Hnot|]. split; [|split; [|split]].
  - intros rec Hrec Hin. rewrite Hpg, db_property_records_fields in Hrec.
    apply in_map_iff in Hrec. destruct Hrec as (p & <- & Hp).
    unfold persisted_fields in Hin. simpl in Hin.
    destruct Hin as [Hin|Hin];
      [injection Hin as Heq; exact (Hnot p Hp Heq)|].
    repeat (destruct Hin as [Hin|Hin]; [discriminate|]). exact Hin.
  - intros Hne. destruct (Hfull Hne) as (Hsg & Hbg & _). auto.
  - exact (yearly_tables_without_short_property
             _ _ _ _ _ _ Hsales Hrun Hfew).
  - intros Hne r Hr Hpid.
    destruct (Hfull Hne) as (_ & _ & Hss & Hbs).
    rewrite Hss, Hbs. split; intros k Hk.
    + destruct (street_summary_total_sales series_mean _ stats r k
                  (proj2 (in_sort_df _ _) Hr) Hk) as (s & Hs & Hkey & Hcount).
      exists s. rewrite length_filter_sort_df in Hcount. auto.
    + destruct (suburb_summary_total_sales series_mean _ stats r k
                  (proj2 (in_sort_df _ _) Hr) Hk) as (s & Hs & Hkey & Hcount).
      exists s. rewrite length_filter_sort_df in Hcount. auto.
Qed.

(** Witness for C8: property B of the sample store, with its single
    qualifying sale, is absent from the derived set and from PropertyGrowth,
    and its qualifying sale lies on a street whose summary row counts the
    three qualifying sales there. *)
Lemma under_two_sales_on_sample_store :
  sales Examples.store_mixed <> []
  /\ (List.length (filter (has_key Row.property_id "B"%string)
                          (prepare (sales Examples.store_mixed))) < 2)%nat
  /\ exists db',
      calculate_growth_metrics Examples.libm_pow Examples.libm_cpow
                               Examples.plain_mean Examples.store_mixed
      = Ok db'
      /\ (forall rec, In rec (property_growth db') ->
                      ~ In ("property_id"%string, VStr "B") rec)
      /\ exists s,
          In s (street_summary db')
          /\ (StreetSummary.street_name s, StreetSummary.suburb s,
              StreetSummary.post_code s) = ("High St", "Ryde", 2112)%string
          /\ StreetSummary.total_sales s = 3.
Proof.
  assert (Hsales : sales Examples.store_mixed <> []) by discriminate.
  assert (Hfew : (List.length (filter (has_key Row.property_id "B"%string)
                                      (prepare (sales Examples.store_mixed)))
                  < 2)%nat) by (vm_compute; lia).
  split; [exact Hsales|]. split; [exact Hfew|].
  eexists. split; [vm_compute; reflexivity|].
  match goal with
  | |- context [property_growth ?d] =>
      assert (Hrun : calculate_growth_metrics
                       Examples.libm_pow Examples.libm_cpow
                       Examples.plain_mean Examples.store_mixed = Ok d)
        by (vm_compute; reflexivity)
  end.
  destruct (under_two_sales_excluded_but_counted
              Examples.libm_pow Examples.libm_cpow Examples.plain_mean
              Examples.store_mixed _ "B"%string Hsales Hrun Hfew)
    as (stats & Hderive & _ & Hrows & _ & _ & Hcounted).
  split; [exact Hrows|].
  assert (Hne : stats <> []).
  { intros ->. vm_compute in Hderive. discriminate. }
  destruct (Hcounted Hne
              (Examples.row 3 "B" "High St" "Ryde" 2112
                            (Examples.date 2019 5 1) 300)
              ltac:(vm_compute; tauto) eq_refl) as [Hstreet _].
  destruct (Hstreet ("High St", "Ryde", 2112)%string eq_refl)
    as (s & Hs & Hkey & Hcount).
  exists s. split; [exact Hs|]. split; [exact Hkey|].
  rewrite Hcount. reflexivity.
Defined.


(* ================================================================== *)
(** * Further properties of the rebuild *)
(* ================================================================== *)

(** ** When [calculate_cagr] and the rebuild raise *)

Section CagrOutcome.

Variable libm_pow : float -> float -> float.
Variable libm_cpow : float -> float -> float * float.

Lemma guarded_rate_returns (first_price last_price years : float) :
  exists cagr,
    try_except
      (Cagr.cagr_expression libm_pow libm_cpow first_price last_price years)
      Cagr.caught_by_cagr_handler (fun _ => Ok (Flt 0%float))
    = Ok cagr.
Proof.
  destruct (Cagr.cagr_expression libm_pow libm_cpow first_price last_price years)
    as [c|e] eqn:Hexpr; simpl; [eauto|].
  rewrite (cagr_expression_exn _ _ _ _ _ _ Hexpr). eauto.
Qed.

Lemma calculate_cagr_first_nonzero (first_price last_price years : float) :
  PrimFloat.eqb first_price 0%float = false ->
  exists cagr,
    Cagr.calculate_cagr libm_pow libm_cpow first_price last_price years
    = Ok (cagr, ((last_price - first_price) / first_price)%float)
    /\ (PrimFloat.ltb years 0.5%float = true -> cagr = Flt 0%float).
Proof.
  intros Hfirst.
  unfold Cagr.calculate_cagr, Cagr.total_growth_expression, float_div.
  rewrite Hfirst. destruct (PrimFloat.ltb years 0.5%float).
  - exists (Flt 0%float). split; reflexivity.
  - destruct (guarded_rate_returns first_price last_price years) as [c Hc].
    unfold float_div in Hc. rewrite Hc. exists c.
    split; [reflexivity | discriminate].
Qed.

Lemma calculate_cagr_first_zero (first_price last_price years : float) :
  PrimFloat.eqb first_price 0%float = true ->
  Cagr.calculate_cagr libm_pow libm_cpow first_price last_price years
  = Raise ZeroDivisionError.
Proof.
  intros Hzero.
  unfold Cagr.calculate_cagr, Cagr.total_growth_expression.
  destruct (guarded_rate_returns first_price last_price years) as [c Hc].
  rewrite Hc. unfold float_div. rewrite Hzero.
  destruct (PrimFloat.ltb years 0.5%float); reflexivity.
Qed.

(** A complex rate comes from a negative price ratio only. *)
Lemma float_pow_complex (iv iw re im : float) :
  float_pow libm_pow libm_cpow iv iw = Ok (Cplx re im) ->
  PrimFloat.ltb iv 0%float = true.
Proof.
  unfold float_pow.
  destruct (PrimFloat.ltb iv 0%float && is_fractional iw)%bool eqn:Hcase.
  - intros _. apply andb_prop in Hcase. tauto.
  - repeat match goal with
           | |- context [if ?b then _ else _] => destruct b
           end;
      intros Heq; discriminate.
Qed.

Lemma calculate_cagr_complex (first_price last_price years re im tg : float) :
  Cagr.calculate_cagr libm_pow libm_cpow first_price last_price years
  = Ok (Cplx re im, tg) ->
  PrimFloat.ltb (last_price / first_price) 0%float = true.
Proof.
  unfold Cagr.calculate_cagr, Cagr.total_growth_expression.
  destruct (PrimFloat.ltb years 0.5%float).
  - destruct (float_div (last_price - first_price) first_price);
      cbv beta iota delta [bind]; intros Heq; discriminate.
  - destruct (Cagr.cagr_expression libm_pow libm_cpow
                first_price last_price years) as [c|e] eqn:Hexpr.
    + cbv beta iota delta [try_except bind].
      destruct (float_div (last_price - first_price) first_price);
        [|discriminate].
      intros Heq. injection Heq as -> _.
      revert Hexpr. unfold Cagr.cagr_expression, float_div.
      destruct (PrimFloat.eqb first_price 0%float); [discriminate|].
      destruct (PrimFloat.eqb years 0%float); [discriminate|].
      cbv beta iota delta [bind].
      destruct (float_pow libm_pow libm_cpow (last_price / first_price)
                          (1 / years)) as [q|e] eqn:Hpow; [|discriminate].
      destruct q as [f|qre qim]; [discriminate|]. intros _.
      exact (float_pow_complex _ _ _ _ Hpow).
    + unfold try_except. rewrite (cagr_expression_exn _ _ _ _ _ _ Hexpr).
      cbv beta iota delta [bind].
      destruct (float_div (last_price - first_price) first_price);
        intros Heq; discriminate.
Qed.

Lemma property_row_complex (pid : string) (group : list Row.t) (p : Stat.t) :
  property_row libm_pow libm_cpow pid group = Ok (Some p) ->
  complex_rate p = true ->
  exists first_sale rest,
    group = first_sale :: rest /\ rest <> []
    /\ PrimFloat.ltb (Row.purchase_price (last rest first_sale)
                      / Row.purchase_price first_sale) 0%float = true.
Proof.
  unfold property_row. destruct group as [|first_sale rest]; [discriminate|].
  destruct (List.length (first_sale :: rest) <? 2)%nat eqn:Hlen;
    [discriminate|].
  assert (Hrest : rest <> []).
  { intros ->. discriminate. }
  assert (Hlast : last (first_sale :: rest) first_sale = last rest first_sale).
  { destruct rest; [congruence | reflexivity]. }
  rewrite Hlast.
  destruct (Cagr.calculate_cagr _ _ _ _ _) as [[c tg]|e] eqn:Hc;
    cbv beta iota delta [bind]; [|discriminate].
  intros Heq. apply Ok_inj in Heq. injection Heq as <-.
  unfold complex_rate. cbn [Stat.cagr fst].
  destruct c as [f|re im]; [discriminate|]. intros _.
  exists first_sale, rest. split; [reflexivity|]. split; [exact Hrest|].
  exact (calculate_cagr_complex _ _ _ _ _ _ Hc).
Qed.

(** The row of a group of two or more sales: an exception when the first
    price is zero, a record otherwise. *)
Lemma property_row_long (pid : string) (first_sale : Row.t)
      (rest : list Row.t) :
  rest <> [] ->
  if PrimFloat.eqb (Row.purchase_price first_sale) 0%float
  then property_row libm_pow libm_cpow pid (first_sale :: rest)
       = Raise ZeroDivisionError
  else exists p,
      property_row libm_pow libm_cpow pid (first_sale :: rest) = Ok (Some p).
Proof.
  intros Hrest. unfold property_row.
  assert (Hlen : (List.length (first_sale :: rest) <? 2)%nat = false).
  { destruct rest; [congruence | reflexivity]. }
  rewrite Hlen.
  destruct (PrimFloat.eqb (Row.purchase_price first_sale) 0%float) eqn:Hzero.
  - rewrite calculate_cagr_first_zero by exact Hzero. reflexivity.
  - match goal with
    | |- context [Cagr.calculate_cagr _ _ ?f ?l ?y] =>
        destruct (calculate_cagr_first_nonzero f l y Hzero) as (c & Hc & _)
    end.
    rewrite Hc. simpl. eauto.
Qed.

Lemma property_row_outcome (pid : string) (group : list Row.t) :
  (exists r, property_row libm_pow libm_cpow pid group = Ok r)
  \/ (property_row libm_pow libm_cpow pid group = Raise ZeroDivisionError
      /\ exists first_sale rest,
          group = first_sale :: rest /\ rest <> []
          /\ PrimFloat.eqb (Row.purchase_price first_sale) 0%float = true).
Proof.
  destruct group as [|first_sale rest]; [left; eexists; reflexivity|].
  destruct rest as [|second rest]; [left; eexists; reflexivity|].
  pose proof (property_row_long pid first_sale (second :: rest)
                                ltac:(discriminate)) as Hlong.
  destruct (PrimFloat.eqb (Row.purchase_price first_sale) 0%float) eqn:Hzero.
  - right. split; [exact Hlong|].
    exists first_sale, (second :: rest).
    repeat split; [discriminate | exact Hzero].
  - left. destruct Hlong as [p Hp]. eauto.
Qed.

(** The loop raises exactly when one of its groups has two or more rows
    and a first price of zero, and then it raises [ZeroDivisionError]. *)
Lemma property_loop_outcome (groups : list (string * list Row.t)) :
  (exists pid first_sale rest,
      In (pid, first_sale :: rest) groups /\ rest <> []
      /\ PrimFloat.eqb (Row.purchase_price first_sale) 0%float = true)
  /\ property_loop libm_pow libm_cpow groups = Raise ZeroDivisionError
  \/ (~ (exists pid first_sale rest,
           In (pid, first_sale :: rest) groups /\ rest <> []
           /\ PrimFloat.eqb (Row.purchase_price first_sale) 0%float = true))
     /\ exists property_stats,
         property_loop libm_pow libm_cpow groups = Ok property_stats.
Proof.
  induction groups as [|[pid group] groups IH].
  - right. split; [intros (? & ? & ? & [] & _) | eexists; reflexivity].
  - simpl. destruct (property_row_outcome pid group)
      as [[r Hr]|(Hraise & f & rest & -> & Hrest & Hzero)].
    + rewrite Hr. simpl.
      destruct IH as [(Hex & Hloop)|(Hnone & stats & Hloop)].
      * left. rewrite Hloop. split; [|reflexivity].
        destruct Hex as (pid' & f & rest & Hin & Hrest & Hzero).
        exists pid', f, rest. auto.
      * right. rewrite Hloop. simpl. split; [|eauto].
        intros (pid' & f & rest & [Heq|Hin] & Hrest & Hzero).
        -- injection Heq as -> ->.
           pose proof (property_row_long pid' f rest Hrest) as Hlong.
           rewrite Hzero, Hr in Hlong. discriminate.
        -- apply Hnone. exists pid', f, rest. auto.
    + left. rewrite Hraise. split; [|reflexivity].
      exists pid, f, rest. auto.
Qed.

End CagrOutcome.

(** X1. With a first price other than zero [calculate_cagr] returns: the
    total growth is [(last_price - first_price) / first_price], the rate is
    0.0 for a holding period under half a year, and neither exception of
    the power escapes. *)
Theorem calculate_cagr_returns_on_nonzero_first_price :
  forall (libm_pow : float -> float -> float)
         (libm_cpow : float -> float -> float * float)
         (first_price last_price years : float),
    PrimFloat.eqb first_price 0%float = false ->
    exists cagr,
      Cagr.calculate_cagr libm_pow libm_cpow first_price last_price years
      = Ok (cagr, ((last_price - first_price) / first_price)%float)
      /\ (PrimFloat.ltb years 0.5%float = true -> cagr = Flt 0%float).
Proof.
  intros libm_pow libm_cpow first_price last_price years Hfirst.
  destruct (calculate_cagr_first_nonzero libm_pow libm_cpow
              first_price last_price years Hfirst) as (c & Hc & Hshort).
  exists c. split; assumption.
Qed.

(** Witness for X1: prices 100 and 150 held for a quarter of a year. *)
Lemma calculate_cagr_returns_on_sample :
  PrimFloat.eqb 100%float 0%float = false
  /\ exists cagr,
      Cagr.calculate_cagr Examples.libm_pow Examples.libm_cpow
                          100%float 150%float 0.25%float
      = Ok (cagr, ((150 - 100) / 100)%float)
      /\ (PrimFloat.ltb 0.25%float 0.5%float = true -> cagr = Flt 0%float).
Proof.
  split; [reflexivity|].
  exact (calculate_cagr_returns_on_nonzero_first_price
           Examples.libm_pow Examples.libm_cpow
           100%float 150%float 0.25%float eq_refl).
Defined.

Lemma complex_rate_needs_opposite_signs
      (libm_pow : float -> float -> float)
      (libm_cpow : float -> float -> float * float) (db : Store) :
  complex_rate_derived libm_pow libm_cpow db -> opposite_signed_resale db.
Proof.
  intros (stats & Hderive & Hcomplex).
  apply existsb_exists in Hcomplex. destruct Hcomplex as (p & Hp & Hc).
  destruct (property_loop_in libm_pow libm_cpow _ _ p Hderive Hp)
    as (pid & group & Hg & Hrow).
  destruct (property_row_complex libm_pow libm_cpow pid group p Hrow Hc)
    as (first_sale & rest & -> & Hrest & Hneg).
  exists pid, first_sale, rest. auto.
Qed.

(** The three outcomes of the rebuild. *)
Lemma rebuild_outcome (libm_pow : float -> float -> float)
      (libm_cpow : float -> float -> float * float)
      (series_mean : list num -> float) (db : Store) :
  (zero_priced_first_sale db
   /\ ~ complex_rate_derived libm_pow libm_cpow db
   /\ calculate_growth_metrics libm_pow libm_cpow series_mean db
      = Raise ZeroDivisionError)
  \/ (~ zero_priced_first_sale db
      /\ complex_rate_derived libm_pow libm_cpow db
      /\ calculate_growth_metrics libm_pow libm_cpow series_mean db
         = Raise StatementError)
  \/ (~ zero_priced_first_sale db
      /\ ~ complex_rate_derived libm_pow libm_cpow db
      /\ exists db',
          calculate_growth_metrics libm_pow libm_cpow series_mean db = Ok db').
Proof.
  unfold zero_priced_first_sale, complex_rate_derived.
  destruct (property_loop_outcome libm_pow libm_cpow
              (groupby Row.property_id (sort_df (prepare (sales db)))))
    as [(Hex & Hloop)|(Hnone & stats & Hloop)];
    change (derive_property_stats libm_pow libm_cpow
              (sort_df (prepare (sales db))) = Raise ZeroDivisionError)
      in Hloop
    || change (derive_property_stats libm_pow libm_cpow
                 (sort_df (prepare (sales db))) = Ok stats) in Hloop.
  - left. split; [exact Hex|].
    split; [intros (stats & Hd & _); rewrite Hloop in Hd; discriminate|].
    destruct (rebuild_cases libm_pow libm_cpow series_mean db)
      as [[Hnil _]|[(_ & e & He & Hr)|[(_ & stats & Hd & _)
                                      |(_ & stats & db' & Hd & _)]]].
    + rewrite Hnil in Hex. destruct Hex as (? & ? & ? & [] & _).
    + rewrite Hloop in He. apply eq_sym in He. injection He as ->. exact Hr.
    + rewrite Hloop in Hd. discriminate.
    + rewrite Hloop in Hd. discriminate.
  - right. destruct (existsb complex_rate stats) eqn:Hcomplex.
    + left. split; [exact Hnone|]. split; [exists stats; auto|].
      destruct (rebuild_cases libm_pow libm_cpow series_mean db)
        as [[Hnil _]|[(_ & e & He & _)|[(_ & stats' & _ & _ & Hr)
                                       |(_ & stats' & db' & Hd & Hc & _)]]].
      * rewrite Hnil in Hloop. apply Ok_inj in Hloop. subst stats.
        discriminate.
      * rewrite Hloop in He. discriminate.
      * exact Hr.
      * rewrite Hloop in Hd. apply Ok_inj in Hd. subst stats'. congruence.
    + right. split; [exact Hnone|]. split.
      * intros (stats' & Hd & Hc). rewrite Hloop in Hd. apply Ok_inj in Hd.
        subst stats'. congruence.
      * exact (rebuild_runs libm_pow libm_cpow series_mean db stats
                 Hloop Hcomplex).
Qed.

(** X2. The rebuild has three outcomes. It raises [ZeroDivisionError]
    exactly when some property with two or more qualifying sales has its
    first sale priced at zero. It raises [StatementError], from the insert
    into PropertyGrowth, exactly when the derivation returns and one of its
    rates is complex, which takes a property whose first and last price
    have opposite signs. In every other case it returns, and it raises
    nothing else. *)
Theorem rebuild_raises_on_zero_price_or_complex_rate :
  forall (libm_pow : float -> float -> float)
         (libm_cpow : float -> float -> float * float)
         (series_mean : list num -> float) (db : Store),
    (zero_priced_first_sale db <->
     calculate_growth_metrics libm_pow libm_cpow series_mean db
     = Raise ZeroDivisionError)
    /\ (complex_rate_derived libm_pow libm_cpow db <->
        calculate_growth_metrics libm_pow libm_cpow series_mean db
        = Raise StatementError)
    /\ (~ zero_priced_first_sale db
        /\ ~ complex_rate_derived libm_pow libm_cpow db <->
        exists db',
          calculate_growth_metrics libm_pow libm_cpow series_mean db = Ok db')
    /\ (complex_rate_derived libm_pow libm_cpow db ->
        opposite_signed_resale db)
    /\ (forall e,
          calculate_growth_metrics libm_pow libm_cpow series_mean db = Raise e ->
          e = ZeroDivisionError \/ e = StatementError).
Proof.
  intros libm_pow libm_cpow series_mean db.
  pose proof (complex_rate_needs_opposite_signs libm_pow libm_cpow db) as Hsign.
  destruct (rebuild_outcome libm_pow libm_cpow series_mean db)
    as [(Hz & Hnc & Hraise)|[(Hnz & Hc & Hraise)|(Hnz & Hnc & db' & Hok)]].
  - split; [tauto|].
    split; [split; [contradiction | intros Hr; congruence]|].
    split; [split; [tauto | intros (db' & Hok); congruence]|].
    split; [exact Hsign|].
    intros e He. left. congruence.
  - split; [split; [contradiction | intros Hr; congruence]|].
    split; [tauto|].
    split; [split; [tauto | intros (db' & Hok); congruence]|].
    split; [exact Hsign|].
    intros e He. right. congruence.
  - split; [split; [contradiction | intros Hr; congruence]|].
    split; [split; [contradiction | intros Hr; congruence]|].
    split; [split; eauto|].
    split; [exact Hsign|].
    intros e He. congruence.
Qed.

(** Witness for X2: property A sold at 100 and at -100 a year and a half
    later has a complex rate, and the insert of its record fails. *)
Lemma rebuild_raises_on_opposite_prices :
  complex_rate_derived Examples.libm_pow Examples.finite_cpow
                       Examples.store_opposite_prices
  /\ ~ zero_priced_first_sale Examples.store_opposite_prices
  /\ calculate_growth_metrics Examples.libm_pow Examples.finite_cpow
                              Examples.plain_mean
                              Examples.store_opposite_prices
     = Raise StatementError
  /\ opposite_signed_resale Examples.store_opposite_prices.
Proof.
  assert (Hc : complex_rate_derived Examples.libm_pow Examples.finite_cpow
                                    Examples.store_opposite_prices).
  { eexists. split; [vm_compute; reflexivity | reflexivity]. }
  destruct (rebuild_raises_on_zero_price_or_complex_rate
              Examples.libm_pow Examples.finite_cpow Examples.plain_mean
              Examples.store_opposite_prices)
    as (Hzero & Hcomplex & _ & Hsign & _).
  split; [exact Hc|]. split; [|split].
  - intros Hz. apply Hzero in Hz.
    rewrite (proj1 Hcomplex Hc) in Hz. discriminate.
  - exact (proj1 Hcomplex Hc).
  - exact (Hsign Hc).
Defined.

(** ** Running the rebuild again, and [init_db] *)

Lemma store_ext (a b : Store) :
  sales a = sales b ->
  property_growth a = property_growth b ->
  street_growth a = street_growth b ->
  suburb_growth a = suburb_growth b ->
  street_summary a = street_summary b ->
  suburb_summary a = suburb_summary b ->
  a = b.
Proof.
  destruct a, b. cbn [sales property_growth street_growth suburb_growth
                      street_summary suburb_summary].
  intros -> -> -> -> -> ->. reflexivity.
Qed.

Section RebuildAgain.

Variable libm_pow : float -> float -> float.
Variable libm_cpow : float -> float -> float * float.
Variable series_mean : list num -> float.

Lemma rebuild_no_sales (db : Store) :
  sales db = [] ->
  calculate_growth_metrics libm_pow libm_cpow series_mean db = Ok db.
Proof.
  intros Hnil. unfold calculate_growth_metrics. rewrite Hnil. reflexivity.
Qed.

Lemma rebuild_keeps_sales (db db' : Store) :
  calculate_growth_metrics libm_pow libm_cpow series_mean db = Ok db' ->
  sales db' = sales db.
Proof.
  intros Hrun.
  assert (Hcase : sales db = [] \/ sales db <> [])
    by (destruct (sales db); [left; reflexivity | right; discriminate]).
  destruct Hcase as [Hnil|Hne].
  - rewrite (rebuild_no_sales db Hnil) in Hrun. apply Ok_inj in Hrun.
    subst db'. reflexivity.
  - destruct (rebuild_completed _ _ _ _ _ Hne Hrun) as (_ & _ & Hs & _).
    exact Hs.
Qed.

(** Two runs over the same sales that derive a property record leave the
    same store, whatever the derived tables held before. *)
Lemma rebuild_function_of_sales (db1 db2 db1' db2' : Store) :
  sales db1 = sales db2 ->
  sales db1 <> [] ->
  calculate_growth_metrics libm_pow libm_cpow series_mean db1 = Ok db1' ->
  calculate_growth_metrics libm_pow libm_cpow series_mean db2 = Ok db2' ->
  property_growth db1' <> [] ->
  db1' = db2'.
Proof.
  intros Hs Hne Hrun1 Hrun2 Hrows.
  assert (Hne2 : sales db2 <> []) by (rewrite <- Hs; exact Hne).
  destruct (rebuild_completed _ _ _ _ _ Hne Hrun1)
    as (stats & Hd1 & Hs1 & Hpg1 & _ & Hsome1).
  destruct (rebuild_completed _ _ _ _ _ Hne2 Hrun2)
    as (stats' & Hd2 & Hs2 & Hpg2 & _ & Hsome2).
  rewrite <- Hs, Hd1 in Hd2. apply Ok_inj in Hd2. subst stats'.
  assert (Hstats : stats <> []).
  { intros ->. apply Hrows. rewrite Hpg1. reflexivity. }
  destruct (Hsome1 Hstats) as (H1 & H2 & H3 & H4).
  destruct (Hsome2 Hstats) as (G1 & G2 & G3 & G4).
  apply store_ext; congruence.
Qed.

Lemma rebuild_twice (db db' : Store) :
  calculate_growth_metrics libm_pow libm_cpow series_mean db = Ok db' ->
  calculate_growth_metrics libm_pow libm_cpow series_mean db' = Ok db'.
Proof.
  intros Hrun.
  assert (Hcase : sales db = [] \/ sales db <> [])
    by (destruct (sales db); [left; reflexivity | right; discriminate]).
  destruct Hcase as [Hnil|Hne].
  - rewrite (rebuild_no_sales db Hnil) in Hrun. apply Ok_inj in Hrun.
    subst db'. apply rebuild_no_sales. exact Hnil.
  - pose proof (rebuild_keeps_sales _ _ Hrun) as Hs.
    destruct (rebuild_completed _ _ _ _ _ Hne Hrun)
      as (stats & Hd & _ & Hpg & Hnone & Hsome).
    assert (Hd' : derive_property_stats libm_pow libm_cpow
                    (sort_df (prepare (sales db'))) = Ok stats)
      by (rewrite Hs; exact Hd).
    destruct (rebuild_runs libm_pow libm_cpow series_mean db' stats Hd'
                (rebuild_bindable _ _ _ _ _ _ Hne Hrun Hd))
      as [db'' Hrun'].
    rewrite Hrun'. f_equal.
    assert (Hne' : sales db' <> []) by (rewrite Hs; exact Hne).
    destruct (rebuild_completed _ _ _ _ _ Hne' Hrun')
      as (stats' & Hd2 & Hs2 & Hpg2 & Hnone2 & Hsome2).
    rewrite Hd' in Hd2. apply Ok_inj in Hd2. subst stats'.
    apply store_ext; [exact Hs2 | congruence | | | |];
      (destruct stats as [|p stats];
       [ destruct (Hnone2 eq_refl) as (H1 & H2 & H3 & H4); assumption
       | destruct (Hsome ltac:(discriminate)) as (H1 & H2 & H3 & H4);
         destruct (Hsome2 ltac:(discriminate)) as (G1 & G2 & G3 & G4);
         rewrite ?G1, ?G2, ?G3, ?G4, ?H1, ?H2, ?H3, ?H4, ?Hs; reflexivity ]).
Qed.

End RebuildAgain.

(** X3. A rebuild that returns leaves the sale table as it was, and
    running it again on the store it left changes nothing. *)
Theorem rebuild_is_idempotent :
  forall (libm_pow : float -> float -> float)
         (libm_cpow : float -> float -> float * float)
         (series_mean : list num -> float) (db db' : Store),
    calculate_growth_metrics libm_pow libm_cpow series_mean db = Ok db' ->
    sales db' = sales db
    /\ calculate_growth_metrics libm_pow libm_cpow series_mean db' = Ok db'.
Proof.
  intros libm_pow libm_cpow series_mean db db' Hrun. split.
  - exact (rebuild_keeps_sales _ _ _ _ _ Hrun).
  - exact (rebuild_twice _ _ _ _ _ Hrun).
Qed.

(** Witness for X3: the rebuild of the sample store, run twice. *)
Lemma rebuild_is_idempotent_on_sample :
  exists db',
    calculate_growth_metrics Examples.libm_pow Examples.libm_cpow
                             Examples.plain_mean Examples.store_mixed
    = Ok db'
    /\ sales db' = sales Examples.store_mixed
    /\ calculate_growth_metrics Examples.libm_pow Examples.libm_cpow
                                Examples.plain_mean db' = Ok db'.
Proof.
  eexists. split; [vm_compute; reflexivity|].
  apply (rebuild_is_idempotent
           Examples.libm_pow Examples.libm_cpow Examples.plain_mean
           Examples.store_mixed).
  vm_compute. reflexivity.
Defined.

Section InitDbFacts.

Variable libm_pow : float -> float -> float.
Variable libm_cpow : float -> float -> float * float.
Variable series_mean : list num -> float.

Let main := InitDb.main libm_pow libm_cpow series_mean.

Lemma init_db_cases (db : Store) :
  ((zero_priced_first_sale db \/ complex_rate_derived libm_pow libm_cpow db)
   /\ main db = (InitDb.drop_derived_tables db, 1))
  \/ (~ (zero_priced_first_sale db
         \/ complex_rate_derived libm_pow libm_cpow db)
      /\ exists db',
          calculate_growth_metrics libm_pow libm_cpow series_mean
                                   (InitDb.drop_derived_tables db) = Ok db'
          /\ main db = (db', 0)).
Proof.
  unfold main, InitDb.main.
  destruct (rebuild_outcome libm_pow libm_cpow series_mean
                            (InitDb.drop_derived_tables db))
    as [(Hz & _ & Hraise)|[(_ & Hc & Hraise)|(Hnz & Hnc & db' & Hok)]].
  - left. split; [left; exact Hz|]. rewrite Hraise. reflexivity.
  - left. split; [right; exact Hc|]. rewrite Hraise. reflexivity.
  - right. split; [intros [Hz|Hc]; [exact (Hnz Hz) | exact (Hnc Hc)]|].
    exists db'. split; [exact Hok|]. rewrite Hok. reflexivity.
Qed.

Lemma init_db_same_sales (db db2 : Store) :
  sales db2 = sales db -> main db2 = main db.
Proof.
  intros Hs. unfold main, InitDb.main, InitDb.drop_derived_tables.
  rewrite Hs. reflexivity.
Qed.

Lemma init_db_without_records (db db' : Store) :
  calculate_growth_metrics libm_pow libm_cpow series_mean
                           (InitDb.drop_derived_tables db) = Ok db' ->
  derive_property_stats libm_pow libm_cpow (sort_df (prepare (sales db)))
  = Ok [] ->
  property_growth db' = []
  /\ street_growth db' = []
  /\ suburb_growth db' = []
  /\ street_summary db' = []
  /\ suburb_summary db' = [].
Proof.
  intros Hrun Hderive.
  assert (Hcase : sales (InitDb.drop_derived_tables db) = []
                  \/ sales (InitDb.drop_derived_tables db) <> [])
    by (destruct (sales (InitDb.drop_derived_tables db));
        [left; reflexivity | right; discriminate]).
  destruct Hcase as [Hnil|Hne].
  - rewrite (rebuild_no_sales _ _ _ _ Hnil) in Hrun. apply Ok_inj in Hrun.
    subst db'. repeat split.
  - destruct (rebuild_completed _ _ _ _ _ Hne Hrun)
      as (stats & Hd & _ & Hpg & Hnone & _).
    cbn [sales InitDb.drop_derived_tables] in Hd.
    rewrite Hderive in Hd. apply Ok_inj in Hd. subst stats.
    destruct (Hnone eq_refl) as (Hsg & Hbg & Hss & Hbs).
    rewrite Hpg, Hsg, Hbg, Hss, Hbs. repeat split.
Qed.

End InitDbFacts.

(** X15. [init_db] keeps the sale table and exits with status 1 exactly
    when the rebuild raises: when some property with two or more qualifying
    sales has its first sale priced at zero, or a derived rate is complex
    and cannot be inserted; all five derived tables are then left empty.
    With status 0 the store it leaves is one the rebuild maps to itself, and
    the derived tables are empty whenever no property record is derived. In
    either case the outcome depends on the sale table alone: nothing of the
    derived tables it found survives. *)
Theorem init_db_outcome :
  forall (libm_pow : float -> float -> float)
         (libm_cpow : float -> float -> float * float)
         (series_mean : list num -> float) (db : Store),
    let out := InitDb.main libm_pow libm_cpow series_mean db in
    sales (fst out) = sales db
    /\ (snd out = 1 <->
        zero_priced_first_sale db
        \/ complex_rate_derived libm_pow libm_cpow db)
    /\ (snd out = 0 <->
        ~ (zero_priced_first_sale db
           \/ complex_rate_derived libm_pow libm_cpow db))
    /\ (snd out = 1
        \/ derive_property_stats libm_pow libm_cpow
             (sort_df (prepare (sales db))) = Ok [] ->
        property_growth (fst out) = []
        /\ street_growth (fst out) = []
        /\ suburb_growth (fst out) = []
        /\ street_summary (fst out) = []
        /\ suburb_summary (fst out) = [])
    /\ (snd out = 0 ->
        calculate_growth_metrics libm_pow libm_cpow series_mean (fst out)
        = Ok (fst out))
    /\ (forall db2,
          sales db2 = sales db ->
          InitDb.main libm_pow libm_cpow series_mean db2 = out).
Proof.
  intros libm_pow libm_cpow series_mean db out.
  assert (Hsame : forall db2, sales db2 = sales db ->
                    InitDb.main libm_pow libm_cpow series_mean db2 = out)
    by (intros db2 Hs; apply init_db_same_sales; exact Hs).
  destruct (init_db_cases libm_pow libm_cpow series_mean db)
    as [(Hz & Hmain)|(Hnz & db' & Hok & Hmain)];
    fold out in Hmain; rewrite Hmain in *; cbn [fst snd].
  - split; [reflexivity|]. split; [tauto|].
    split; [split; [discriminate | contradiction]|].
    split; [intros _; repeat split|].
    split; [discriminate | exact Hsame].
  - pose proof (rebuild_keeps_sales _ _ _ _ _ Hok) as Hs.
    cbn [sales InitDb.drop_derived_tables] in Hs.
    split; [exact Hs|].
    split; [split; [discriminate | contradiction]|].
    split; [tauto|].
    split; [|split; [intros _; exact (rebuild_twice _ _ _ _ _ Hok) | exact Hsame]].
    intros [Hone|Hderive]; [discriminate|].
    exact (init_db_without_records libm_pow libm_cpow series_mean
             db db' Hok Hderive).
Qed.

(** Witness for X15: on the store whose property A has a complex rate,
    [init_db] exits with status 1 and leaves the derived tables empty. *)
Lemma init_db_fails_on_opposite_prices :
  snd (InitDb.main Examples.libm_pow Examples.finite_cpow Examples.plain_mean
                   Examples.store_opposite_prices) = 1
  /\ property_growth
       (fst (InitDb.main Examples.libm_pow Examples.finite_cpow
                         Examples.plain_mean Examples.store_opposite_prices))
     = [].
Proof.
  destruct (init_db_outcome Examples.libm_pow Examples.finite_cpow
              Examples.plain_mean Examples.store_opposite_prices)
    as (_ & Hone & _ & Hempty & _).
  assert (Hstatus : snd (InitDb.main Examples.libm_pow Examples.finite_cpow
                           Examples.plain_mean
                           Examples.store_opposite_prices) = 1).
  { apply Hone. right. eexists.
    split; [vm_compute; reflexivity | reflexivity]. }
  split; [exact Hstatus|].
  exact (proj1 (Hempty (or_introl Hstatus))).
Defined.

(** X4. When the sale table is not empty and the run persists at least one
    PropertyGrowth row, the store the rebuild leaves depends on the sale
    table alone: run on two stores with the same sales and any derived
    tables, it leaves the same store. *)
Theorem rebuilt_tables_depend_on_sales_alone :
  forall (libm_pow : float -> float -> float)
         (libm_cpow : float -> float -> float * float)
         (series_mean : list num -> float) (db1 db2 db1' db2' : Store),
    sales db1 = sales db2 ->
    sales db1 <> [] ->
    calculate_growth_metrics libm_pow libm_cpow series_mean db1 = Ok db1' ->
    calculate_growth_metrics libm_pow libm_cpow series_mean db2 = Ok db2' ->
    property_growth db1' <> [] ->
    db1' = db2'.
Proof.
  intros libm_pow libm_cpow series_mean db1 db2 db1' db2' Hs Hne H1 H2 Hrows.
  exact (rebuild_function_of_sales libm_pow libm_cpow series_mean
           db1 db2 db1' db2' Hs Hne H1 H2 Hrows).
Qed.

(** Witness for X4: the sample sales with no derived tables, and with the
    tables of an earlier rebuild. *)
Lemma rebuilt_tables_of_sample_sales :
  exists db',
    calculate_growth_metrics Examples.libm_pow Examples.libm_cpow
                             Examples.plain_mean Examples.store_mixed
    = Ok db'
    /\ calculate_growth_metrics
         Examples.libm_pow Examples.libm_cpow Examples.plain_mean
         (Examples.with_old_tables (sales Examples.store_mixed))
       = Ok db'.
Proof.
  destruct (calculate_growth_metrics
              Examples.libm_pow Examples.libm_cpow Examples.plain_mean
              Examples.store_mixed) as [db1'|e] eqn:H1;
    [|vm_compute in H1; discriminate].
  destruct (calculate_growth_metrics
              Examples.libm_pow Examples.libm_cpow Examples.plain_mean
              (Examples.with_old_tables (sales Examples.store_mixed)))
    as [db2'|e] eqn:H2; [|vm_compute in H2; discriminate].
  exists db1'. split; [reflexivity|]. f_equal. symmetry.
  apply (rebuilt_tables_depend_on_sales_alone
           Examples.libm_pow Examples.libm_cpow Examples.plain_mean
           Examples.store_mixed
           (Examples.with_old_tables (sales Examples.store_mixed))
           db1' db2' eq_refl ltac:(discriminate) H1 H2).
  vm_compute in H1. apply Ok_inj in H1. rewrite <- H1. discriminate.
Defined.

(** ** One group per key *)

Lemma NoDup_insert_by {A} (leb : A -> A -> bool) (x : A) (l : list A) :
  NoDup (x :: l) -> NoDup (insert_by leb x l).
Proof.
  induction l as [|y l IH]; intros Hnd; [exact Hnd|].
  simpl. destruct (leb x y); [exact Hnd|].
  inversion Hnd as [|? ? Hx Hyl]; subst.
  inversion Hyl as [|? ? Hy Hl]; subst.
  constructor.
  - rewrite in_insert_by. intros [Heq|Hin]; [|contradiction].
    apply Hx. left. exact Heq.
  - apply IH. constructor; [|exact Hl].
    intros Hin. apply Hx. right. exact Hin.
Qed.

Lemma NoDup_stable_sort {A} (leb : A -> A -> bool) (l : list A) :
  NoDup l -> NoDup (stable_sort leb l).
Proof.
  induction 1 as [|x l Hx Hl IH]; simpl; [constructor|].
  apply NoDup_insert_by. constructor; [|exact IH].
  rewrite in_stable_sort. exact Hx.
Qed.

Lemma NoDup_map_filter {A B} (f : A -> B) (P : A -> bool) (l : list A) :
  NoDup (map f l) -> NoDup (map f (filter P l)).
Proof.
  induction l as [|x l IH]; simpl; intros Hnd; [constructor|].
  inversion Hnd as [|? ? Hx Hl]; subst.
  destruct (P x); simpl; [|exact (IH Hl)].
  constructor; [|exact (IH Hl)].
  rewrite in_map_iff in *. intros (y & Hy & Hin). apply Hx.
  exists y. split; [exact Hy|]. apply filter_In in Hin. tauto.
Qed.

Section GroupByKeys.

Context {A K : Type} `{Key K}.
Variable key : A -> option K.

Lemma NoDup_dedup (l : list K) : NoDup (dedup l).
Proof.
  induction l as [|x l IH]; simpl; [constructor|].
  destruct (in_dec key_eq_dec x l); [exact IH|].
  constructor; [rewrite in_dedup; assumption | exact IH].
Qed.

Lemma NoDup_group_keys (l : list A) : NoDup (group_keys key l).
Proof. unfold group_keys. apply NoDup_stable_sort, NoDup_dedup. Qed.

Lemma map_fst_groupby (l : list A) :
  map fst (groupby key l) = group_keys key l.
Proof. unfold groupby. rewrite map_map. apply map_id. Qed.



Lemma sum_map_add {X} (f g : X -> nat) (l : list X) :
  fold_right Nat.add 0%nat (map (fun x => (f x + g x)%nat) l)
  = (fold_right Nat.add 0%nat (map f l)
     + fold_right Nat.add 0%nat (map g l))%nat.
Proof. induction l as [|x l IH]; simpl; lia. Qed.

(** A row with a key is counted by exactly one of the distinct keys. *)
Lemma row_counted_once (ks : list K) (r : A) :
  NoDup ks ->
  (forall k, key r = Some k -> In k ks) ->
  fold_right Nat.add 0%nat
             (map (fun k => if has_key key k r then 1%nat else 0%nat) ks)
  = List.length (match key r with Some k => [k] | None => [] end).
Proof.
  intros Hnd Hall. unfold has_key. destruct (key r) as [k0|].
  - specialize (Hall k0 eq_refl).
    induction ks as [|k ks IH]; [destruct Hall|].
    inversion Hnd as [|? ? Hnk Hnd']; subst. simpl.
    destruct (key_eq_dec k0 k) as [Heq|Hne].
    + assert (Hzero : forall ks', ~ In k0 ks' ->
                fold_right Nat.add 0%nat
                  (map (fun k' => if (if key_eq_dec k0 k' then true else false)
                                  then 1%nat else 0%nat) ks')
                = 0%nat).
      { induction ks' as [|k' ks' IH']; intros Hnot; [reflexivity|].
        simpl. destruct (key_eq_dec k0 k') as [->|_].
        - exfalso. apply Hnot. left. reflexivity.
        - apply IH'. intros Hin. apply Hnot. right. exact Hin. }
      rewrite (Hzero ks); [reflexivity|]. rewrite Heq. exact Hnk.
    + destruct Hall as [->|Hin]; [congruence|].
      rewrite (IH Hnd' Hin). reflexivity.
  - clear. induction ks as [|k ks IH]; simpl; [reflexivity | exact IH].
Qed.

(** The sizes of the groups add up to the number of rows that carry a
    key: each such row lies in exactly one group. *)
Lemma group_sizes_add_up (ks : list K) (l : list A) :
  NoDup ks ->
  (forall r k, In r l -> key r = Some k -> In k ks) ->
  fold_right Nat.add 0%nat
             (map (fun k => List.length (filter (has_key key k) l)) ks)
  = List.length (present_keys key l).
Proof.
  intros Hnd. induction l as [|r l IH]; intros Hall.
  - clear Hnd Hall. induction ks as [|k ks IHk]; [reflexivity|].
    simpl. exact IHk.
  - specialize (IH (fun r' k Hr Hk => Hall r' k (or_intror Hr) Hk)).
    unfold present_keys in *. cbn [flat_map].
    rewrite length_app, <- IH.
    rewrite <- (row_counted_once ks r Hnd
                  (fun k Hk => Hall r k (or_introl eq_refl) Hk)).
    rewrite <- sum_map_add. f_equal. apply map_ext. intros k.
    cbn [filter]. destruct (has_key key k r); reflexivity.
Qed.

Lemma groupby_sizes_add_up (l : list A) :
  fold_right Nat.add 0%nat
             (map (fun g => List.length (snd g)) (groupby key l))
  = List.length (present_keys key l).
Proof.
  unfold groupby. rewrite map_map. cbn [snd].
  apply group_sizes_add_up; [apply NoDup_group_keys|].
  intros r k Hr Hk. apply in_group_keys. eauto.
Qed.

End GroupByKeys.

(** ** The derived records *)

Section DerivedRecords.

Variable libm_pow : float -> float -> float.
Variable libm_cpow : float -> float -> float * float.

Lemma property_row_none (pid : string) (group : list Row.t) :
  property_row libm_pow libm_cpow pid group = Ok None ->
  (List.length group < 2)%nat.
Proof.
  unfold property_row. destruct group as [|first_sale rest]; [simpl; lia|].
  destruct (List.length (first_sale :: rest) <? 2)%nat eqn:Hlen.
  - intros _. apply Nat.ltb_lt. exact Hlen.
  - destruct (Cagr.calculate_cagr _ _ _ _ _); simpl; discriminate.
Qed.

(** The loop yields one record per group of two or more rows, in the
    order of the groups. *)
Lemma property_loop_ids (groups : list (string * list Row.t))
      (property_stats : list Stat.t) :
  property_loop libm_pow libm_cpow groups = Ok property_stats ->
  map Stat.property_id property_stats
  = map fst (filter (fun g => (2 <=? List.length (snd g))%nat) groups).
Proof.
  revert property_stats.
  induction groups as [|[pid group] groups IH]; intros stats Hloop;
    simpl in Hloop.
  - apply Ok_inj in Hloop. subst stats. reflexivity.
  - destruct (property_row libm_pow libm_cpow pid group) as [r|e] eqn:Hrow;
      simpl in Hloop; [|discriminate].
    destruct (property_loop libm_pow libm_cpow groups) as [rs|e] eqn:Hrest;
      simpl in Hloop; [|discriminate].
    apply Ok_inj in Hloop. subst stats. specialize (IH rs eq_refl).
    cbn [filter snd]. destruct r as [p|].
    + destruct (property_row_some _ _ _ _ _ Hrow) as (Hid & Hlen & _).
      apply Nat.leb_le in Hlen. rewrite Hlen. simpl. rewrite Hid, IH.
      reflexivity.
    + apply property_row_none in Hrow.
      assert (Hlen : (2 <=? List.length group)%nat = false)
        by (apply Nat.leb_gt; exact Hrow).
      rewrite Hlen. exact IH.
Qed.

(** The derived records carry distinct property ids: those of the
    properties with two or more rows in the frame. *)
Lemma derived_ids (df : list Row.t) (property_stats : list Stat.t) :
  derive_property_stats libm_pow libm_cpow (sort_df df) = Ok property_stats ->
  NoDup (map Stat.property_id property_stats)
  /\ forall pid,
      In pid (map Stat.property_id property_stats) <->
      (2 <= List.length (filter (has_key Row.property_id pid) df))%nat.
Proof.
  intros Hderive. unfold derive_property_stats in Hderive.
  rewrite (property_loop_ids _ _ Hderive). split.
  - apply NoDup_map_filter. rewrite map_fst_groupby. apply NoDup_group_keys.
  - intros pid. rewrite in_map_iff. split.
    + intros ([k group] & Hk & Hin). cbn [fst] in Hk. subst k.
      apply filter_In in Hin. destruct Hin as [Hin Hlen]. cbn [snd] in Hlen.
      apply in_groupby in Hin. destruct Hin as [-> _].
      rewrite length_filter_sort_df in Hlen. apply Nat.leb_le. exact Hlen.
    + intros Hlen.
      exists (pid, filter (has_key Row.property_id pid) (sort_df df)).
      split; [reflexivity|]. apply filter_In. cbn [snd]. split.
      * apply in_groupby. split; [reflexivity|].
        destruct (filter (has_key Row.property_id pid) df) as [|r rows] eqn:Hf;
          [simpl in Hlen; lia|].
        assert (Hr : In r (filter (has_key Row.property_id pid) df))
          by (rewrite Hf; left; reflexivity).
        apply filter_In in Hr. destruct Hr as [Hr Hkey].
        exists r. split; [apply in_sort_df; exact Hr|].
        apply has_key_true. exact Hkey.
      * rewrite length_filter_sort_df. apply Nat.leb_le. exact Hlen.
Qed.

End DerivedRecords.

(** X5. After a rebuild over a non-empty sale table that returns,
    PropertyGrowth holds one row for each property with two or more
    qualifying sales and for no other: the property ids of its rows are
    pairwise distinct. *)
Theorem property_growth_has_one_row_per_resold_property :
  forall (libm_pow : float -> float -> float)
         (libm_cpow : float -> float -> float * float)
         (series_mean : list num -> float) (db db' : Store),
    sales db <> [] ->
    calculate_growth_metrics libm_pow libm_cpow series_mean db = Ok db' ->
    exists property_stats,
      property_growth db' = map persisted_fields property_stats
      /\ NoDup (map Stat.property_id property_stats)
      /\ forall pid,
          In pid (map Stat.property_id property_stats) <->
          (2 <= List.length (filter (has_key Row.property_id pid)
                                    (prepare (sales db))))%nat.
Proof.
  intros libm_pow libm_cpow series_mean db db' Hsales Hrun.
  destruct (rebuild_completed _ _ _ _ _ Hsales Hrun)
    as (stats & Hderive & _ & Hpg & _).
  exists stats. rewrite Hpg, db_property_records_fields.
  split; [reflexivity|].
  exact (derived_ids libm_pow libm_cpow _ _ Hderive).
Qed.

(** Witness for X5: in the sample store only property A is sold twice
    with a price. *)
Lemma property_growth_rows_of_sample_store :
  sales Examples.store_mixed <> []
  /\ exists db' property_stats,
      calculate_growth_metrics Examples.libm_pow Examples.libm_cpow
                               Examples.plain_mean Examples.store_mixed
      = Ok db'
      /\ property_growth db' = map persisted_fields property_stats
      /\ map Stat.property_id property_stats = ["A"%string]
      /\ NoDup (map Stat.property_id property_stats).
Proof.
  split; [discriminate|].
  destruct (calculate_growth_metrics
              Examples.libm_pow Examples.libm_cpow Examples.plain_mean
              Examples.store_mixed) as [db'|e] eqn:Hrun;
    [|vm_compute in Hrun; discriminate].
  destruct (property_growth_has_one_row_per_resold_property
              Examples.libm_pow Examples.libm_cpow Examples.plain_mean
              Examples.store_mixed db' ltac:(discriminate) Hrun)
    as (stats & Hpg & Hnd & Hiff).
  exists db', stats. split; [reflexivity|]. split; [exact Hpg|].
  split; [|exact Hnd].
  vm_compute in Hrun. apply Ok_inj in Hrun. subst db'.
  cbn [property_growth] in Hpg.
  destruct stats as [|p [|q stats]]; try discriminate.
  cbn [map] in Hpg. injection Hpg as Hid _. cbn [map]. congruence.
Defined.

(** ** The holding period *)

Lemma first_min_bounds {A} (key : A -> Z) (f : A) (l : list A) :
  first_min key f l -> In f l /\ forall r, In r l -> key f <= key r.
Proof.
  intros (pre & post & -> & Hpre & Hpost). split.
  - apply in_or_app. right. left. reflexivity.
  - intros r Hr. apply in_app_or in Hr. destruct Hr as [Hr|[<-|Hr]].
    + specialize (Hpre r Hr). lia.
    + lia.
    + exact (Hpost r Hr).
Qed.

Lemma last_max_bounds {A} (key : A -> Z) (m : A) (l : list A) :
  last_max key m l -> In m l /\ forall r, In r l -> key r <= key m.
Proof.
  intros (pre & post & -> & Hpre & Hpost). split.
  - apply in_or_app. right. left. reflexivity.
  - intros r Hr. apply in_app_or in Hr. destruct Hr as [Hr|[<-|Hr]].
    + exact (Hpre r Hr).
    + lia.
    + specialize (Hpost r Hr). lia.
Qed.

Section HoldingPeriod.

Variable libm_pow : float -> float -> float.
Variable libm_cpow : float -> float -> float * float.

Lemma property_row_years (pid : string) (first_sale : Row.t)
      (rest : list Row.t) (p : Stat.t) :
  property_row libm_pow libm_cpow pid (first_sale :: rest) = Ok (Some p) ->
  Stat.years_held p
  = (float_of_Z (contract_ordinal (last (first_sale :: rest) first_sale)
                 - contract_ordinal first_sale) / 365.25)%float.
Proof.
  unfold property_row.
  destruct (List.length (first_sale :: rest) <? 2)%nat; [discriminate|].
  destruct (Cagr.calculate_cagr _ _ _ _ _) as [ct|e]; simpl; [|discriminate].
  intros Heq. apply Ok_inj in Heq. injection Heq as <-. reflexivity.
Qed.

Lemma derived_holding_period (df : list Row.t) (property_stats : list Stat.t)
      (p : Stat.t) :
  derive_property_stats libm_pow libm_cpow (sort_df df) = Ok property_stats ->
  In p property_stats ->
  exists first_sale last_sale,
    In first_sale df /\ In last_sale df
    /\ Row.property_id first_sale = Some (Stat.property_id p)
    /\ Row.property_id last_sale = Some (Stat.property_id p)
    /\ (forall r, In r df ->
                  Row.property_id r = Some (Stat.property_id p) ->
                  contract_ordinal first_sale <= contract_ordinal r
                  <= contract_ordinal last_sale)
    /\ 0 <= contract_ordinal last_sale - contract_ordinal first_sale
    /\ Stat.years_held p
       = (float_of_Z (contract_ordinal last_sale - contract_ordinal first_sale)
          / 365.25)%float
    /\ Stat.first_sale_price p = Row.purchase_price first_sale
    /\ Stat.last_sale_price p = Row.purchase_price last_sale.
Proof.
  intros Hderive Hin.
  destruct (property_loop_in _ _ _ _ _ Hderive Hin) as (pid & group & Hg & Hrow).
  destruct (property_row_some _ _ _ _ _ Hrow)
    as (Hid & _ & f & rest & -> & Hfp & Hlp & _).
  pose proof (property_row_years _ _ _ _ Hrow) as Hyears.
  apply in_groupby in Hg. destruct Hg as [Hgroup _].
  rewrite property_group_of_sorted in Hgroup.
  set (rows := filter (has_key Row.property_id pid) df) in *.
  assert (Hrows : rows <> []) by (intros Hnil; rewrite Hnil in Hgroup; discriminate).
  assert (Hfirst : first_min contract_ordinal f rows).
  { change f with (hd f (f :: rest)). rewrite Hgroup.
    apply (hd_stable_sort_first_min contract_ordinal); [reflexivity|exact Hrows]. }
  assert (Hlast : last_max contract_ordinal (last (f :: rest) f) rows).
  { rewrite Hgroup.
    apply (last_stable_sort_last_max contract_ordinal); [reflexivity|exact Hrows]. }
  destruct (first_min_bounds _ _ _ Hfirst) as [Hfin Hfle].
  destruct (last_max_bounds _ _ _ Hlast) as [Hlin Hlle].
  set (l := last (f :: rest) f) in *.
  assert (Hmem : forall r, In r rows <->
                           In r df /\ Row.property_id r = Some pid).
  { intros r. unfold rows. rewrite filter_In, has_key_true. reflexivity. }
  exists f, l. rewrite Hid.
  split; [apply Hmem; exact Hfin|]. split; [apply Hmem; exact Hlin|].
  split; [apply Hmem; exact Hfin|]. split; [apply Hmem; exact Hlin|].
  split.
  - intros r Hr Hk. assert (Hrr : In r rows) by (apply Hmem; auto).
    split; [apply Hfle | apply Hlle]; exact Hrr.
  - split; [specialize (Hfle l Hlin); lia|].
    split; [exact Hyears|]. split; assumption.
Qed.

End HoldingPeriod.

(** X6. Every derived record spans all qualifying sales of its property:
    its first and last price are those of two sales of the property between
    whose dates every other sale of the property lies, so the day count its
    [years_held] is computed from is never negative. *)
Theorem derived_record_spans_all_sales :
  forall (libm_pow : float -> float -> float)
         (libm_cpow : float -> float -> float * float)
         (df : list Row.t) (property_stats : list Stat.t) (p : Stat.t),
    derive_property_stats libm_pow libm_cpow (sort_df df) = Ok property_stats ->
    In p property_stats ->
    exists first_sale last_sale,
      In first_sale df /\ In last_sale df
      /\ Row.property_id first_sale = Some (Stat.property_id p)
      /\ Row.property_id last_sale = Some (Stat.property_id p)
      /\ (forall r, In r df ->
                    Row.property_id r = Some (Stat.property_id p) ->
                    contract_ordinal first_sale <= contract_ordinal r
                    <= contract_ordinal last_sale)
      /\ 0 <= contract_ordinal last_sale - contract_ordinal first_sale
      /\ Stat.years_held p
         = (float_of_Z (contract_ordinal last_sale
                        - contract_ordinal first_sale) / 365.25)%float
      /\ Stat.first_sale_price p = Row.purchase_price first_sale
      /\ Stat.last_sale_price p = Row.purchase_price last_sale.
Proof.
  intros libm_pow libm_cpow df stats p Hderive Hin.
  destruct (derived_holding_period libm_pow libm_cpow df stats p Hderive Hin)
    as (f & l & H).
  exists f, l. exact H.
Qed.

(** Witness for X6: the record derived for property A of the sample
    store. *)
Lemma derived_record_of_sample_store :
  exists property_stats p,
    derive_property_stats Examples.libm_pow Examples.libm_cpow
      (sort_df (prepare (sales Examples.store_mixed))) = Ok property_stats
    /\ In p property_stats
    /\ exists first_sale last_sale,
        In first_sale (prepare (sales Examples.store_mixed))
        /\ In last_sale (prepare (sales Examples.store_mixed))
        /\ Row.property_id first_sale = Some (Stat.property_id p)
        /\ Row.property_id last_sale = Some (Stat.property_id p)
        /\ (forall r, In r (prepare (sales Examples.store_mixed)) ->
                      Row.property_id r = Some (Stat.property_id p) ->
                      contract_ordinal first_sale <= contract_ordinal r
                      <= contract_ordinal last_sale)
        /\ 0 <= contract_ordinal last_sale - contract_ordinal first_sale
        /\ Stat.years_held p
           = (float_of_Z (contract_ordinal last_sale
                          - contract_ordinal first_sale) / 365.25)%float
        /\ Stat.first_sale_price p = Row.purchase_price first_sale
        /\ Stat.last_sale_price p = Row.purchase_price last_sale.
Proof.
  destruct (derive_property_stats Examples.libm_pow Examples.libm_cpow
              (sort_df (prepare (sales Examples.store_mixed))))
    as [stats|e] eqn:Hd; [|vm_compute in Hd; discriminate].
  destruct stats as [|p stats]; [vm_compute in Hd; discriminate|].
  exists (p :: stats), p. split; [reflexivity|].
  split; [left; reflexivity|].
  exact (derived_record_spans_all_sales
           Examples.libm_pow Examples.libm_cpow
           (prepare (sales Examples.store_mixed)) (p :: stats) p
           Hd (or_introl eq_refl)).
Defined.

(** ** The yearly rows *)

Lemma NoDup_range (lo hi : Z) : NoDup (range lo hi).
Proof.
  unfold range. apply NoDup_map_NoDup_ForallPairs; [|apply seq_NoDup].
  intros x y _ _ Heq. lia.
Qed.

(** Blocks of rows, each tagged with the element it was made for, have
    distinct keys when each block has. *)
Lemma NoDup_flat_map_tagged {X T B} (F : T -> list X) (kf : X -> B)
      (tag : B -> T) (ys : list T) :
  NoDup ys ->
  (forall y, NoDup (map kf (F y))) ->
  (forall y x, In x (F y) -> tag (kf x) = y) ->
  NoDup (map kf (flat_map F ys)).
Proof.
  intros Hnd Hblock Htag. induction Hnd as [|y ys Hy Hnd IH]; simpl;
    [constructor|].
  rewrite map_app. apply NoDup_app; [apply Hblock | exact IH |].
  intros a Ha Hb. apply in_map_iff in Ha. destruct Ha as (x & <- & Hx).
  apply in_map_iff in Hb. destruct Hb as (x' & Heq & Hx').
  apply in_flat_map in Hx'. destruct Hx' as (y' & Hy' & Hx').
  apply Hy. rewrite <- (Htag y x Hx), <- Heq, (Htag y' x' Hx'). exact Hy'.
Qed.

Section YearlyRows.

Variable series_mean : list num -> float.
Variable growth_df : list Stat.t.

Let street_block (Y : Z) : list StreetGrowth.t :=
  street_stats series_mean Y (year_active growth_df Y).

Let suburb_block (Y : Z) : list SuburbGrowth.t :=
  suburb_stats series_mean Y (year_active growth_df Y).

(** The loop concatenates the rows of the years it visits. *)
Lemma per_year_blocks (years : list Z) :
  per_year series_mean years growth_df
  = (flat_map street_block years, flat_map suburb_block years).
Proof.
  unfold per_year.
  set (step := fun (acc : list StreetGrowth.t * list SuburbGrowth.t) year =>
                 let year_active_df := year_active growth_df year in
                 if empty year_active_df then acc
                 else (fst acc ++ street_stats series_mean year year_active_df,
                       snd acc ++ suburb_stats series_mean year year_active_df)).
  assert (Hgen : forall ys acc,
             fold_left step ys acc
             = (fst acc ++ flat_map street_block ys,
                snd acc ++ flat_map suburb_block ys)).
  { induction ys as [|y ys IH]; intros [a b]; simpl.
    - rewrite !app_nil_r. reflexivity.
    - rewrite IH. unfold step at 1 2, street_block at 2, suburb_block at 2.
      cbv zeta. destruct (empty (year_active growth_df y)) eqn:Hempty.
      + apply empty_true in Hempty. rewrite Hempty. reflexivity.
      + cbn [fst snd]. rewrite <- !app_assoc. reflexivity. }
  rewrite Hgen. reflexivity.
Qed.

Lemma in_street_block (Y : Z) (r : StreetGrowth.t) :
  In r (street_block Y) ->
  StreetGrowth.year r = Y
  /\ street_members growth_df r <> []
  /\ StreetGrowth.property_count r
     = Z.of_nat (List.length (street_members growth_df r))
  /\ StreetGrowth.avg_cagr r
     = series_mean (map Stat.cagr (street_members growth_df r)).
Proof.
  unfold street_block, street_stats. rewrite in_map_iff.
  intros ([[[street suburb] post_code] rows] & <- & Hin).
  pose proof (groupby_group_nonempty _ _ _ _ Hin) as Hne.
  apply in_groupby in Hin. destruct Hin as [-> _].
  unfold street_members, street_year. cbn.
  repeat split; try reflexivity. exact Hne.
Qed.

Lemma in_suburb_block (Y : Z) (r : SuburbGrowth.t) :
  In r (suburb_block Y) ->
  SuburbGrowth.year r = Y
  /\ suburb_members growth_df r <> []
  /\ SuburbGrowth.property_count r
     = Z.of_nat (List.length (suburb_members growth_df r))
  /\ SuburbGrowth.avg_cagr r
     = series_mean (map Stat.cagr (suburb_members growth_df r)).
Proof.
  unfold suburb_block, suburb_stats. rewrite in_map_iff.
  intros ([suburb rows] & <- & Hin).
  pose proof (groupby_group_nonempty _ _ _ _ Hin) as Hne.
  apply in_groupby in Hin. destruct Hin as [-> _].
  unfold suburb_members. cbn.
  repeat split; try reflexivity. exact Hne.
Qed.

Lemma NoDup_street_block (Y : Z) : NoDup (map street_year (street_block Y)).
Proof.
  apply (NoDup_map_inv fst). unfold street_block, street_stats.
  rewrite !map_map.
  rewrite (map_ext _ fst); [rewrite map_fst_groupby; apply NoDup_group_keys|].
  intros [[[street suburb] post_code] rows]. reflexivity.
Qed.

Lemma NoDup_suburb_block (Y : Z) : NoDup (map suburb_year (suburb_block Y)).
Proof.
  apply (NoDup_map_inv fst). unfold suburb_block, suburb_stats.
  rewrite !map_map.
  rewrite (map_ext _ fst); [rewrite map_fst_groupby; apply NoDup_group_keys|].
  intros [suburb rows]. reflexivity.
Qed.

Lemma street_block_has (Y : Z) (k : string * string * Z) :
  (exists r, In r (street_block Y) /\ street_year r = (k, Y)) <->
  exists p, In p growth_df /\ stat_street_key p = Some k
            /\ Y <= Stat.last_sale_year p.
Proof.
  unfold street_block, street_stats. split.
  - intros (r & Hr & Hk). apply in_map_iff in Hr.
    destruct Hr as ([[[street suburb] post_code] rows] & <- & Hin).
    unfold street_year in Hk. cbn in Hk. injection Hk as <-.
    apply in_groupby in Hin. destruct Hin as (_ & p & Hp & Hkey).
    apply in_year_active in Hp. exists p. tauto.
  - intros (p & Hp & Hkey & Hle).
    assert (Hin : In (k, filter (has_key stat_street_key k)
                                (year_active growth_df Y))
                     (groupby stat_street_key (year_active growth_df Y))).
    { apply in_groupby. split; [reflexivity|]. exists p.
      split; [apply in_year_active; auto | exact Hkey]. }
    eexists. split; [apply in_map_iff; eexists; split; [reflexivity|exact Hin]|].
    destruct k as [[street suburb] post_code]. reflexivity.
Qed.

Lemma suburb_block_has (Y : Z) (k : string) :
  (exists r, In r (suburb_block Y) /\ suburb_year r = (k, Y)) <->
  exists p, In p growth_df /\ Stat.property_locality p = Some k
            /\ Y <= Stat.last_sale_year p.
Proof.
  unfold suburb_block, suburb_stats. split.
  - intros (r & Hr & Hk). apply in_map_iff in Hr.
    destruct Hr as ([suburb rows] & <- & Hin).
    unfold suburb_year in Hk. cbn in Hk. injection Hk as <-.
    apply in_groupby in Hin. destruct Hin as (_ & p & Hp & Hkey).
    apply in_year_active in Hp. exists p. tauto.
  - intros (p & Hp & Hkey & Hle).
    assert (Hin : In (k, filter (has_key Stat.property_locality k)
                                (year_active growth_df Y))
                     (groupby Stat.property_locality (year_active growth_df Y))).
    { apply in_groupby. split; [reflexivity|]. exists p.
      split; [apply in_year_active; auto | exact Hkey]. }
    eexists. split; [apply in_map_iff; eexists; split; [reflexivity|exact Hin]|].
    reflexivity.
Qed.

End YearlyRows.

Lemma in_years_range (Y : Z) : In Y years_range <-> 2001 <= Y <= 2025.
Proof. unfold years_range. rewrite in_range. lia. Qed.

Lemma in_per_year_street (series_mean : list num -> float)
      (growth_df : list Stat.t) (r : StreetGrowth.t) :
  In r (fst (per_year series_mean years_range growth_df)) ->
  2001 <= StreetGrowth.year r <= 2025
  /\ street_members growth_df r <> []
  /\ StreetGrowth.property_count r
     = Z.of_nat (List.length (street_members growth_df r))
  /\ StreetGrowth.avg_cagr r
     = series_mean (map Stat.cagr (street_members growth_df r)).
Proof.
  rewrite per_year_blocks. cbn [fst]. intros Hr. apply in_flat_map in Hr.
  destruct Hr as (Y & HY & Hr). apply in_street_block in Hr.
  destruct Hr as [Hy Hrest]. apply in_years_range in HY.
  split; [lia | exact Hrest].
Qed.

Lemma in_per_year_suburb (series_mean : list num -> float)
      (growth_df : list Stat.t) (r : SuburbGrowth.t) :
  In r (snd (per_year series_mean years_range growth_df)) ->
  2001 <= SuburbGrowth.year r <= 2025
  /\ suburb_members growth_df r <> []
  /\ SuburbGrowth.property_count r
     = Z.of_nat (List.length (suburb_members growth_df r))
  /\ SuburbGrowth.avg_cagr r
     = series_mean (map Stat.cagr (suburb_members growth_df r)).
Proof.
  rewrite per_year_blocks. cbn [snd]. intros Hr. apply in_flat_map in Hr.
  destruct Hr as (Y & HY & Hr). apply in_suburb_block in Hr.
  destruct Hr as [Hy Hrest]. apply in_years_range in HY.
  split; [lia | exact Hrest].
Qed.

Lemma per_year_street_keys (series_mean : list num -> float)
      (growth_df : list Stat.t) :
  NoDup (map street_year (fst (per_year series_mean years_range growth_df))).
Proof.
  rewrite per_year_blocks. cbn [fst].
  apply (NoDup_flat_map_tagged _ street_year snd).
  - apply NoDup_range.
  - intro Y. apply NoDup_street_block.
  - intros Y r Hr. apply in_street_block in Hr. destruct Hr as [Hy _].
    unfold street_year. cbn. exact Hy.
Qed.

Lemma per_year_suburb_keys (series_mean : list num -> float)
      (growth_df : list Stat.t) :
  NoDup (map suburb_year (snd (per_year series_mean years_range growth_df))).
Proof.
  rewrite per_year_blocks. cbn [snd].
  apply (NoDup_flat_map_tagged _ suburb_year snd).
  - apply NoDup_range.
  - intro Y. apply NoDup_suburb_block.
  - intros Y r Hr. apply in_suburb_block in Hr. destruct Hr as [Hy _].
    unfold suburb_year. cbn. exact Hy.
Qed.

(** X7. The yearly tables hold at most one row per street and year, and at
    most one per suburb and year; every row belongs to a year from 2001 to
    2025, is computed from at least one derived property, counts exactly the
    derived properties of its group whose last sale year is not before its
    year, and averages their rates. *)
Theorem yearly_rows_are_unique_and_counted :
  forall (series_mean : list num -> float) (growth_df : list Stat.t),
    let street_rows := fst (per_year series_mean years_range growth_df) in
    let suburb_rows := snd (per_year series_mean years_range growth_df) in
    NoDup (map street_year street_rows)
    /\ NoDup (map suburb_year suburb_rows)
    /\ (forall r, In r street_rows ->
          2001 <= StreetGrowth.year r <= 2025
          /\ 1 <= StreetGrowth.property_count r
          /\ StreetGrowth.property_count r
             = Z.of_nat (List.length (street_members growth_df r))
          /\ StreetGrowth.avg_cagr r
             = series_mean (map Stat.cagr (street_members growth_df r)))
    /\ (forall r, In r suburb_rows ->
          2001 <= SuburbGrowth.year r <= 2025
          /\ 1 <= SuburbGrowth.property_count r
          /\ SuburbGrowth.property_count r
             = Z.of_nat (List.length (suburb_members growth_df r))
          /\ SuburbGrowth.avg_cagr r
             = series_mean (map Stat.cagr (suburb_members growth_df r))).
Proof.
  intros series_mean growth_df. cbv zeta.
  split; [apply per_year_street_keys|].
  split; [apply per_year_suburb_keys|].
  split; intros r Hr.
  - apply in_per_year_street in Hr. destruct Hr as (Hy & Hne & Hc & Ha).
    split; [exact Hy|]. split; [|split; assumption].
    rewrite Hc. destruct (street_members growth_df r); [congruence|].
    cbn [List.length]. lia.
  - apply in_per_year_suburb in Hr. destruct Hr as (Hy & Hne & Hc & Ha).
    split; [exact Hy|]. split; [|split; assumption].
    rewrite Hc. destruct (suburb_members growth_df r); [congruence|].
    cbn [List.length]. lia.
Qed.

Lemma per_year_street_has (series_mean : list num -> float)
      (growth_df : list Stat.t) (Y : Z) (street : string * string * Z) :
  (exists r, In r (fst (per_year series_mean years_range growth_df))
             /\ street_year r = (street, Y))
  <-> 2001 <= Y <= 2025
      /\ exists p, In p growth_df /\ stat_street_key p = Some street
                   /\ Y <= Stat.last_sale_year p.
Proof.
  rewrite per_year_blocks. cbn [fst].
  rewrite <- in_years_range, <- (street_block_has series_mean). split.
  - intros (r & Hr & Hk). apply in_flat_map in Hr.
    destruct Hr as (Y' & HY' & Hr).
    pose proof (in_street_block _ _ _ _ Hr) as [Hy _].
    assert (Y' = Y) as ->.
    { rewrite <- Hy. unfold street_year in Hk. congruence. }
    split; [exact HY'|]. exists r. split; assumption.
  - intros (HY & r & Hr & Hk). exists r. split; [|exact Hk].
    apply in_flat_map. exists Y. split; assumption.
Qed.

Lemma per_year_suburb_has (series_mean : list num -> float)
      (growth_df : list Stat.t) (Y : Z) (suburb : string) :
  (exists r, In r (snd (per_year series_mean years_range growth_df))
             /\ suburb_year r = (suburb, Y))
  <-> 2001 <= Y <= 2025
      /\ exists p, In p growth_df /\ Stat.property_locality p = Some suburb
                   /\ Y <= Stat.last_sale_year p.
Proof.
  rewrite per_year_blocks. cbn [snd].
  rewrite <- in_years_range, <- (suburb_block_has series_mean). split.
  - intros (r & Hr & Hk). apply in_flat_map in Hr.
    destruct Hr as (Y' & HY' & Hr).
    pose proof (in_suburb_block _ _ _ _ Hr) as [Hy _].
    assert (Y' = Y) as ->.
    { rewrite <- Hy. unfold suburb_year in Hk. congruence. }
    split; [exact HY'|]. exists r. split; assumption.
  - intros (HY & r & Hr & Hk). exists r. split; [|exact Hk].
    apply in_flat_map. exists Y. split; assumption.
Qed.

(** X8. A street has a row for year Y exactly when Y lies between 2001 and
    2025 and some derived property of the street was last sold in year Y or
    later, whenever it was first sold; likewise for a suburb.  A property
    last sold in 2010 thus puts its street in every year from 2001 to
    2010. *)
Theorem yearly_row_exists_iff_later_last_sale :
  forall (series_mean : list num -> float) (growth_df : list Stat.t) (Y : Z),
    (forall street,
        (exists r, In r (fst (per_year series_mean years_range growth_df))
                   /\ street_year r = (street, Y))
        <-> 2001 <= Y <= 2025
            /\ exists p, In p growth_df /\ stat_street_key p = Some street
                         /\ Y <= Stat.last_sale_year p)
    /\ (forall suburb,
        (exists r, In r (snd (per_year series_mean years_range growth_df))
                   /\ suburb_year r = (suburb, Y))
        <-> 2001 <= Y <= 2025
            /\ exists p, In p growth_df
                         /\ Stat.property_locality p = Some suburb
                         /\ Y <= Stat.last_sale_year p).
Proof.
  intros series_mean growth_df Y. split.
  - intro street. apply per_year_street_has.
  - intro suburb. apply per_year_suburb_has.
Qed.

(** ** The all-time summaries *)

Lemma total_of_nat {X} (f : X -> nat) (l : list X) :
  total (map (fun x => Z.of_nat (f x)) l)
  = Z.of_nat (fold_right Nat.add 0%nat (map f l)).
Proof. unfold total. induction l as [|x l IH]; simpl; [reflexivity | lia]. Qed.

Lemma length_present_keys {A K} (key : A -> option K) (l : list A) :
  List.length (present_keys key l) = List.length (filter (with_key key) l).
Proof.
  unfold present_keys, with_key. induction l as [|r l IH]; [reflexivity|].
  cbn [flat_map filter]. destruct (key r); simpl; congruence.
Qed.


(** The first row of a keyed list found under [k] is the row of [k]. *)
Lemma find_keyed_in {K V} `{Key K} (f : K -> V) (ks : list K) (k : K) :
  In k ks ->
  find (fun kr => if key_eq_dec (fst kr) k then true else false)
       (map (fun k' => (k', f k')) ks) = Some (k, f k).
Proof.
  induction ks as [|a ks IH]; [intros []|]. intros Hin. cbn [map find fst].
  destruct (key_eq_dec a k) as [Heq|Hne]; [rewrite Heq; reflexivity|].
  destruct Hin as [Heq|Hin]; [contradiction | exact (IH Hin)].
Qed.

Lemma find_keyed_out {K V} `{Key K} (f : K -> V) (ks : list K) (k : K) :
  ~ In k ks ->
  find (fun kr => if key_eq_dec (fst kr) k then true else false)
       (map (fun k' => (k', f k')) ks) = None.
Proof.
  induction ks as [|a ks IH]; [reflexivity|]. intros Hnot. cbn [map find fst].
  destruct (key_eq_dec a k) as [Heq|Hne].
  - exfalso. apply Hnot. left. exact Heq.
  - apply IH. intros Hin. apply Hnot. right. exact Hin.
Qed.

Section JoinedAverage.

Context {K : Type} `{Key K}.
Variable key : Stat.t -> option K.
Variable series_mean : list num -> float.
Variable growth_df : list Stat.t.

Lemma joined_grouped :
  map (fun g => (fst g, series_mean (map Stat.cagr (snd g))))
      (groupby key growth_df)
  = map (fun k => (k, series_mean
                        (map Stat.cagr (filter (has_key key k) growth_df))))
        (group_keys key growth_df).
Proof. unfold groupby. rewrite map_map. reflexivity. Qed.

Lemma joined_avg_cagr_matched (k : K) :
  (exists p, In p growth_df /\ key p = Some k) ->
  joined_avg_cagr key series_mean growth_df k
  = series_mean (map Stat.cagr (filter (has_key key k) growth_df)).
Proof.
  intros Hex. apply in_group_keys in Hex. unfold joined_avg_cagr.
  rewrite joined_grouped, (find_keyed_in _ _ _ Hex). reflexivity.
Qed.

Lemma joined_avg_cagr_unmatched (k : K) :
  (forall p, In p growth_df -> key p <> Some k) ->
  joined_avg_cagr key series_mean growth_df k = nan.
Proof.
  intros Hnone. unfold joined_avg_cagr.
  rewrite joined_grouped, find_keyed_out; [reflexivity|].
  rewrite in_group_keys. intros (p & Hp & Hk). exact (Hnone p Hp Hk).
Qed.

End JoinedAverage.

Section SummaryShape.

Variable series_mean : list num -> float.
Variable df : list Row.t.
Variable growth_df : list Stat.t.

Lemma street_summary_df_shape :
  street_summary_df series_mean df growth_df
  = map (fun k =>
           (k, (nunique Row.property_id (filter (has_key row_street_key k) df),
                Z.of_nat (List.length (filter (has_key row_street_key k) df))),
            joined_avg_cagr stat_street_key series_mean growth_df k))
        (group_keys row_street_key df).
Proof.
  unfold street_summary_df, merge_left.
  change (groupby row_street_key df)
    with (map (fun k => (k, filter (has_key row_street_key k) df))
              (group_keys row_street_key df)).
  rewrite !map_map. reflexivity.
Qed.

Lemma suburb_summary_df_shape :
  suburb_summary_df series_mean df growth_df
  = map (fun k =>
           (k, (nunique Row.property_id
                        (filter (has_key Row.property_locality k) df),
                Z.of_nat (List.length
                            (filter (has_key Row.property_locality k) df))),
            joined_avg_cagr Stat.property_locality series_mean growth_df k))
        (group_keys Row.property_locality df).
Proof.
  unfold suburb_summary_df, merge_left.
  change (groupby Row.property_locality df)
    with (map (fun k => (k, filter (has_key Row.property_locality k) df))
              (group_keys Row.property_locality df)).
  rewrite !map_map. reflexivity.
Qed.

Lemma street_summary_records_shape :
  map (fun s => (street_of s,
                 (StreetSummary.unique_properties s,
                  StreetSummary.total_sales s),
                 StreetSummary.avg_cagr s))
      (street_summary_records series_mean df growth_df)
  = street_summary_df series_mean df growth_df.
Proof.
  unfold street_summary_records, is_top_performer.
  set (summary := street_summary_df series_mean df growth_df).
  cbv zeta. rewrite (map_map snd), map_map.
  set (flag := fun row : string * string * Z * (Z * Z) * float =>
                 if PrimFloat.leb (cagr_threshold (map snd summary)) (snd row)
                 then 1 else 0).
  transitivity (map fst (combine summary (map flag summary)));
    [|apply map_fst_combine_map].
  apply map_ext. intros [[[[[street suburb] post_code] [u t]] avg] fl].
  reflexivity.
Qed.

Lemma suburb_summary_records_shape :
  map (fun s => (suburb_of s,
                 (SuburbSummary.unique_properties s,
                  SuburbSummary.total_sales s),
                 SuburbSummary.avg_cagr s))
      (suburb_summary_records series_mean df growth_df)
  = suburb_summary_df series_mean df growth_df.
Proof.
  unfold suburb_summary_records, is_top_performer.
  set (summary := suburb_summary_df series_mean df growth_df).
  cbv zeta. rewrite (map_map snd), map_map.
  set (flag := fun row : string * (Z * Z) * float =>
                 if PrimFloat.leb (cagr_threshold (map snd summary)) (snd row)
                 then 1 else 0).
  transitivity (map fst (combine summary (map flag summary)));
    [|apply map_fst_combine_map].
  apply map_ext. intros [[[suburb [u t]] avg] fl].
  reflexivity.
Qed.

Lemma street_summary_keys :
  map street_of (street_summary_records series_mean df growth_df)
  = group_keys row_street_key df.
Proof.
  transitivity
    (map (fun x : string * string * Z * (Z * Z) * float => fst (fst x))
         (street_summary_df series_mean df growth_df)).
  - rewrite <- street_summary_records_shape, map_map. reflexivity.
  - rewrite street_summary_df_shape, map_map. apply map_id.
Qed.

Lemma suburb_summary_keys :
  map suburb_of (suburb_summary_records series_mean df growth_df)
  = group_keys Row.property_locality df.
Proof.
  transitivity
    (map (fun x : string * (Z * Z) * float => fst (fst x))
         (suburb_summary_df series_mean df growth_df)).
  - rewrite <- suburb_summary_records_shape, map_map. reflexivity.
  - rewrite suburb_summary_df_shape, map_map. apply map_id.
Qed.

Lemma street_summary_sales :
  total (map StreetSummary.total_sales
             (street_summary_records series_mean df growth_df))
  = Z.of_nat (List.length (filter (with_key row_street_key) df)).
Proof.
  transitivity
    (total (map (fun x : string * string * Z * (Z * Z) * float =>
                   snd (snd (fst x)))
                (street_summary_df series_mean df growth_df))).
  - rewrite <- street_summary_records_shape, map_map. reflexivity.
  - rewrite street_summary_df_shape, map_map. cbn [fst snd].
    rewrite (total_of_nat
               (fun k => List.length (filter (has_key row_street_key k) df))).
    rewrite group_sizes_add_up.
    + rewrite length_present_keys. reflexivity.
    + apply NoDup_group_keys.
    + intros r k Hr Hk. apply in_group_keys. eauto.
Qed.

Lemma suburb_summary_sales :
  total (map SuburbSummary.total_sales
             (suburb_summary_records series_mean df growth_df))
  = Z.of_nat (List.length (filter (with_key Row.property_locality) df)).
Proof.
  transitivity
    (total (map (fun x : string * (Z * Z) * float => snd (snd (fst x)))
                (suburb_summary_df series_mean df growth_df))).
  - rewrite <- suburb_summary_records_shape, map_map. reflexivity.
  - rewrite suburb_summary_df_shape, map_map. cbn [fst snd].
    rewrite (total_of_nat
               (fun k => List.length
                           (filter (has_key Row.property_locality k) df))).
    rewrite group_sizes_add_up.
    + rewrite length_present_keys. reflexivity.
    + apply NoDup_group_keys.
    + intros r k Hr Hk. apply in_group_keys. eauto.
Qed.

Lemma in_street_summary (s : StreetSummary.t) :
  In s (street_summary_records series_mean df growth_df) ->
  (exists r, In r df /\ row_street_key r = Some (street_of s))
  /\ StreetSummary.unique_properties s
     = nunique Row.property_id
               (filter (has_key row_street_key (street_of s)) df)
  /\ StreetSummary.total_sales s
     = Z.of_nat (List.length
                   (filter (has_key row_street_key (street_of s)) df))
  /\ StreetSummary.avg_cagr s
     = joined_avg_cagr stat_street_key series_mean growth_df (street_of s).
Proof.
  intros Hin.
  apply (in_map (fun s => (street_of s,
                           (StreetSummary.unique_properties s,
                            StreetSummary.total_sales s),
                           StreetSummary.avg_cagr s))) in Hin.
  rewrite street_summary_records_shape, street_summary_df_shape in Hin.
  apply in_map_iff in Hin. destruct Hin as (k & Heq & Hk).
  apply in_group_keys in Hk.
  injection Heq as Hkey Hu Ht Ha. rewrite <- Hkey, <- Hu, <- Ht, <- Ha.
  repeat split. exact Hk.
Qed.

Lemma in_suburb_summary (s : SuburbSummary.t) :
  In s (suburb_summary_records series_mean df growth_df) ->
  (exists r, In r df /\ Row.property_locality r = Some (suburb_of s))
  /\ SuburbSummary.unique_properties s
     = nunique Row.property_id
               (filter (has_key Row.property_locality (suburb_of s)) df)
  /\ SuburbSummary.total_sales s
     = Z.of_nat (List.length
                   (filter (has_key Row.property_locality (suburb_of s)) df))
  /\ SuburbSummary.avg_cagr s
     = joined_avg_cagr Stat.property_locality series_mean growth_df
                       (suburb_of s).
Proof.
  intros Hin.
  apply (in_map (fun s => (suburb_of s,
                           (SuburbSummary.unique_properties s,
                            SuburbSummary.total_sales s),
                           SuburbSummary.avg_cagr s))) in Hin.
  rewrite suburb_summary_records_shape, suburb_summary_df_shape in Hin.
  apply in_map_iff in Hin. destruct Hin as (k & Heq & Hk).
  apply in_group_keys in Hk.
  injection Heq as Hkey Hu Ht Ha. rewrite <- Hkey, <- Hu, <- Ht, <- Ha.
  repeat split. exact Hk.
Qed.


End SummaryShape.

Lemma flag_of_null (threshold : float) : flag_of threshold nan = 0.
Proof. reflexivity. Qed.


(** X10. The average of a summary row is joined from the derived
    properties: the mean rate of the derived properties of the street (of
    the suburb) when there is one, and null otherwise, in which case the row
    is not flagged as a top performer. *)
Theorem summary_average_is_left_joined :
  forall (series_mean : list num -> float) (df : list Row.t)
         (growth_df : list Stat.t),
    (forall s, In s (street_summary_records series_mean df growth_df) ->
       ((exists p, In p growth_df /\ stat_street_key p = Some (street_of s)) ->
        StreetSummary.avg_cagr s
        = series_mean
            (map Stat.cagr
                 (filter (has_key stat_street_key (street_of s)) growth_df)))
       /\ ((forall p, In p growth_df ->
                      stat_street_key p <> Some (street_of s)) ->
           StreetSummary.avg_cagr s = nan
           /\ StreetSummary.is_top_performer s = 0))
    /\ (forall s, In s (suburb_summary_records series_mean df growth_df) ->
       ((exists p, In p growth_df
                   /\ Stat.property_locality p = Some (suburb_of s)) ->
        SuburbSummary.avg_cagr s
        = series_mean
            (map Stat.cagr
                 (filter (has_key Stat.property_locality (suburb_of s))
                         growth_df)))
       /\ ((forall p, In p growth_df ->
                      Stat.property_locality p <> Some (suburb_of s)) ->
           SuburbSummary.avg_cagr s = nan
           /\ SuburbSummary.is_top_performer s = 0)).
Proof.
  intros series_mean df growth_df. split; intros s Hs.
  - pose proof (street_summary_flag _ _ _ _ Hs) as Hflag.
    apply in_street_summary in Hs. destruct Hs as (_ & _ & _ & Ha).
    split.
    + intros Hex. rewrite Ha. apply joined_avg_cagr_matched. exact Hex.
    + intros Hnone. rewrite Hflag, Ha.
      rewrite joined_avg_cagr_unmatched by exact Hnone.
      split; [reflexivity | apply flag_of_null].
  - pose proof (suburb_summary_flag _ _ _ _ Hs) as Hflag.
    apply in_suburb_summary in Hs. destruct Hs as (_ & _ & _ & Ha).
    split.
    + intros Hex. rewrite Ha. apply joined_avg_cagr_matched. exact Hex.
    + intros Hnone. rewrite Hflag, Ha.
      rewrite joined_avg_cagr_unmatched by exact Hnone.
      split; [reflexivity | apply flag_of_null].
Qed.

(** Witness for X10: with a derived property on High St only, the row of
    Low St has a null average and no flag. *)
Lemma low_street_without_derived_property :
  exists s,
    In s (street_summary_records Examples.plain_mean Examples.frame_sample
                                 Examples.growth_2026)
    /\ StreetSummary.street_name s = "Low St"%string
    /\ StreetSummary.avg_cagr s = nan
    /\ StreetSummary.is_top_performer s = 0.
Proof.
  destruct (street_summary_records Examples.plain_mean Examples.frame_sample
                                   Examples.growth_2026)
    as [|s1 [|s2 rows]] eqn:Hrows; try (vm_compute in Hrows; discriminate).
  pose proof (summary_average_is_left_joined
                Examples.plain_mean Examples.frame_sample
                Examples.growth_2026) as [Hstreet _].
  rewrite Hrows in Hstreet.
  assert (Hname : StreetSummary.street_name s2 = "Low St"%string).
  { vm_compute in Hrows. injection Hrows as _ <- _. reflexivity. }
  assert (Hkey : street_of s2 = ("Low St"%string, "Epping"%string, 2121)).
  { vm_compute in Hrows. injection Hrows as _ <- _. reflexivity. }
  exists s2. split; [right; left; reflexivity|].
  split; [exact Hname|].
  apply (Hstreet s2 (or_intror (or_introl eq_refl))).
  intros p [<-|[]]. rewrite Hkey. vm_compute. discriminate.
Defined.

(** ** The chunked inserts *)

Lemma chunks_fuel_sizes {A} (n fuel : nat) (l : list A) (c : list A) :
  (0 < n)%nat -> In c (chunks_fuel fuel n l) ->
  (1 <= List.length c <= n)%nat.
Proof.
  intros Hn. revert l. induction fuel as [|fuel IH]; intros l Hin.
  - destruct l; destruct Hin.
  - destruct l as [|x l]; [destruct Hin|].
    change (chunks_fuel (S fuel) n (x :: l))
      with (firstn n (x :: l) :: chunks_fuel fuel n (skipn n (x :: l))) in Hin.
    destruct Hin as [<-|Hin]; [|exact (IH _ Hin)].
    rewrite length_firstn.
    change (List.length (x :: l)) with (S (List.length l)). lia.
Qed.

(** X11. The records are inserted in slices of at most [n] rows, none of
    them empty; the slices put together are the records, in order, so the
    table filled slice by slice holds every record once. *)
Theorem chunked_insert_keeps_every_record :
  forall (A : Type) (n : nat) (records : list A),
    (0 < n)%nat ->
    List.concat (chunks n records) = records
    /\ (forall c, In c (chunks n records) -> (1 <= List.length c <= n)%nat)
    /\ bulk_insert_chunked n records = records.
Proof.
  intros A n records Hn. split; [|split].
  - unfold chunks. apply concat_chunks_fuel; [exact Hn | lia].
  - intros c Hc. exact (chunks_fuel_sizes n _ records c Hn Hc).
  - apply bulk_insert_chunked_all. exact Hn.
Qed.

(** Witness for X11: slices of [chunk_size] rows over the sample frame. *)
Lemma chunked_insert_of_sample_frame :
  (0 < chunk_size)%nat
  /\ List.concat (chunks chunk_size Examples.frame_sample)
     = Examples.frame_sample
  /\ (forall c, In c (chunks chunk_size Examples.frame_sample) ->
                (1 <= List.length c <= chunk_size)%nat)
  /\ bulk_insert_chunked chunk_size Examples.frame_sample
     = Examples.frame_sample.
Proof.
  split; [apply chunk_size_pos|].
  apply (chunked_insert_keeps_every_record Row.t chunk_size
           Examples.frame_sample).
  apply chunk_size_pos.
Defined.

(** ** The tables after a rebuild *)

(** X12. After a rebuild that derived at least one record, the four
    aggregate tables have a key: StreetGrowth holds one row per street and
    year, SuburbGrowth one per suburb and year, StreetSummary one per
    street, SuburbSummary one per suburb; and the [total_sales] of each
    summary add up to the number of qualifying sales of the store that
    carry the street, respectively the suburb. *)
Theorem rebuilt_tables_have_unique_keys :
  forall (libm_pow : float -> float -> float)
         (libm_cpow : float -> float -> float * float)
         (series_mean : list num -> float) (db db' : Store),
    sales db <> [] ->
    calculate_growth_metrics libm_pow libm_cpow series_mean db = Ok db' ->
    property_growth db' <> [] ->
    NoDup (map street_year (street_growth db'))
    /\ NoDup (map suburb_year (suburb_growth db'))
    /\ NoDup (map street_of (street_summary db'))
    /\ NoDup (map suburb_of (suburb_summary db'))
    /\ total (map StreetSummary.total_sales (street_summary db'))
       = Z.of_nat (List.length (filter (with_key row_street_key)
                                       (prepare (sales db))))
    /\ total (map SuburbSummary.total_sales (suburb_summary db'))
       = Z.of_nat (List.length (filter (with_key Row.property_locality)
                                       (prepare (sales db)))).
Proof.
  intros libm_pow libm_cpow series_mean db db' Hsales Hrun Hrows.
  destruct (rebuild_completed _ _ _ _ _ Hsales Hrun)
    as (stats & _ & _ & Hpg & _ & Hfull).
  assert (Hstats : stats <> []).
  { intros ->. apply Hrows. rewrite Hpg. reflexivity. }
  destruct (Hfull Hstats) as (Hsg & Hbg & Hss & Hbs).
  rewrite Hsg, Hbg, Hss, Hbs.
  split; [apply per_year_street_keys|].
  split; [apply per_year_suburb_keys|].
  split; [rewrite street_summary_keys; apply NoDup_group_keys|].
  split; [rewrite suburb_summary_keys; apply NoDup_group_keys|].
  rewrite street_summary_sales, suburb_summary_sales.
  rewrite !length_filter_sort_df. split; reflexivity.
Qed.

(** Witness for X12: the rebuild of the sample store, whose three priced
    sales lie on one street. *)
Lemma rebuilt_tables_of_sample_store :
  sales Examples.store_mixed <> []
  /\ exists db',
      calculate_growth_metrics Examples.libm_pow Examples.libm_cpow
                               Examples.plain_mean Examples.store_mixed
      = Ok db'
      /\ property_growth db' <> []
      /\ NoDup (map street_year (street_growth db'))
      /\ NoDup (map suburb_year (suburb_growth db'))
      /\ NoDup (map street_of (street_summary db'))
      /\ NoDup (map suburb_of (suburb_summary db'))
      /\ total (map StreetSummary.total_sales (street_summary db'))
         = Z.of_nat (List.length (filter (with_key row_street_key)
                                         (prepare (sales Examples.store_mixed))))
      /\ total (map SuburbSummary.total_sales (suburb_summary db'))
         = Z.of_nat (List.length (filter (with_key Row.property_locality)
                                         (prepare (sales Examples.store_mixed)))).
Proof.
  split; [discriminate|].
  destruct (calculate_growth_metrics
              Examples.libm_pow Examples.libm_cpow Examples.plain_mean
              Examples.store_mixed) as [db'|e] eqn:Hrun;
    [|vm_compute in Hrun; discriminate].
  assert (Hrows : property_growth db' <> []).
  { vm_compute in Hrun. apply Ok_inj in Hrun. subst db'. discriminate. }
  exists db'. split; [reflexivity|]. split; [exact Hrows|].
  exact (rebuilt_tables_have_unique_keys
           Examples.libm_pow Examples.libm_cpow Examples.plain_mean
           Examples.store_mixed db' ltac:(discriminate) Hrun Hrows).
Defined.

(** ** The yearly rows from year to year, and against the summaries *)

Lemma nonempty_has_member {A} (l : list A) : l <> [] -> exists x, In x l.
Proof. destruct l as [|x l]; [congruence | exists x; left; reflexivity]. Qed.

Lemma length_filter_sub {A} (P Q1 Q0 : A -> bool) (l : list A) :
  (forall x, Q1 x = true -> Q0 x = true) ->
  (List.length (filter P (filter Q1 l))
   <= List.length (filter P (filter Q0 l)))%nat.
Proof.
  intros Himp. induction l as [|x l IH]; [reflexivity|]. cbn [filter].
  destruct (Q1 x) eqn:H1.
  - rewrite (Himp x H1). cbn [filter]. destruct (P x); cbn [List.length]; lia.
  - destruct (Q0 x); [|exact IH]. cbn [filter].
    destruct (P x); cbn [List.length]; lia.
Qed.

Lemma filter_all {A} (P : A -> bool) (l : list A) :
  (forall x, In x l -> P x = true) -> filter P l = l.
Proof.
  induction l as [|x l IH]; [reflexivity|]. intros Hall. cbn [filter].
  rewrite (Hall x (or_introl eq_refl)), IH; [reflexivity|].
  intros y Hy. apply Hall. right. exact Hy.
Qed.

Lemma year_active_all (growth_df : list Stat.t) (Y : Z) :
  (forall p, In p growth_df -> Y <= Stat.last_sale_year p) ->
  year_active growth_df Y = growth_df.
Proof.
  intros Hall. unfold year_active. apply filter_all.
  intros p Hp. apply Z.leb_le. exact (Hall p Hp).
Qed.

Lemma year_active_count_shrinks (P : Stat.t -> bool)
      (growth_df : list Stat.t) (Y : Z) :
  Z.of_nat (List.length (filter P (year_active growth_df Y)))
  <= Z.of_nat (List.length (filter P (year_active growth_df (Y - 1)))).
Proof.
  apply Nat2Z.inj_le. unfold year_active. apply length_filter_sub.
  intros p. rewrite !Z.leb_le. lia.
Qed.

(** X13. A street with a row for a year after 2001 has a row for the year
    before, and its [property_count] there is at least as large: the count
    of a street never increases from one year to the next.  Likewise for a
    suburb. *)
Theorem yearly_property_count_never_increases :
  forall (series_mean : list num -> float) (growth_df : list Stat.t),
    (forall r,
        In r (fst (per_year series_mean years_range growth_df)) ->
        2001 < StreetGrowth.year r ->
        exists r0,
          In r0 (fst (per_year series_mean years_range growth_df))
          /\ street_year r0 = (fst (street_year r), StreetGrowth.year r - 1)
          /\ StreetGrowth.property_count r <= StreetGrowth.property_count r0)
    /\ (forall r,
        In r (snd (per_year series_mean years_range growth_df)) ->
        2001 < SuburbGrowth.year r ->
        exists r0,
          In r0 (snd (per_year series_mean years_range growth_df))
          /\ suburb_year r0 = (SuburbGrowth.suburb r, SuburbGrowth.year r - 1)
          /\ SuburbGrowth.property_count r <= SuburbGrowth.property_count r0).
Proof.
  intros series_mean growth_df. split; intros r Hr Hgt.
  - pose proof (in_per_year_street _ _ _ Hr) as (Hy & Hne & Hc & _).
    destruct (nonempty_has_member _ Hne) as [p Hp].
    unfold street_members in Hp. apply filter_In in Hp.
    destruct Hp as [Hp Hk]. apply in_year_active in Hp.
    apply has_key_true in Hk.
    destruct (proj2 (per_year_street_has series_mean growth_df
                       (StreetGrowth.year r - 1) (fst (street_year r))))
      as (r0 & Hr0 & Hk0).
    { split; [lia|]. exists p. split; [tauto|]. split; [exact Hk | lia]. }
    exists r0. split; [exact Hr0|]. split; [exact Hk0|].
    pose proof (in_per_year_street _ _ _ Hr0) as (_ & _ & Hc0 & _).
    assert (Hy0 : StreetGrowth.year r0 = StreetGrowth.year r - 1)
      by (unfold street_year in Hk0; congruence).
    rewrite Hc, Hc0. unfold street_members. rewrite Hy0, Hk0. cbn [fst].
    apply year_active_count_shrinks.
  - pose proof (in_per_year_suburb _ _ _ Hr) as (Hy & Hne & Hc & _).
    destruct (nonempty_has_member _ Hne) as [p Hp].
    unfold suburb_members in Hp. apply filter_In in Hp.
    destruct Hp as [Hp Hk]. apply in_year_active in Hp.
    apply has_key_true in Hk.
    destruct (proj2 (per_year_suburb_has series_mean growth_df
                       (SuburbGrowth.year r - 1) (SuburbGrowth.suburb r)))
      as (r0 & Hr0 & Hk0).
    { split; [lia|]. exists p. split; [tauto|]. split; [exact Hk | lia]. }
    exists r0. split; [exact Hr0|]. split; [exact Hk0|].
    pose proof (in_per_year_suburb _ _ _ Hr0) as (_ & _ & Hc0 & _).
    assert (Hy0 : SuburbGrowth.year r0 = SuburbGrowth.year r - 1)
      by (unfold suburb_year in Hk0; congruence).
    assert (Hs0 : SuburbGrowth.suburb r0 = SuburbGrowth.suburb r)
      by (unfold suburb_year in Hk0; congruence).
    rewrite Hc, Hc0. unfold suburb_members. rewrite Hy0, Hs0.
    apply year_active_count_shrinks.
Qed.

(** Witness for X13: High St in 2011, after the last sale of P1 in 2010,
    counts one property; its row of 2010 counts two. *)
Lemma high_street_count_from_2010_to_2011 :
  exists r r0,
    In r (fst (per_year Examples.plain_mean years_range Examples.growth_sample))
    /\ In r0 (fst (per_year Examples.plain_mean years_range
                            Examples.growth_sample))
    /\ street_year r = ("High St"%string, "Ryde"%string, 2112, 2011)
    /\ street_year r0 = ("High St"%string, "Ryde"%string, 2112, 2010)
    /\ StreetGrowth.property_count r = 1
    /\ StreetGrowth.property_count r0 = 2
    /\ StreetGrowth.property_count r <= StreetGrowth.property_count r0.
Proof.
  set (r := {| StreetGrowth.street_name := "High St"%string;
               StreetGrowth.suburb := "Ryde"%string;
               StreetGrowth.post_code := 2112;
               StreetGrowth.year := 2011;
               StreetGrowth.avg_cagr := Examples.plain_mean [Flt 0.1];
               StreetGrowth.property_count := 1 |}).
  assert (Hr : In r (fst (per_year Examples.plain_mean years_range
                                   Examples.growth_sample))).
  { vm_compute. do 20 right. left. reflexivity. }
  destruct (proj1 (yearly_property_count_never_increases
                     Examples.plain_mean Examples.growth_sample)
                  r Hr ltac:(cbn; lia))
    as (r0 & Hr0 & Hk0 & Hle).
  exists r, r0. split; [exact Hr|]. split; [exact Hr0|].
  split; [reflexivity|]. split; [exact Hk0|]. split; [reflexivity|].
  split; [|exact Hle].
  pose proof (in_per_year_street _ _ _ Hr0) as (_ & _ & Hc0 & _).
  assert (Hy0 : StreetGrowth.year r0 = 2010)
    by (unfold street_year in Hk0; cbn in Hk0; congruence).
  rewrite Hc0. unfold street_members. rewrite Hy0, Hk0. reflexivity.
Defined.

(** X14. In a year that none of the derived properties was last sold
    before, the yearly row of a street agrees with the all-time summary:
    it carries the street's summary average, and counts all the derived
    properties of the street.  Likewise for a suburb. *)
Theorem yearly_row_equals_summary_while_all_active :
  forall (series_mean : list num -> float) (df : list Row.t)
         (growth_df : list Stat.t),
    (forall r s,
        In r (fst (per_year series_mean years_range growth_df)) ->
        In s (street_summary_records series_mean df growth_df) ->
        street_of s = fst (street_year r) ->
        (forall p, In p growth_df ->
                   StreetGrowth.year r <= Stat.last_sale_year p) ->
        StreetGrowth.avg_cagr r = StreetSummary.avg_cagr s
        /\ StreetGrowth.property_count r
           = Z.of_nat (List.length
                         (filter (has_key stat_street_key (street_of s))
                                 growth_df)))
    /\ (forall r s,
        In r (snd (per_year series_mean years_range growth_df)) ->
        In s (suburb_summary_records series_mean df growth_df) ->
        suburb_of s = SuburbGrowth.suburb r ->
        (forall p, In p growth_df ->
                   SuburbGrowth.year r <= Stat.last_sale_year p) ->
        SuburbGrowth.avg_cagr r = SuburbSummary.avg_cagr s
        /\ SuburbGrowth.property_count r
           = Z.of_nat (List.length
                         (filter (has_key Stat.property_locality (suburb_of s))
                                 growth_df))).
Proof.
  intros series_mean df growth_df. split; intros r s Hr Hs Hkey Hall.
  - apply in_per_year_street in Hr. destruct Hr as (_ & Hne & Hc & Ha).
    apply in_street_summary in Hs. destruct Hs as (_ & _ & _ & Hs).
    unfold street_members in *. rewrite (year_active_all _ _ Hall) in *.
    rewrite <- Hkey in *.
    destruct (nonempty_has_member _ Hne) as [p Hp]. apply filter_In in Hp.
    destruct Hp as [Hp Hk]. apply has_key_true in Hk.
    rewrite Hs, Ha, Hc. split; [|reflexivity].
    symmetry. apply joined_avg_cagr_matched. exists p. split; assumption.
  - apply in_per_year_suburb in Hr. destruct Hr as (_ & Hne & Hc & Ha).
    apply in_suburb_summary in Hs. destruct Hs as (_ & _ & _ & Hs).
    unfold suburb_members in *. rewrite (year_active_all _ _ Hall) in *.
    rewrite <- Hkey in *.
    destruct (nonempty_has_member _ Hne) as [p Hp]. apply filter_In in Hp.
    destruct Hp as [Hp Hk]. apply has_key_true in Hk.
    rewrite Hs, Ha, Hc. split; [|reflexivity].
    symmetry. apply joined_avg_cagr_matched. exists p. split; assumption.
Qed.

(** Witness for X14: High St in 2001, when the three sample properties
    are all still to be sold for the last time. *)
Lemma high_street_row_of_2001_equals_summary :
  exists r s,
    In r (fst (per_year Examples.plain_mean years_range Examples.growth_sample))
    /\ In s (street_summary_records Examples.plain_mean Examples.frame_sample
                                    Examples.growth_sample)
    /\ street_year r = ("High St"%string, "Ryde"%string, 2112, 2001)
    /\ street_of s = ("High St"%string, "Ryde"%string, 2112)
    /\ StreetGrowth.avg_cagr r = StreetSummary.avg_cagr s
    /\ StreetGrowth.property_count r = 2.
Proof.
  set (r := {| StreetGrowth.street_name := "High St"%string;
               StreetGrowth.suburb := "Ryde"%string;
               StreetGrowth.post_code := 2112;
               StreetGrowth.year := 2001;
               StreetGrowth.avg_cagr :=
                 Examples.plain_mean [Flt 0.05; Flt 0.1];
               StreetGrowth.property_count := 2 |}).
  set (s := {| StreetSummary.street_name := "High St"%string;
               StreetSummary.suburb := "Ryde"%string;
               StreetSummary.post_code := 2112;
               StreetSummary.unique_properties := 2;
               StreetSummary.total_sales := 4;
               StreetSummary.avg_cagr :=
                 Examples.plain_mean [Flt 0.05; Flt 0.1];
               StreetSummary.is_top_performer := 0 |}).
  assert (Hr : In r (fst (per_year Examples.plain_mean years_range
                                   Examples.growth_sample)))
    by (vm_compute; left; reflexivity).
  assert (Hs : In s (street_summary_records Examples.plain_mean
                       Examples.frame_sample Examples.growth_sample))
    by (vm_compute; left; reflexivity).
  exists r, s. split; [exact Hr|]. split; [exact Hs|].
  split; [reflexivity|]. split; [reflexivity|].
  split; [|reflexivity].
  apply (proj1 (yearly_row_equals_summary_while_all_active
                  Examples.plain_mean Examples.frame_sample
                  Examples.growth_sample) r s Hr Hs eq_refl).
  intros p [<-|[<-|[<-|[]]]]; cbn; lia.
Defined.

(** ** Which properties a yearly row includes *)



Section YearlyInclusion.

Variable series_mean : list num -> float.
Variable growth_df : list Stat.t.





End YearlyInclusion.



